(** * Session-transcript repair: a shallow embedding of
      [scripts/fix-openclaw-session.py] and the properties of its
      analysis and repair passes.

    The script reads a session file of one JSON document per line, finds
    the records that a broken stream left behind, drops them, and rewires
    the parent links of the records that stay.

    Layout of the model:
    - the values the script handles are JSON values ([json]); a Python
      exception (AttributeError, TypeError) is the [None] of the option
      monad, so every helper that can raise returns an [option];
    - sets and dicts keyed by record ids hold hashed values ([hkey]), as
      [gset] and [gmap];
    - [json.loads], [json.dumps] and the iteration order of a set are
      parameters of the engine; [json.loads] decodes a line, rejects it
      (JSONDecodeError, which the script catches) or raises another
      exception (ValueError, RecursionError), which the script does not
      catch;
    - a file is the string of its bytes, and the repair passes its
      content in and out.  It is read as UTF-8 text with universal
      newlines: bytes that are not UTF-8 make the read raise, and a line
      ends at LF, at CR LF or at CR.  It is written with LF after every
      line; a text that cannot be encoded (it holds a lone surrogate)
      makes the write raise after the file was truncated;
    - a Python string is the string of the bytes of its UTF-8 encoding,
      a lone surrogate being written as the three bytes that the same
      scheme gives it, so that equality, order and substring tests agree
      with Python's, and a character is counted at each byte that is not
      a continuation byte;
    - [main] runs on a file system that maps a path to the text of the
      file; what the operating system answers about directories, and the
      clock, are parameters.

    Outside the model: float literals (numbers are integers), the
    failures of the operating system while a file that could be opened
    is read or written, and the translation of LF into another line
    separator on output (the separator of the platform is LF). *)

Set Warnings "-register-all,-clear-no-such-hyp".
From Stdlib Require Import ZArith Ascii String DecimalString.
From stdpp Require Import base option list strings gmap sets sorting.

Open Scope string_scope.
Open Scope list_scope.
Open Scope nat_scope.

(** ** JSON values *)

Inductive json : Type :=
| JNull
| JBool (b : bool)
| JInt (n : Z)
| JStr (s : string)
| JArr (xs : list json)
| JObj (kvs : list (string * json)).

(** Hashable Python values, up to Python equality: [True == 1] and
    [False == 0], so booleans are stored as integers.  Lists and dicts are
    not hashable. *)
Inductive hkey : Type :=
| HNone
| HInt (n : Z)
| HStr (s : string).

#[global] Instance hkey_eq_dec : EqDecision hkey.
Proof. solve_decision. Defined.

Definition hkey_to_sum (k : hkey) : unit + (Z + string) :=
  match k with
  | HNone => inl tt
  | HInt n => inr (inl n)
  | HStr s => inr (inr s)
  end.

Definition hkey_of_sum (x : unit + (Z + string)) : hkey :=
  match x with
  | inl _ => HNone
  | inr (inl n) => HInt n
  | inr (inr s) => HStr s
  end.

#[global] Instance hkey_countable : Countable hkey.
Proof.
  apply (inj_countable' hkey_to_sum hkey_of_sum).
  by intros [].
Defined.

(** [hash(v)]: [None] is TypeError (unhashable type). *)
Definition to_key (v : json) : option hkey :=
  match v with
  | JNull => Some HNone
  | JBool b => Some (HInt (if b then 1 else 0))
  | JInt n => Some (HInt n)
  | JStr s => Some (HStr s)
  | JArr _ | JObj _ => None
  end.

(** [bool(v)] *)
Definition truthy (v : json) : bool :=
  match v with
  | JNull => false
  | JBool b => b
  | JInt n => negb (n =? 0)%Z
  | JStr s => negb (String.eqb s "")
  | JArr xs => match xs with [] => false | _ => true end
  | JObj kvs => match kvs with [] => false | _ => true end
  end.

(** [v == "s"] for a string literal. *)
Definition eq_str (v : json) (s : string) : bool :=
  match v with
  | JStr t => String.eqb t s
  | _ => false
  end.

(** ** Dicts: insertion-ordered association lists with unique use of the
    first binding of a key. *)

Fixpoint assoc (k : string) (kvs : list (string * json)) : option json :=
  match kvs with
  | [] => None
  | (k', v) :: rest => if String.eqb k' k then Some v else assoc k rest
  end.

Definition dict_get (kvs : list (string * json)) (k : string) (dflt : json) : json :=
  default dflt (assoc k kvs).

Fixpoint dict_set (kvs : list (string * json)) (k : string) (v : json)
  : list (string * json) :=
  match kvs with
  | [] => [(k, v)]
  | (k', v') :: rest =>
      if String.eqb k' k then (k', v) :: rest else (k', v') :: dict_set rest k v
  end.

(** [v.get(k, dflt)]: AttributeError unless [v] is a dict. *)
Definition py_get (v : json) (k : string) (dflt : json) : option json :=
  match v with
  | JObj kvs => Some (dict_get kvs k dflt)
  | _ => None
  end.

(** ** Operators of the language used by the script *)

(** [t in s] on strings: [t] occurs in [s] as a contiguous substring. *)
Fixpoint str_contains (t s : string) : bool :=
  String.prefix t s ||
  match s with
  | EmptyString => false
  | String _ s' => str_contains t s'
  end.

(** [x in c] for a hashable [x]: substring test when [c] is a string
    (TypeError unless [x] is a string too), element test on a list, key
    test on a dict, TypeError on any other container. *)
Definition py_in (x : hkey) (c : json) : option bool :=
  match c with
  | JStr s => match x with HStr t => Some (str_contains t s) | _ => None end
  | JArr xs => Some (existsb (λ y, bool_decide (to_key y = Some x)) xs)
  | JObj kvs =>
      Some (match x with
            | HStr t => match assoc t kvs with Some _ => true | None => false end
            | _ => false
            end)
  | _ => None
  end.

(** [v in s] for a set or the keys of a dict: hashes [v] first. *)
Definition in_set (v : json) (s : gset hkey) : option bool :=
  k ← to_key v; Some (bool_decide (k ∈ s)).

(** ** Bytes and characters *)

Definition in_range (lo hi n : nat) : bool := (lo <=? n) && (n <=? hi).

(** The decoder of UTF-8 in strict mode, byte by byte: the state holds
    what the bytes to come must be.  Overlong forms, surrogates and code
    points above U+10FFFF are refused. *)
Inductive utf8_state : Type :=
| U0    (* between two characters *)
| U1    (* one continuation byte to come *)
| U2    (* two continuation bytes to come *)
| U3    (* three continuation bytes to come *)
| UE0   (* after E0: a byte of A0..BF, then one more *)
| UED   (* after ED: a byte of 80..9F, then one more *)
| UF0   (* after F0: a byte of 90..BF, then two more *)
| UF4.  (* after F4: a byte of 80..8F, then two more *)

Definition utf8_step (st : utf8_state) (c : ascii) : option utf8_state :=
  let n := nat_of_ascii c in
  match st with
  | U0 =>
      if n <? 128 then Some U0
      else if in_range 194 223 n then Some U1
      else if n =? 224 then Some UE0
      else if in_range 225 236 n || in_range 238 239 n then Some U2
      else if n =? 237 then Some UED
      else if n =? 240 then Some UF0
      else if in_range 241 243 n then Some U3
      else if n =? 244 then Some UF4
      else None
  | U1 => if in_range 128 191 n then Some U0 else None
  | U2 => if in_range 128 191 n then Some U1 else None
  | U3 => if in_range 128 191 n then Some U2 else None
  | UE0 => if in_range 160 191 n then Some U1 else None
  | UED => if in_range 128 159 n then Some U1 else None
  | UF0 => if in_range 144 191 n then Some U2 else None
  | UF4 => if in_range 128 143 n then Some U2 else None
  end.

Fixpoint utf8_run (st : utf8_state) (s : string) : option utf8_state :=
  match s with
  | EmptyString => Some st
  | String c s' => st' ← utf8_step st c; utf8_run st' s'
  end.

(** The bytes are the UTF-8 encoding of a text: reading them does not
    raise UnicodeDecodeError, and a text with these bytes can be
    written (a lone surrogate has no encoding, and writing it raises
    UnicodeEncodeError). *)
Definition utf8_valid (s : string) : bool :=
  match utf8_run U0 s with
  | Some U0 => true
  | _ => false
  end.

Definition is_continuation (c : ascii) : bool :=
  in_range 128 191 (nat_of_ascii c).

(** [s[:n]] on a string: the first [n] characters, each with its
    continuation bytes. *)
Fixpoint take_chars (n : nat) (s : string) : string :=
  match s with
  | EmptyString => EmptyString
  | String c s' =>
      if is_continuation c then String c (take_chars n s')
      else match n with
           | 0 => EmptyString
           | S n' => String c (take_chars n' s')
           end
  end.

(** [v[:80]] *)
Definition slice80 (v : json) : option json :=
  match v with
  | JStr s => Some (JStr (take_chars 80 s))
  | JArr xs => Some (JArr (take 80 xs))
  | _ => None
  end.

Definition hkey_le (a b : hkey) : Prop :=
  match a, b with
  | HInt x, HInt y => (x ≤ y)%Z
  | HStr s, HStr t => String.leb s t = true
  | _, _ => True
  end.

#[global] Instance hkey_le_dec a b : Decision (hkey_le a b).
Proof. destruct a, b; simpl; apply _. Defined.

Definition is_int (k : hkey) : bool := match k with HInt _ => true | _ => false end.
Definition is_str (k : hkey) : bool := match k with HStr _ => true | _ => false end.

(** [sorted(s)]: TypeError when two members cannot be ordered, that is
    unless the set has at most one member, or only numbers, or only
    strings. *)
Definition py_sorted (s : gset hkey) : option (list hkey) :=
  let l := elements s in
  if (length l <=? 1)%nat || forallb is_int l || forallb is_str l
  then Some (merge_sort hkey_le l) else None.

(** Left-to-right loop whose body may raise. *)
Fixpoint foldM {S A : Type} (step : S → A → option S) (st : S) (l : list A)
  : option S :=
  match l with
  | [] => Some st
  | x :: rest => st' ← step st x; foldM step st' rest
  end.

(** ** Constants *)

Definition TOOL_CALL_TYPES : gset hkey :=
  {[ HStr "toolCall"; HStr "toolUse"; HStr "functionCall" ]}.
Definition TOOL_RESULT_ROLES : gset hkey :=
  {[ HStr "toolResult"; HStr "tool_result" ]}.

(** ** Helpers of the script *)

Definition LF : ascii := "010"%char.
Definition CR : ascii := "013"%char.

(** The pieces of a text between line ends, where a line ends at LF, at
    CR LF or at CR (universal newlines).  Iterating over the file yields
    these pieces (each with its line end turned into LF, which [rstrip]
    removes), except for a last empty piece; empty pieces are skipped by
    [parse_jsonl] anyway. *)
Fixpoint file_lines (s : string) : list string :=
  match s with
  | EmptyString => [EmptyString]
  | String c s' =>
      if Ascii.eqb c LF then EmptyString :: file_lines s'
      else if Ascii.eqb c CR then
        match s' with
        | String c' s'' =>
            if Ascii.eqb c' LF then EmptyString :: file_lines s''
            else EmptyString :: file_lines s'
        | EmptyString => EmptyString :: file_lines s'
        end
      else match file_lines s' with
           | l :: ls => String c l :: ls
           | [] => [String c EmptyString]
           end
  end.

(** ["\n".join(output)] *)
Fixpoint join_lines (ls : list string) : string :=
  match ls with
  | [] => EmptyString
  | [l] => l
  | l :: rest => l +:+ String LF (join_lines rest)
  end.

(** One parsed line: [(line_number, parsed_obj, raw_line)]. *)
Definition entry : Type := nat * option json * string.

Definition get_role (obj : json) : option json :=
  msg ← py_get obj "message" JNull;
  match msg with
  | JObj m => Some (dict_get m "role" JNull)
  | _ => Some JNull
  end.

Definition get_id (obj : json) : option json := py_get obj "id" (JStr "").

Definition get_parent_id (obj : json) : option json := py_get obj "parentId" (JStr "").

Fixpoint collect_tool_call_ids (blocks : list json) (ids : gset hkey)
  : option (gset hkey) :=
  match blocks with
  | [] => Some ids
  | JObj b :: rest =>
      t ← in_set (dict_get b "type" JNull) TOOL_CALL_TYPES;
      if t : bool then
        let block_id := dict_get b "id" (JStr "") in
        if truthy block_id then
          k ← to_key block_id; collect_tool_call_ids rest (ids ∪ {[ k ]})
        else collect_tool_call_ids rest ids
      else collect_tool_call_ids rest ids
  | _ :: rest => collect_tool_call_ids rest ids
  end.

Definition extract_tool_call_ids (obj : json) : option (gset hkey) :=
  msg ← py_get obj "message" (JObj []);
  content ← py_get msg "content" (JArr []);
  match content with
  | JArr blocks => collect_tool_call_ids blocks ∅
  | _ => Some ∅
  end.

Definition has_key (k : string) (kvs : list (string * json)) : bool :=
  match assoc k kvs with Some _ => true | None => false end.

Fixpoint any_partial_json (blocks : list json) : option bool :=
  match blocks with
  | [] => Some false
  | JObj b :: rest =>
      t ← in_set (dict_get b "type" JNull) TOOL_CALL_TYPES;
      if (t : bool) && has_key "partialJson" b then Some true
      else any_partial_json rest
  | _ :: rest => any_partial_json rest
  end.

Definition has_partial_json (obj : json) : option bool :=
  msg ← py_get obj "message" (JObj []);
  content ← py_get msg "content" (JArr []);
  match content with
  | JArr blocks => any_partial_json blocks
  | _ => Some false
  end.

Definition is_error_assistant (obj : json) : option bool :=
  msg ← py_get obj "message" (JObj []);
  stop ← py_get msg "stopReason" JNull;
  Some (eq_str stop "error").

Definition is_empty_content (content : json) : bool :=
  match content with
  | JArr [] | JNull => true
  | _ => false
  end.

Definition is_empty_error_assistant (obj : json) : option bool :=
  msg ← py_get obj "message" (JObj []);
  role ← py_get msg "role" JNull;
  if negb (eq_str role "assistant") then Some false
  else
    content ← py_get msg "content" (JArr []);
    err ← py_get msg "errorMessage" (JStr "");
    if is_empty_content content then py_in (HStr "tool_use_id") err
    else Some false.

Definition get_tool_result_id (obj : json) : option json :=
  msg ← py_get obj "message" (JObj []);
  role ← py_get msg "role" JNull;
  r ← in_set role TOOL_RESULT_ROLES;
  if negb r then Some JNull
  else
    a ← py_get msg "toolCallId" JNull;
    b ← py_get msg "toolUseId" JNull;
    Some (if truthy a then a else if truthy b then b else JNull).

Fixpoint collect_tool_result_ids (blocks : list json) (ids : gset hkey)
  : option (gset hkey) :=
  match blocks with
  | [] => Some ids
  | JObj b :: rest =>
      if eq_str (dict_get b "type" JNull) "tool_result" then
        let tuid := dict_get b "tool_use_id" (JStr "") in
        if truthy tuid then
          k ← to_key tuid; collect_tool_result_ids rest (ids ∪ {[ k ]})
        else collect_tool_result_ids rest ids
      else collect_tool_result_ids rest ids
  | _ :: rest => collect_tool_result_ids rest ids
  end.

Definition get_tool_result_ids_from_user (obj : json) : option (gset hkey) :=
  msg ← py_get obj "message" (JObj []);
  role ← py_get msg "role" JNull;
  if negb (eq_str role "user") then Some ∅
  else
    content ← py_get msg "content" (JArr []);
    match content with
    | JArr blocks => collect_tool_result_ids blocks ∅
    | _ => Some ∅
    end.

Definition extract_all_step (ids : gset hkey) (e : entry) : option (gset hkey) :=
  match e with
  | (_, None, _) => Some ids
  | (_, Some obj, _) =>
      role ← get_role obj;
      if negb (eq_str role "assistant") then Some ids
      else
        msg ← py_get obj "message" (JObj []);
        stop ← py_get msg "stopReason" JNull;
        if eq_str stop "error" then Some ids
        else more ← extract_tool_call_ids obj; Some (ids ∪ more)
  end.

Definition extract_all_tool_call_ids (entries : list entry) : option (gset hkey) :=
  foldM extract_all_step ∅ entries.

(** [obj[k] = v] *)
Definition py_setitem (obj : json) (k : string) (v : json) : option json :=
  match obj with
  | JObj kvs => Some (JObj (dict_set kvs k v))
  | _ => None
  end.

(** The reason strings, kept as tagged values: the payload is what the
    f-string interpolates. *)
Inductive reason : Type :=
| ErrorPartialJson (err : json)
| OrphanToolResult (tr_id : json)
| Cascade400 (tc_id : hkey).

(** The local variables that the three detection passes of
    [analyze_session] fill in. *)
Record scan : Type := Scan {
  broken_assistant_ids : gset hkey;
  broken_tool_call_ids : gset hkey;
  broken_line_map : gmap hkey nat;
  reasons : gmap hkey reason;
  orphan_result_ids : gset hkey;
  cascade_error_ids : gset hkey
}.

Definition scan0 : scan := Scan ∅ ∅ ∅ ∅ ∅ ∅.

Module Report.
(** The report of a corrupted session; the fields are the keys of the
    dict that [analyze_session] returns. *)
Record details : Type := Details {
  lines : nat;
  broken_assistants : list hkey;
  orphan_results : list hkey;
  cascade_errors : list hkey;
  unparseable_lines : list nat;
  remove_ids : gset hkey;
  remove_count : nat;
  parent_fixes : gmap hkey json;
  line_map : gmap hkey nat;
  broken_tool_call_ids : list hkey;
  reasons : gmap hkey reason
}.

(** [Clean n] is [{"file": .., "lines": n, "corrupted": False}]. *)
Inductive report : Type :=
| Clean (lines : nat)
| Corrupted (d : details).

Definition corrupted (r : report) : bool :=
  match r with Clean _ => false | Corrupted _ => true end.

Definition line_count (r : report) : nat :=
  match r with Clean n => n | Corrupted d => lines d end.

(** The details of the report of a run, when it found corruption. *)
Definition details_of (r : option report) : details :=
  match r with
  | Some (Corrupted d) => d
  | _ => Details 0 [] [] [] [] ∅ 0 ∅ ∅ [] ∅
  end.
End Report.

(** What the repair loop does with one entry. *)
Inductive outcome : Type :=
| Dropped
| Kept (raw : string)
| Rewritten (obj : json).

(** The value returned by [fix_session], with the numbers its text shows. *)
Inductive summary : Type :=
| NothingToDo
| WouldFix (total n_broken n_orphan n_cascade : nat) (unparseable : list nat)
    (remove_count : nat) (lines_info : list nat) (poisoned : list string)
    (n_parent_fixes : nat) (details : list (nat * reason))
| Fixed (lines_info : list nat) (removed fixed lines_before lines_after : nat)
    (verified : bool).

(** The key [lambda x: line_map[x]] of the sort of the removed lines. *)
Definition line_le (a b : hkey * nat) : Prop := (a.2 ≤ b.2)%nat.

#[global] Instance line_le_dec a b : Decision (line_le a b).
Proof. unfold line_le. apply _. Defined.

(** What [json.loads] does with a line: it returns a value, raises
    JSONDecodeError, or raises something else (ValueError on a number
    with too many digits, RecursionError on deep nesting). *)
Inductive loaded : Type :=
| Decoded (v : json)
| NotJson
| LoadsRaised.

(** The result of one remap walk. *)
Inductive walk_result : Type :=
| OutOfFuel
| WalkRaised
| Ancestor (a : json).

(** ** The command line and the output of [main] *)

Module Cli.
(** [a.startswith(p)] *)
Definition startswith (a p : string) : bool := String.prefix p a.

Definition do_fix (args : list string) : bool := bool_decide ("--fix" ∈ args).

Definition verbose (args : list string) : bool :=
  bool_decide ("--verbose" ∈ args) || bool_decide ("-v" ∈ args).

Definition all_agents (args : list string) : bool :=
  bool_decide ("--all-agents" ∈ args).

Definition positional (args : list string) : list string :=
  List.filter (λ a, negb (startswith a "--") && negb (startswith a "-")) args.
End Cli.

(** What the loop of [main] prints for one session file: the error of a
    scan that raised, the summary that [fix_session] returned, or the
    error of a repair that raised. *)
Inductive event : Type :=
| ScanError (filepath : string)
| Printed (result : summary)
| FixError (filepath : string).

(** How [main] ends: exit status 1 on a target that is neither a file
    nor a directory, the note that no session file was found, or the
    closing line with the number of corrupted sessions. *)
Inductive verdict : Type :=
| BadTarget (target : string)
| NoFiles
| AllClean
| Counted (fixed : bool) (corrupted_count : nat).

(** The scans that raised, among what [main] printed. *)
Definition is_scan_error (ev : event) : bool :=
  match ev with ScanError _ => true | _ => false end.

(** ** A serializer and sample sessions

    The engine below takes [json.loads] and [json.dumps] as parameters.
    To run it on sample sessions, [PyJson.dumps] prints a value the way
    [json.dumps(obj, ensure_ascii=False)] does, and [PyJson.loads docs]
    decodes exactly the texts of the documents [docs]; any other line is
    not JSON. *)

Module PyJson.
Definition DQ : ascii := "034"%char.
Definition BS : ascii := "092"%char.

Definition hex_digit (n : nat) : ascii :=
  match n with
  | 0 => "0" | 1 => "1" | 2 => "2" | 3 => "3" | 4 => "4" | 5 => "5"
  | 6 => "6" | 7 => "7" | 8 => "8" | 9 => "9" | 10 => "a" | 11 => "b"
  | 12 => "c" | 13 => "d" | 14 => "e" | _ => "f"
  end%char.

Definition escape_char (c : ascii) : string :=
  let n := nat_of_ascii c in
  if Ascii.eqb c DQ then String BS (String DQ "")
  else if Ascii.eqb c BS then String BS (String BS "")
  else if n =? 8 then String BS "b"
  else if n =? 12 then String BS "f"
  else if n =? 10 then String BS "n"
  else if n =? 13 then String BS "r"
  else if n =? 9 then String BS "t"
  else if n <? 32 then
    String BS ("u00" +:+ String (hex_digit (n / 16))
                           (String (hex_digit (n mod 16)) ""))
  else String c "".

Fixpoint escape (s : string) : string :=
  match s with
  | EmptyString => EmptyString
  | String c s' => escape_char c +:+ escape s'
  end.

Definition quote (s : string) : string :=
  String DQ (escape s +:+ String DQ "").

Definition int_text (n : Z) : string := NilZero.string_of_int (Z.to_int n).

Fixpoint dumps (v : json) : string :=
  match v with
  | JNull => "null"
  | JBool true => "true"
  | JBool false => "false"
  | JInt n => int_text n
  | JStr s => quote s
  | JArr xs =>
      "[" +:+
      (fix items (l : list json) : string :=
         match l with
         | [] => ""
         | [x] => dumps x
         | x :: rest => dumps x +:+ ", " +:+ items rest
         end) xs +:+ "]"
  | JObj kvs =>
      "{" +:+
      (fix members (l : list (string * json)) : string :=
         match l with
         | [] => ""
         | [(k, x)] => quote k +:+ ": " +:+ dumps x
         | (k, x) :: rest =>
             quote k +:+ ": " +:+ dumps x +:+ ", " +:+ members rest
         end) kvs +:+ "}"
  end.

Definition loads (docs : list json) (s : string) : loaded :=
  match List.find (λ o, String.eqb (dumps o) s) docs with
  | Some o => Decoded o
  | None => NotJson
  end.

End PyJson.

Module Samples.
Definition record (id parent : string) (message : json) : json :=
  JObj [("id", JStr id); ("parentId", JStr parent); ("message", message)].

Definition user_says (text : string) : json :=
  JObj [("role", JStr "user"); ("content", JStr text)].

(** An assistant turn cut while it streamed the tool call [T1]. *)
Definition broken_call : json :=
  JObj [("role", JStr "assistant");
        ("content", JArr [JObj [("type", JStr "toolCall"); ("id", JStr "T1");
                                ("partialJson", JStr "{x")]]);
        ("stopReason", JStr "error");
        ("errorMessage", JStr "terminated")].

Definition result_for_T1 : json :=
  JObj [("role", JStr "toolResult"); ("toolCallId", JStr "T1")].

(** The text of a session file: one document per line. *)
Definition session (docs : list json) : string :=
  join_lines (PyJson.dumps <$> docs) +:+ String LF "".

(** The scenario of the specification: a broken assistant [A], the
    tool result [R1] for it, a survivor [B] below [R1], and [K] below
    [B]. *)
Definition rec_A : json := record "A" "" broken_call.
Definition rec_R1 : json := record "R1" "A" result_for_T1.
Definition rec_B : json := record "B" "R1" (user_says "go on").
Definition rec_B_fixed : json := record "B" "" (user_says "go on").
Definition rec_K : json := record "K" "B" (user_says "thanks").
Definition docs_scenario : list json := [rec_A; rec_R1; rec_B; rec_B_fixed; rec_K].
Definition file_scenario : string := session [rec_A; rec_R1; rec_B; rec_K].
Definition file_scenario_fixed : string := session [rec_B_fixed; rec_K].

(** A cyclic parent graph: [A.parent = B] and [B.parent = A], both
    removed; [C] hangs below [A], and [D] names a parent that is in no
    line of the file. *)
Definition cyc_A : json := record "A" "B" broken_call.
Definition cyc_B : json := record "B" "A" result_for_T1.
Definition cyc_C : json := record "C" "A" (user_says "next").
Definition cyc_D : json := record "D" "ghost" (user_says "stray").
Definition docs_cycle : list json := [cyc_A; cyc_B; cyc_C; cyc_D].
Definition file_cycle : string := session docs_cycle.

(** Empty assistant replies that quote the poisoned id [T1]: the first
    in the words of the API error, the second without the words
    [tool_use_id]. *)
Definition empty_reply (err : string) : json :=
  JObj [("role", JStr "assistant"); ("content", JArr []);
        ("stopReason", JStr "error"); ("errorMessage", JStr err)].
Definition rec_cascade : json :=
  record "C" "A" (empty_reply "unexpected tool_use_id found in tool_result blocks: T1").
Definition rec_plain : json :=
  record "C" "A" (empty_reply "request rejected because of T1").
Definition docs_cascade : list json := [rec_A; rec_cascade; rec_plain].
Definition file_cascade : string := session [rec_A; rec_cascade].
Definition file_plain : string := session [rec_A; rec_plain].

(** A user turn that carries a tool_result block for [T1]. *)
Definition rec_U : json :=
  record "U" "A"
    (JObj [("role", JStr "user");
           ("content", JArr [JObj [("type", JStr "tool_result");
                                   ("tool_use_id", JStr "T1");
                                   ("content", JStr "done")]])]).
Definition rec_U_fixed : json :=
  record "U" ""
    (JObj [("role", JStr "user");
           ("content", JArr [JObj [("type", JStr "tool_result");
                                   ("tool_use_id", JStr "T1");
                                   ("content", JStr "done")]])]).
Definition docs_user : list json := [rec_A; rec_U; rec_U_fixed].
Definition file_user : string := session [rec_A; rec_U].

(** Two records with the id [A]: the broken assistant and a plain
    user turn. *)
Definition rec_twin : json := record "A" "" (user_says "hello").
Definition docs_twin : list json := [rec_A; rec_twin; rec_K].
Definition file_twin : string := session [rec_A; rec_twin; rec_K].

(** A session with a line that is not JSON. *)
Definition file_garbled : string :=
  join_lines [PyJson.dumps rec_A; "not json"; PyJson.dumps rec_K]
  +:+ String LF "".

(** Only blank lines, ended by LF, CR LF and CR. *)
Definition file_blank : string := String LF (String CR (String LF (String CR ""))).

(** The two characters CR LF. *)
Definition CRLF : string := String CR (String LF "").

(** A repaired session whose lines end with CR LF, with a blank line
    between its two records. *)
Definition file_gaps : string :=
  PyJson.dumps rec_B_fixed +:+ CRLF +:+ CRLF +:+ PyJson.dumps rec_K +:+ CRLF.

(** The scenario in a file whose lines end with CR LF. *)
Definition file_scenario_crlf : string :=
  PyJson.dumps rec_A +:+ CRLF +:+ PyJson.dumps rec_R1 +:+ CRLF +:+
  PyJson.dumps rec_B +:+ CRLF +:+ PyJson.dumps rec_K +:+ CRLF.

(** The entries of the scenario. *)
Definition entries_scenario : list entry :=
  [(1, Some rec_A, PyJson.dumps rec_A); (2, Some rec_R1, PyJson.dumps rec_R1);
   (3, Some rec_B, PyJson.dumps rec_B); (4, Some rec_K, PyJson.dumps rec_K)].
Definition entries_cycle : list entry :=
  [(1, Some cyc_A, PyJson.dumps cyc_A); (2, Some cyc_B, PyJson.dumps cyc_B);
   (3, Some cyc_C, PyJson.dumps cyc_C); (4, Some cyc_D, PyJson.dumps cyc_D)].
Definition entries_twin : list entry :=
  [(1, Some rec_A, PyJson.dumps rec_A); (2, Some rec_twin, PyJson.dumps rec_twin);
   (3, Some rec_K, PyJson.dumps rec_K)].

(** A byte that is no UTF-8 text: the letter e with an acute accent in
    Latin-1. *)
Definition file_latin1 : string := String "233"%char "".


(** A tool result for [T1] in a session without the broken assistant. *)
Definition file_orphans : string := session [rec_R1; rec_K].

(** A line that holds a list, and an empty assistant reply whose error
    message is null. *)
Definition rec_list : json := JArr [JInt 1; JInt 2].
Definition rec_null_error : json :=
  record "N" ""
    (JObj [("role", JStr "assistant"); ("content", JArr []);
           ("errorMessage", JNull)]).
Definition docs_odd : list json := docs_scenario ++ [rec_list; rec_null_error].
Definition file_list : string := session [rec_K; rec_list].
Definition file_null_error : string := session [rec_K; rec_null_error].

(** An assistant turn that completed the tool call [T2]. *)
Definition good_call : json :=
  JObj [("role", JStr "assistant");
        ("content", JArr [JObj [("type", JStr "toolUse"); ("id", JStr "T2");
                                ("arguments", JObj [])]]);
        ("stopReason", JStr "toolUse")].
Definition rec_G : json := record "G" "" good_call.
Definition entries_two_calls : list entry :=
  [(1, Some rec_G, "g"); (2, Some rec_A, "a")].

(** A directory [sessions] with two session files, and a file that is
    not a session. *)
Definition in_sessions (target : string) : bool := String.eqb target "sessions".
Definition not_a_dir (target : string) : bool := false.
Definition any_file (target : string) : bool := true.
Definition two_sessions (target : string) : list string := ["a.jsonl"; "b.jsonl"].
Definition no_default_sessions (all_agents : bool) : list string := [].
Definition noon (filepath : string) : string := "20240101_120000".
Definition disk_broken : gmap string string :=
  {[ "a.jsonl" := file_scenario; "b.jsonl" := file_list;
     "notes.txt" := "keep" ]}.
Definition disk_repaired : gmap string string :=
  {[ "a.jsonl" := file_scenario_fixed; "b.jsonl" := file_list;
     "notes.txt" := "keep" ]}.

(** The decoders of the samples. *)
Definition loads_scenario := PyJson.loads docs_scenario.
Definition loads_cycle := PyJson.loads docs_cycle.
Definition loads_cascade := PyJson.loads docs_cascade.
Definition loads_user := PyJson.loads docs_user.
Definition loads_twin := PyJson.loads docs_twin.
Definition loads_odd := PyJson.loads docs_odd.
End Samples.

Section Engine.

Set Default Proof Using "Type".

(** [json.loads] *)
Variable loads : string → loaded.
(** [json.dumps(obj, ensure_ascii=False)] *)
Variable dumps : json → string.
(** The order in which a [for] loop visits the members of a set: each
    member once. *)
Variable set_order : gset hkey → list hkey.
Hypothesis set_order_perm : ∀ s, set_order s ≡ₚ elements s.

(** The [try] around [json.loads(raw)]: the value of [obj], or [None]
    when an exception other than JSONDecodeError leaves the function.  A
    line that holds the literal [null] gives [obj = None], which the
    script cannot tell from a line that failed to decode. *)
Definition decode (raw : string) : option (option json) :=
  match loads raw with
  | Decoded JNull => Some None
  | Decoded v => Some (Some v)
  | NotJson => Some None
  | LoadsRaised => None
  end.

(** The loop over the lines, the first of which has the number [i]. *)
Fixpoint parse_from (i : nat) (ls : list string) : option (list entry) :=
  match ls with
  | [] => Some []
  | raw :: rest =>
      if String.eqb raw "" then parse_from (S i) rest
      else
        obj ← decode raw;
        entries ← parse_from (S i) rest;
        Some ((i, obj, raw) :: entries)
  end.

(** [parse_jsonl] on a file that can be opened; [None] is an exception
    that leaves the function: UnicodeDecodeError from the reader, or what
    [json.loads] raised. *)
Definition parse_jsonl (file : string) : option (list entry) :=
  if utf8_valid file then parse_from 1 (file_lines file) else None.

Definition unparseable_of (entries : list entry) : list nat :=
  omap (λ e : entry, match e with (lineno, None, _) => Some lineno | _ => None end)
       entries.

(** Pass 1: broken assistant messages (error + partialJson). *)
Definition pass1_step (st : scan) (e : entry) : option scan :=
  match e with
  | (_, None, _) => Some st
  | (lineno, Some obj, _) =>
      role ← get_role obj;
      if negb (eq_str role "assistant") then Some st
      else
        is_err ← is_error_assistant obj;
        partial ← (if is_err : bool then has_partial_json obj else Some false);
        if partial : bool then
          oid ← get_id obj;
          k ← to_key oid;
          tcs ← extract_tool_call_ids obj;
          msg ← py_get obj "message" (JObj []);
          errv ← py_get msg "errorMessage" (JStr "");
          err ← slice80 errv;
          Some (Scan (broken_assistant_ids st ∪ {[ k ]})
                     (broken_tool_call_ids st ∪ tcs)
                     (<[ k := lineno ]> (broken_line_map st))
                     (<[ k := ErrorPartialJson err ]> (reasons st))
                     (orphan_result_ids st)
                     (cascade_error_ids st))
        else Some st
  end.

(** Pass 2: orphan toolResults that reference broken tool-call ids. *)
Definition pass2_step (st : scan) (e : entry) : option scan :=
  match e with
  | (_, None, _) => Some st
  | (lineno, Some obj, _) =>
      tr_id ← get_tool_result_id obj;
      hit ← (if truthy tr_id then in_set tr_id (broken_tool_call_ids st)
             else Some false);
      if hit : bool then
        oid ← get_id obj;
        k ← to_key oid;
        Some (Scan (broken_assistant_ids st)
                   (broken_tool_call_ids st)
                   (<[ k := lineno ]> (broken_line_map st))
                   (<[ k := OrphanToolResult tr_id ]> (reasons st))
                   (orphan_result_ids st ∪ {[ k ]})
                   (cascade_error_ids st))
      else Some st
  end.

(** The inner loop of pass 3: the first poisoned id, in iteration
    order, that occurs in [err]. *)
Fixpoint first_mention (tc_ids : list hkey) (err : json) : option (option hkey) :=
  match tc_ids with
  | [] => Some None
  | tc_id :: rest =>
      b ← py_in tc_id err;
      if b : bool then Some (Some tc_id) else first_mention rest err
  end.

(** Pass 3: empty error responses caused by the cascade. *)
Definition pass3_step (st : scan) (e : entry) : option scan :=
  match e with
  | (_, None, _) => Some st
  | (lineno, Some obj, _) =>
      empty_err ← is_empty_error_assistant obj;
      if empty_err : bool then
        msg ← py_get obj "message" (JObj []);
        err ← py_get msg "errorMessage" (JStr "");
        found ← first_mention (set_order (broken_tool_call_ids st)) err;
        match found with
        | Some tc_id =>
            oid ← get_id obj;
            k ← to_key oid;
            Some (Scan (broken_assistant_ids st)
                       (broken_tool_call_ids st)
                       (<[ k := lineno ]> (broken_line_map st))
                       (<[ k := Cascade400 tc_id ]> (reasons st))
                       (orphan_result_ids st)
                       (cascade_error_ids st ∪ {[ k ]}))
        | None => Some st
        end
      else Some st
  end.

Definition id_to_parent_step (m : gmap hkey json) (e : entry)
  : option (gmap hkey json) :=
  match e with
  | (_, None, _) => Some m
  | (_, Some obj, _) =>
      oid ← get_id obj;
      k ← to_key oid;
      pid ← get_parent_id obj;
      Some (<[ k := pid ]> m)
  end.

(** The map [id_to_parent] built from the decoded entries. *)
Definition id_to_parent_of (entries : list entry) : option (gmap hkey json) :=
  foldM id_to_parent_step ∅ entries.

(** [id_to_parent.get(k, dflt)] with the empty string as default *)
Definition parent_of (id_to_parent : gmap hkey json) (k : hkey) : json :=
  default (JStr "") (id_to_parent !! k).

(** The [while ancestor in remove_ids] loop.  One unit of fuel is spent
    per iteration of the body. *)
Fixpoint walk (fuel : nat) (remove_ids : gset hkey)
    (id_to_parent : gmap hkey json) (ancestor : json) (seen : gset hkey)
  : walk_result :=
  match to_key ancestor with
  | None => WalkRaised
  | Some ka =>
      if bool_decide (ka ∈ remove_ids) then
        if bool_decide (ka ∈ seen) then Ancestor ancestor
        else
          match fuel with
          | 0 => OutOfFuel
          | S fuel' =>
              walk fuel' remove_ids id_to_parent
                   (parent_of id_to_parent ka) (seen ∪ {[ ka ]})
          end
      else Ancestor ancestor
  end.

Definition remap (remove_ids : gset hkey) (id_to_parent : gmap hkey json)
    (rid : hkey) : walk_result :=
  walk (size remove_ids) remove_ids id_to_parent
       (parent_of id_to_parent rid) {[ rid ]}.

(** One iteration of [for rid in remove_ids].  [WalkRaised] is the
    TypeError of an unhashable parent; [OutOfFuel] does not occur, the
    fuel of [remap] being enough for every walk. *)
Definition parent_fixes_step (remove_ids : gset hkey)
    (id_to_parent : gmap hkey json) (fixes : gmap hkey json) (rid : hkey)
  : option (gmap hkey json) :=
  match remap remove_ids id_to_parent rid with
  | Ancestor a => Some (<[ rid := a ]> fixes)
  | _ => None
  end.

Definition analyze_entries (entries : list entry) : option Report.report :=
  match entries with
  | [] => Some (Report.Clean 0)
  | _ =>
      let unparseable_lines := unparseable_of entries in
      st1 ← foldM pass1_step scan0 entries;
      st2 ← foldM pass2_step st1 entries;
      st3 ← foldM pass3_step st2 entries;
      all_valid_tool_call_ids ← extract_all_tool_call_ids entries;
      let remove_ids :=
        broken_assistant_ids st3 ∪ orphan_result_ids st3 ∪ cascade_error_ids st3 in
      if bool_decide (remove_ids = ∅) && bool_decide (unparseable_lines = [])
      then Some (Report.Clean (length entries))
      else
        id_to_parent ← id_to_parent_of entries;
        parent_fixes ←
          foldM (parent_fixes_step remove_ids id_to_parent) ∅ (set_order remove_ids);
        ba ← py_sorted (broken_assistant_ids st3);
        ors ← py_sorted (orphan_result_ids st3);
        ce ← py_sorted (cascade_error_ids st3);
        btc ← py_sorted (broken_tool_call_ids st3);
        Some (Report.Corrupted
                (Report.Details (length entries) ba ors ce unparseable_lines
                   remove_ids (size remove_ids) parent_fixes
                   (broken_line_map st3) btc (reasons st3)))
  end.

Definition analyze_session (file : string) : option Report.report :=
  entries ← parse_jsonl file; analyze_entries entries.

(** The body of the repair loop, for one entry. *)
Definition fix_entry (remove_ids : gset hkey) (parent_fixes : gmap hkey json)
    (e : entry) : option outcome :=
  match e with
  | (_, None, raw) => Some (Kept raw)
  | (_, Some obj, raw) =>
      oid ← get_id obj;
      k ← to_key oid;
      if bool_decide (k ∈ remove_ids) then Some Dropped
      else
        pid ← get_parent_id obj;
        kp ← to_key pid;
        match parent_fixes !! kp with
        | Some a => obj' ← py_setitem obj "parentId" a; Some (Rewritten obj')
        | None => Some (Kept raw)
        end
  end.

(** Loop state: [(output, removed, fixed)]. *)
Definition fix_step (remove_ids : gset hkey) (parent_fixes : gmap hkey json)
    (st : list string * nat * nat) (e : entry)
  : option (list string * nat * nat) :=
  let '(output, removed, fixed) := st in
  o ← fix_entry remove_ids parent_fixes e;
  Some (match o with
        | Dropped => (output, S removed, fixed)
        | Kept raw => (output ++ [raw], removed, fixed)
        | Rewritten obj' => (output ++ [dumps obj'], removed, S fixed)
        end).

(** The [for _, obj, raw in entries] loop of [fix_session]. *)
Definition fix_loop (remove_ids : gset hkey) (parent_fixes : gmap hkey json)
    (entries : list entry) : option (list string * nat * nat) :=
  foldM (fix_step remove_ids parent_fixes) ([], 0, 0) entries.

Definition key_string (k : hkey) : option string :=
  match k with HStr s => Some s | _ => None end.

(** [fix_session]: the state of the session file is passed in and out;
    an exception leaves the file as it was at that moment, which is
    empty when the write raised: [open(filepath, "w")] has truncated the
    file, and [f.write] encodes the whole text before it writes any of
    it.  The backup copy is another file and is not part of this
    state. *)
Definition fix_session (file : string) (report : Report.report)
    (dry_run verbose : bool) : string * option summary :=
  match report with
  | Report.Clean _ => (file, Some NothingToDo)
  | Report.Corrupted d =>
      let by_line := merge_sort line_le (map_to_list (Report.line_map d)) in
      let lines_info := snd <$> by_line in
      if dry_run then
        (file,
         poisoned ← mapM key_string (Report.broken_tool_call_ids d);
         Some (WouldFix (Report.lines d)
                 (length (Report.broken_assistants d))
                 (length (Report.orphan_results d))
                 (length (Report.cascade_errors d))
                 (Report.unparseable_lines d)
                 (Report.remove_count d) lines_info poisoned
                 (size (Report.parent_fixes d))
                 (if verbose then
                    omap (λ p : hkey * nat, pair p.2 <$> Report.reasons d !! p.1)
                         by_line
                  else [])))
      else
        match parse_jsonl file with
        | None => (file, None)
        | Some entries =>
            match fix_loop (Report.remove_ids d) (Report.parent_fixes d)
                           entries with
            | None => (file, None)
            | Some (output, removed, fixed) =>
                let file' := join_lines output +:+ String LF EmptyString in
                if utf8_valid file' then
                  (file',
                   verify_report ← analyze_session file';
                   Some (Fixed lines_info removed fixed (Report.lines d)
                           (length output)
                           (negb (Report.corrupted verify_report))))
                else (EmptyString, None)
            end
        end
  end.

(** The body of the loop of [main] for one session file: the final
    content of the file.  Exceptions are caught and reported there. *)
Definition run_file (do_fix verbose : bool) (file : string) : string :=
  match analyze_session file with
  | None => file
  | Some report =>
      if Report.corrupted report
      then (fix_session file report (negb do_fix) verbose).1
      else file
  end.

(** ** The session files on disk

    The file system maps a path to the bytes of the file; a path that
    is not in the map cannot be opened (OSError).  The answers of the
    operating system about directories, and the clock, are parameters. *)
Section Main.

Variable isdir isfile : string → bool.
(** [sorted(glob.glob(os.path.join(target, "*.jsonl")))] *)
Variable glob_jsonl : string → list string.
Variable discover_session_files : bool → list string.
(** The time stamp [datetime.now().strftime(..)] read while the file at
    the given path is repaired. *)
Variable now : string → string.

(** [parse_jsonl(filepath)]: a file that cannot be opened gives a
    warning and no entry. *)
Definition parse_path (fs : gmap string string) (filepath : string)
  : option (list entry) :=
  match fs !! filepath with
  | Some content => parse_jsonl content
  | None => Some []
  end.

(** [analyze_session(filepath)] *)
Definition analyze_path (fs : gmap string string) (filepath : string)
  : option Report.report :=
  entries ← parse_path fs filepath; analyze_entries entries.

Definition backup_path (filepath : string) : string :=
  filepath +:+ ".backup-" +:+ now filepath.

(** [fix_session(filepath, report, dry_run, verbose)] on the file
    system.  The file is opened only when the repair is applied to a
    corrupted report: first by [shutil.copy2], which raises when there is
    no such file, then to read it and to write it. *)
Definition fix_path (fs : gmap string string) (filepath : string)
    (report : Report.report) (dry_run verbose : bool)
  : gmap string string * option summary :=
  let content := default "" (fs !! filepath) in
  let '(content', result) := fix_session content report dry_run verbose in
  if Report.corrupted report && negb dry_run then
    match fs !! filepath with
    | None => (fs, None)
    | Some _ =>
        (<[ filepath := content' ]> (<[ backup_path filepath := content ]> fs),
         result)
    end
  else (fs, result).

(** The body of [for filepath in files]; the state is the file system,
    [corrupted_count] and what was printed so far. *)
Definition main_step (do_fix verbose : bool)
    (st : gmap string string * nat * list event) (filepath : string)
  : gmap string string * nat * list event :=
  let '(fs, corrupted_count, log) := st in
  match analyze_path fs filepath with
  | None => (fs, corrupted_count, log ++ [ScanError filepath])
  | Some report =>
      if Report.corrupted report then
        let '(fs', result) :=
          fix_path fs filepath report (negb do_fix) verbose in
        (fs', S corrupted_count,
         log ++ [match result with
                 | Some s => Printed s
                 | None => FixError filepath
                 end])
      else (fs, corrupted_count, log)
  end.

(** The files that [main] scans; [inl target] is the target that is
    neither a file nor a directory. *)
Definition select_files (args : list string) : string + list string :=
  match Cli.positional args with
  | target :: _ =>
      if isdir target then inr (glob_jsonl target)
      else if isfile target then inr [target]
      else inl target
  | [] => inr (discover_session_files (Cli.all_agents args))
  end.

Definition main (args : list string) (fs : gmap string string)
  : gmap string string * list event * verdict :=
  match select_files args with
  | inl target => (fs, [], BadTarget target)
  | inr [] => (fs, [], NoFiles)
  | inr files =>
      let '(fs', corrupted_count, log) :=
        foldl (main_step (Cli.do_fix args) (Cli.verbose args)) (fs, 0, []) files in
      (fs', log,
       if corrupted_count =? 0 then AllClean
       else Counted (Cli.do_fix args) corrupted_count)
  end.

End Main.

(** ** Derived notions used to state the properties *)

(** The text holds no line end: it is read back as one line. *)
Fixpoint no_newline (s : string) : bool :=
  match s with
  | EmptyString => true
  | String c s' => negb (Ascii.eqb c LF) && negb (Ascii.eqb c CR) && no_newline s'
  end.

(** The hashed identity and parent reference of a decoded record. *)
Definition id_key (obj : json) : option hkey := get_id obj ≫= to_key.
Definition parent_key (obj : json) : option hkey := get_parent_id obj ≫= to_key.

(** Class 1, as tested by pass 1. *)
Definition is_broken_assistant (obj : json) : option bool :=
  role ← get_role obj;
  if negb (eq_str role "assistant") then Some false
  else
    is_err ← is_error_assistant obj;
    if is_err : bool then has_partial_json obj else Some false.

(** Class 2, as tested by pass 2 against the poisoned ids. *)
Definition is_orphan_result (poisoned : gset hkey) (obj : json) : option bool :=
  tr_id ← get_tool_result_id obj;
  if truthy tr_id then in_set tr_id poisoned else Some false.

(** Class 3, as tested by pass 3: the poisoned id that matched first. *)
Definition cascade_mention (poisoned : gset hkey) (obj : json)
  : option (option hkey) :=
  empty_err ← is_empty_error_assistant obj;
  if empty_err : bool then
    msg ← py_get obj "message" (JObj []);
    err ← py_get msg "errorMessage" (JStr "");
    first_mention (set_order poisoned) err
  else Some None.

(** The contribution of a record to [extract_all_tool_call_ids]. *)
Definition valid_tool_call_ids (obj : json) : option (gset hkey) :=
  role ← get_role obj;
  if negb (eq_str role "assistant") then Some ∅
  else
    msg ← py_get obj "message" (JObj []);
    stop ← py_get msg "stopReason" JNull;
    if eq_str stop "error" then Some ∅ else extract_tool_call_ids obj.

(** The line that the repair loop appends for an outcome. *)
Definition emit (o : outcome) : option string :=
  match o with
  | Dropped => None
  | Kept raw => Some raw
  | Rewritten obj' => Some (dumps obj')
  end.

(** An entry as [parse_jsonl] builds it. *)
Definition wf_entry (e : entry) : Prop :=
  decode e.2 = Some e.1.2 ∧ e.2 ≠ "" ∧ no_newline e.2 = true.

(** What the repair needs of the serializer on a record it rewrites:
    the text decodes back to the record and is one non-empty line. *)
Definition codec_ok (obj : json) : Prop :=
  loads (dumps obj) = Decoded obj ∧ dumps obj ≠ "" ∧
  no_newline (dumps obj) = true.

Definition same_message (o o' : json) : Prop :=
  ∀ dflt, py_get o' "message" dflt = py_get o "message" dflt.

(** [o] is a decoded record of [es]. *)
Definition decoded_in (es : list entry) (o : json) : Prop :=
  ∃ n raw, (n, Some o, raw) ∈ es.

(** One parent link that stays inside the removal set: [y] is the
    parent of [x] and [y] is removed. *)
Definition removed_parent (remove_ids : gset hkey) (idp : gmap hkey json)
    (x y : hkey) : Prop :=
  to_key (parent_of idp x) = Some y ∧ y ∈ remove_ids.

(** The nearest ancestor of [k] that is not removed, in the words of
    the specification: start at the parent of [k] and skip removed
    ancestors until one is found that is not in the removal set. *)
Inductive nearest_survivor (remove_ids : gset hkey) (idp : gmap hkey json)
  : hkey → json → Prop :=
| nearest_parent k a ka :
    parent_of idp k = a → to_key a = Some ka → ka ∉ remove_ids →
    nearest_survivor remove_ids idp k a
| nearest_skip k kp a :
    removed_parent remove_ids idp k kp →
    nearest_survivor remove_ids idp kp a →
    nearest_survivor remove_ids idp k a.

(** The remap of [x] ends outside the removal set. *)
Definition remap_finds_survivor (remove_ids : gset hkey)
    (idp : gmap hkey json) (x : hkey) : bool :=
  match remap remove_ids idp x with
  | Ancestor a =>
      match to_key a with
      | Some ka => bool_decide (ka ∉ remove_ids)
      | None => false
      end
  | _ => false
  end.

(** A parent reference is resolved in [es] when it is empty or the id
    of a decoded record of [es]. *)
Definition resolved_in (es : list entry) (pid : json) : Prop :=
  pid = JStr "" ∨ ∃ o, decoded_in es o ∧ get_id o = Some pid.

Definition no_dangling (es : list entry) : Prop :=
  ∀ o pid, decoded_in es o → get_parent_id o = Some pid → resolved_in es pid.

(** The poisoned identity set, read back from the report. *)
Definition poisoned_ids (d : Report.details) : gset hkey :=
  list_to_set (Report.broken_tool_call_ids d).

(** A record matches one of the three corruption classes. *)
Definition in_corruption_class (poisoned : gset hkey) (o : json) : Prop :=
  is_broken_assistant o = Some true ∨
  is_orphan_result poisoned o = Some true ∨
  ∃ tc_id, cascade_mention poisoned o = Some (Some tc_id).

(** The [message] dict of a record. *)
Definition message_of (o : json) : option (list (string * json)) :=
  match py_get o "message" (JObj []) with
  | Some (JObj m) => Some m
  | _ => None
  end.

(** A decoded line that the helpers cannot read: a value that is not an
    object, or an object whose [message] is present and is not an
    object. *)
Definition unscannable (o : json) : bool :=
  match o with
  | JObj kvs =>
      match assoc "message" kvs with
      | None | Some (JObj _) => false
      | Some _ => true
      end
  | _ => true
  end.

(** The ids that the three passes collected. *)
Definition collected (st : scan) : gset hkey :=
  broken_assistant_ids st ∪ orphan_result_ids st ∪ cascade_error_ids st.

(** The line numbers of the entries. *)
Definition line_numbers (es : list entry) : list nat := (λ e : entry, e.1.1) <$> es.

(** The keys of a record, in order. *)
Definition keys_of (o : json) : list string :=
  match o with
  | JObj kvs => kvs.*1
  | _ => []
  end.

(** The content blocks of a record: the items of [message.content] when
    it is a list. *)
Definition content_blocks (o : json) : list json :=
  match message_of o with
  | Some m =>
      match dict_get m "content" (JArr []) with
      | JArr blocks => blocks
      | _ => []
      end
  | None => []
  end.

(** [block] is a tool-call block with the id [k]: a dict whose type is
    one of [TOOL_CALL_TYPES] and whose id is not falsy. *)
Definition tool_call_block (block : json) (k : hkey) : Prop :=
  ∃ b ty, block = JObj b ∧
    to_key (dict_get b "type" JNull) = Some ty ∧ ty ∈ TOOL_CALL_TYPES ∧
    truthy (dict_get b "id" (JStr "")) = true ∧
    to_key (dict_get b "id" (JStr "")) = Some k.

(** [block] is a tool_result block of a user message for the id [k]. *)
Definition tool_result_block (block : json) (k : hkey) : Prop :=
  ∃ b, block = JObj b ∧
    dict_get b "type" JNull = JStr "tool_result" ∧
    truthy (dict_get b "tool_use_id" (JStr "")) = true ∧
    to_key (dict_get b "tool_use_id" (JStr "")) = Some k.

(** The two maps of a scan are keyed by the collected ids, and the line
    stored for an id is the line of a decoded record with that id. *)
Definition lines_known (es : list entry) (st : scan) : Prop :=
  dom (broken_line_map st) = collected st ∧
  dom (reasons st) = collected st ∧
  ∀ k n, broken_line_map st !! k = Some n →
         ∃ o raw, (n, Some o, raw) ∈ es ∧ id_key o = Some k.
(** The repair drops the entry: it is decoded and its id is removed. *)
Definition is_removed (R : gset hkey) (e : entry) : bool :=
  match e.1.2 ≫= id_key with
  | Some k => bool_decide (k ∈ R)
  | None => false
  end.

(** The repair rewrites the entry: it is decoded, it stays, and its
    parent id is a key of [fixes]. *)
Definition is_rewired (R : gset hkey) (fixes : gmap hkey json) (e : entry) : bool :=
  negb (is_removed R e) &&
  match e.1.2 ≫= parent_key with
  | Some kp => bool_decide (is_Some (fixes !! kp))
  | None => false
  end.

(** Automation that leaves the section variables alone. *)
Ltac hide_codec :=
  try clear set_order_perm; try clear dumps; try clear loads;
  try clear set_order.
Ltac nsolve := hide_codec; naive_solver.
Ltac ssolve := hide_codec; set_solver.

(** The record [o'] that the repair writes for the entry [e]: [e] is
    decoded, its id is not removed, and [o'] is the record itself or the
    record with its parent replaced from [fixes]. *)
Definition survives_as (R : gset hkey) (fixes : gmap hkey json)
    (e : entry) (o' : json) : Prop :=
  ∃ n o raw k pid kp,
    e = (n, Some o, raw) ∧ id_key o = Some k ∧ (k ∉ R) ∧
    get_parent_id o = Some pid ∧ to_key pid = Some kp ∧
    ((fixes !! kp = None ∧ o' = o) ∨
     (∃ a, fixes !! kp = Some a ∧ py_setitem o "parentId" a = Some o')).

(** What a report [d] says about the entries [es] it was computed from;
    [poisoned] is the set [broken_tool_call_ids] and [idp] the map
    [id_to_parent] of that run. *)
Definition analysis_of (es : list entry) (d : Report.details)
    (poisoned : gset hkey) (idp : gmap hkey json) : Prop :=
  (∀ k, k ∈ Report.remove_ids d ↔
        ∃ o, decoded_in es o ∧ id_key o = Some k ∧
             (is_broken_assistant o = Some true ∨
              is_orphan_result poisoned o = Some true ∨
              ∃ tc_id, cascade_mention poisoned o = Some (Some tc_id))) ∧
  (∀ t, t ∈ poisoned ↔
        ∃ o tcs, decoded_in es o ∧ is_broken_assistant o = Some true ∧
                 extract_tool_call_ids o = Some tcs ∧ t ∈ tcs) ∧
  (∀ o, decoded_in es o →
        is_Some (is_broken_assistant o) ∧
        is_Some (is_orphan_result poisoned o) ∧
        is_Some (cascade_mention poisoned o) ∧
        is_Some (valid_tool_call_ids o)) ∧
  id_to_parent_of es = Some idp ∧
  foldM (parent_fixes_step (Report.remove_ids d) idp) ∅
        (set_order (Report.remove_ids d)) = Some (Report.parent_fixes d) ∧
  py_sorted poisoned = Some (Report.broken_tool_call_ids d) ∧
  (∀ k, k ∈ Report.cascade_errors d ↔
        ∃ o tc_id, decoded_in es o ∧ id_key o = Some k ∧
                   cascade_mention poisoned o = Some (Some tc_id)) ∧
  Report.unparseable_lines d = unparseable_of es ∧
  Report.lines d = length es ∧
  Report.remove_count d = size (Report.remove_ids d) ∧
  (Report.remove_ids d ≠ ∅ ∨ unparseable_of es ≠ []).

(** The entries of the file that the repair writes from the outcomes
    [ocs] of its loop. *)
Definition repaired_entries (ocs : list outcome) : option (list entry) :=
  parse_from 1 (omap emit ocs).

(** The entries that are read from the non-empty lines [ls], the first
    of which is line [i], when they decode to [objs]. *)
Definition numbered (i : nat) (ls : list string) (objs : list (option json))
  : list entry :=
  imap (λ j p, (i + j, p.2, p.1)) (zip ls objs).

(** ** Lines of a file *)

Lemma string_ind2 (P : string → Prop) :
  P "" → (∀ c, P (String c "")) →
  (∀ c c' s, P s → P (String c' s) → P (String c (String c' s))) →
  ∀ s, P s.
Proof.
  intros H0 H1 H2 s.
  assert (H : P s ∧ ∀ c, P (String c s)); [|by destruct H].
  induction s as [|c' s [IH1 IH2]]; [by split|].
  split; [by apply IH2|]. intros c. by apply H2.
Qed.

Lemma file_lines_String c s :
  file_lines (String c s)
  = if Ascii.eqb c LF then "" :: file_lines s
    else if Ascii.eqb c CR then
      match s with
      | String c' s' =>
          if Ascii.eqb c' LF then "" :: file_lines s' else "" :: file_lines s
      | EmptyString => "" :: file_lines s
      end
    else match file_lines s with
         | l :: ls => String c l :: ls
         | [] => [String c ""]
         end.
Proof. done. Qed.

Lemma file_lines_cons s : ∃ l ls, file_lines s = l :: ls.
Proof.
  destruct s as [|c s]; simpl; [by eauto|].
  destruct (Ascii.eqb c LF); [by eauto|].
  destruct (Ascii.eqb c CR).
  - destruct s as [|c' s]; [by eauto|]. destruct (Ascii.eqb c' LF); by eauto.
  - destruct (file_lines s); by eauto.
Qed.

Lemma file_lines_no_newline s : Forall (λ l, no_newline l = true) (file_lines s).
Proof.
  induction s as [|c|c c' s IH1 IH2] using string_ind2.
  - by repeat constructor.
  - simpl. destruct (Ascii.eqb c LF) eqn:Hc; [by repeat constructor|].
    destruct (Ascii.eqb c CR) eqn:Hc'; [by repeat constructor|].
    repeat constructor. simpl. by rewrite Hc, Hc'.
  - rewrite file_lines_String. destruct (Ascii.eqb c LF) eqn:Hc; [by constructor|].
    destruct (Ascii.eqb c CR) eqn:Hc'.
    { destruct (Ascii.eqb c' LF); by constructor. }
    destruct (file_lines (String c' s)) as [|l ls];
      [by repeat constructor; simpl; rewrite Hc, Hc'|].
    inversion IH2; subst. constructor; [|done]. simpl. by rewrite Hc, Hc'.
Qed.

Lemma append_nil_l (s : string) : "" +:+ s = s.
Proof. reflexivity. Qed.

Lemma append_cons c (a b : string) : String c a +:+ b = String c (a +:+ b).
Proof. reflexivity. Qed.

Lemma no_newline_cons c l :
  no_newline (String c l) = true →
  Ascii.eqb c LF = false ∧ Ascii.eqb c CR = false ∧ no_newline l = true.
Proof.
  simpl. intros [[Hc Hc']%andb_true_iff Hl]%andb_true_iff.
  by apply negb_true_iff in Hc, Hc'.
Qed.

(** A line is read up to its line end, whichever of the three it is. *)
Lemma file_lines_app_lf l s :
  no_newline l = true → file_lines (l +:+ String LF s) = l :: file_lines s.
Proof.
  induction l as [|c l IH]; intros Hl.
  - by rewrite append_nil_l.
  - apply no_newline_cons in Hl as (Hc & Hc' & Hl).
    rewrite append_cons, file_lines_String, Hc, Hc'. by rewrite IH.
Qed.

Lemma file_lines_app_crlf l s :
  no_newline l = true →
  file_lines (l +:+ String CR (String LF s)) = l :: file_lines s.
Proof.
  induction l as [|c l IH]; intros Hl.
  - by rewrite append_nil_l.
  - apply no_newline_cons in Hl as (Hc & Hc' & Hl).
    rewrite append_cons, file_lines_String, Hc, Hc'. by rewrite IH.
Qed.

Lemma file_lines_app_cr l s :
  no_newline l = true → String.prefix (String LF "") s = false →
  file_lines (l +:+ String CR s) = l :: file_lines s.
Proof.
  induction l as [|c l IH]; intros Hl Hs.
  - rewrite append_nil_l, file_lines_String.
    change (Ascii.eqb CR LF) with false. change (Ascii.eqb CR CR) with true.
    destruct s as [|c' s]; [done|]. simpl in Hs.
    destruct (Ascii.eqb_spec c' LF) as [->|Hne]; [|done].
    exfalso. change (Ascii.compare LF LF) with Eq in Hs. by destruct s.
  - apply no_newline_cons in Hl as (Hc & Hc' & Hl).
    rewrite append_cons, file_lines_String, Hc, Hc'. by rewrite IH.
Qed.

Lemma parse_from_cons i l ls :
  parse_from i (l :: ls)
  = if String.eqb l "" then parse_from (S i) ls
    else obj ← decode l; es ← parse_from (S i) ls; Some ((i, obj, l) :: es).
Proof. done. Qed.

Lemma parse_from_cons_inv i l ls es :
  parse_from i (l :: ls) = Some es →
  (l = "" ∧ parse_from (S i) ls = Some es) ∨
  (l ≠ "" ∧ ∃ obj es', decode l = Some obj ∧ parse_from (S i) ls = Some es' ∧
                       es = (i, obj, l) :: es').
Proof.
  rewrite parse_from_cons. destruct (String.eqb_spec l "") as [->|Hne]; [by left|].
  destruct (decode l) as [obj|]; simpl; [|done].
  destruct (parse_from (S i) ls) as [es'|]; simpl; [|done].
  intros [= <-]. right. by eauto 6.
Qed.

Lemma parse_from_nil_line i ls : parse_from i (ls ++ [""]) = parse_from i ls.
Proof.
  revert i. induction ls as [|l ls IH]; intros i; [done|].
  rewrite <- app_comm_cons, !parse_from_cons.
  destruct (String.eqb l ""); by rewrite IH.
Qed.

Lemma append_String_assoc (a : string) c b d :
  (a +:+ String c b) +:+ d = a +:+ String c (b +:+ d).
Proof.
  induction a as [|x a IH]; [done|].
  by rewrite !append_cons, IH.
Qed.

Lemma file_lines_join out :
  Forall (λ l, no_newline l = true) out → out ≠ [] →
  file_lines (join_lines out +:+ String LF "") = out ++ [""].
Proof.
  induction out as [|l out IH]; intros Hout Hne; [done|].
  inversion Hout as [|? ? Hl Hrest]; subst.
  destruct out as [|l2 out].
  - simpl join_lines. by rewrite file_lines_app_lf.
  - change (join_lines (l :: l2 :: out))
      with (l +:+ String LF (join_lines (l2 :: out))).
    rewrite append_String_assoc, file_lines_app_lf by done.
    by rewrite IH.
Qed.

Lemma parse_jsonl_join out :
  Forall (λ l, no_newline l = true) out →
  utf8_valid (join_lines out +:+ String LF "") = true →
  parse_jsonl (join_lines out +:+ String LF "") = parse_from 1 out.
Proof.
  intros Hout Hvalid. unfold parse_jsonl. rewrite Hvalid.
  destruct out as [|l out]; [done|].
  rewrite file_lines_join by done. apply parse_from_nil_line.
Qed.

Lemma parse_from_wf i ls : ∀ es,
  parse_from i ls = Some es →
  Forall (λ l, no_newline l = true) ls → Forall wf_entry es.
Proof.
  revert i. induction ls as [|l ls IH]; intros i es; [by intros [= <-]|].
  intros Hp Hls. inversion Hls; subst.
  apply parse_from_cons_inv in Hp
    as [[-> Hp]|(Hne & obj & es' & Hd & Hp & ->)]; [by eapply IH|].
  constructor; [done|by eapply IH].
Qed.

Lemma parse_jsonl_Some file es :
  parse_jsonl file = Some es →
  utf8_valid file = true ∧ parse_from 1 (file_lines file) = Some es.
Proof. unfold parse_jsonl. by destruct (utf8_valid file). Qed.

Lemma parse_jsonl_wf file es : parse_jsonl file = Some es → Forall wf_entry es.
Proof.
  intros [_ Hp]%parse_jsonl_Some.
  eapply parse_from_wf; [done|apply file_lines_no_newline].
Qed.

Lemma parse_from_line i ls : ∀ es n obj raw,
  parse_from i ls = Some es →
  (n, obj, raw) ∈ es → i ≤ n ∧ ls !! (n - i) = Some raw.
Proof.
  revert i. induction ls as [|l ls IH]; intros i es n obj raw.
  { intros [= <-]. by intros ?%elem_of_nil. }
  assert (Hrec : ∀ es', parse_from (S i) ls = Some es' → (n, obj, raw) ∈ es' →
                        i ≤ n ∧ (l :: ls) !! (n - i) = Some raw).
  { intros es' Hp [Hle Hl]%(IH _ _ _ _ _ Hp). split; [lia|].
    replace (n - i) with (S (n - S i)) by lia. done. }
  intros [[-> Hp]|(Hne & obj' & es' & Hd & Hp & ->)]%parse_from_cons_inv;
    [by eauto|].
  intros [Heq|Hin]%elem_of_cons; [|by eauto].
  injection Heq as -> -> ->. split; [done|]. by rewrite Nat.sub_diag.
Qed.

(** ** Loops that may raise *)

Lemma foldM_app {S A} (step : S → A → option S) st l1 l2 :
  foldM step st (l1 ++ l2) = foldM step st l1 ≫= λ st', foldM step st' l2.
Proof.
  revert st. induction l1 as [|x l1 IH]; intros st; simpl; [done|].
  destruct (step st x); simpl; [apply IH|done].
Qed.

Lemma foldM_cons_Some {S A} (step : S → A → option S) st x l st' :
  foldM step st (x :: l) = Some st' ↔
  ∃ st1, step st x = Some st1 ∧ foldM step st1 l = Some st'.
Proof.
  simpl. destruct (step st x) as [st1|]; simpl; [|nsolve].
  split; [by eauto|]. intros (st2 & Heq & Hrest). by simplify_eq.
Qed.

(** A loop whose body leaves the state alone on every item. *)
Lemma foldM_id {S A} (step : S → A → option S) st l :
  (∀ x, x ∈ l → step st x = Some st) → foldM step st l = Some st.
Proof.
  induction l as [|x l IH]; intros Hl; simpl; [done|].
  rewrite Hl by apply list_elem_of_here. simpl.
  apply IH. intros y Hy. apply Hl. by apply list_elem_of_further.
Qed.

(** ** Dicts *)

Lemma assoc_dict_set_eq kvs k v : assoc k (dict_set kvs k v) = Some v.
Proof.
  induction kvs as [|[k' v'] kvs IH]; simpl.
  - by rewrite String.eqb_refl.
  - destruct (String.eqb k' k) eqn:Hk; simpl; by rewrite Hk.
Qed.

Lemma assoc_dict_set_ne kvs k k' v :
  k ≠ k' → assoc k' (dict_set kvs k v) = assoc k' kvs.
Proof.
  intros Hne. induction kvs as [|[k0 v0] kvs IH]; simpl.
  - by apply String.eqb_neq in Hne as ->.
  - destruct (String.eqb_spec k0 k) as [->|]; simpl.
    + by apply String.eqb_neq in Hne as ->.
    + by rewrite IH.
Qed.

Lemma py_get_setitem_eq o o' k v dflt :
  py_setitem o k v = Some o' → py_get o' k dflt = Some v.
Proof.
  destruct o; simpl; intros [= <-]. simpl. unfold dict_get.
  by rewrite assoc_dict_set_eq.
Qed.

Lemma py_get_setitem_ne o o' k k' v dflt :
  py_setitem o k v = Some o' → k ≠ k' → py_get o' k' dflt = py_get o k' dflt.
Proof.
  destruct o; simpl; intros [= <-] Hne. simpl. unfold dict_get.
  by rewrite assoc_dict_set_ne.
Qed.

Lemma py_setitem_is_Some o k v : is_Some (get_id o) → is_Some (py_setitem o k v).
Proof. destruct o; simpl; by intros [? ?]; eauto. Qed.

(** ** Records with the same message are classified alike *)

Lemma same_message_refl o : same_message o o.
Proof. by intros ?. Qed.

Lemma same_message_setitem o o' v :
  py_setitem o "parentId" v = Some o' → same_message o o'.
Proof. intros Hset dflt. by apply (py_get_setitem_ne _ _ _ _ _ _ Hset). Qed.

Lemma id_key_setitem o o' v :
  py_setitem o "parentId" v = Some o' → id_key o' = id_key o.
Proof.
  intros Hset. unfold id_key, get_id.
  by rewrite (py_get_setitem_ne _ _ _ _ _ _ Hset).
Qed.

Lemma get_parent_id_setitem o o' v :
  py_setitem o "parentId" v = Some o' → get_parent_id o' = Some v.
Proof. apply py_get_setitem_eq. Qed.

Section SameMessage.
Context (o o' : json) (Hm : same_message o o').

Lemma same_message_role : get_role o' = get_role o.
Proof using Type Hm. unfold get_role. by rewrite Hm. Qed.

Lemma same_message_error : is_error_assistant o' = is_error_assistant o.
Proof using Type Hm. unfold is_error_assistant. by rewrite Hm. Qed.

Lemma same_message_partial : has_partial_json o' = has_partial_json o.
Proof using Type Hm. unfold has_partial_json. by rewrite Hm. Qed.

Lemma same_message_tool_calls :
  extract_tool_call_ids o' = extract_tool_call_ids o.
Proof using Type Hm. unfold extract_tool_call_ids. by rewrite Hm. Qed.

Lemma same_message_broken : is_broken_assistant o' = is_broken_assistant o.
Proof using Type Hm.
  unfold is_broken_assistant.
  by rewrite same_message_role, same_message_error, same_message_partial.
Qed.

Lemma same_message_orphan s : is_orphan_result s o' = is_orphan_result s o.
Proof using Type Hm. unfold is_orphan_result, get_tool_result_id. by rewrite Hm. Qed.

Lemma same_message_cascade s : cascade_mention s o' = cascade_mention s o.
Proof using Type Hm.
  unfold cascade_mention, is_empty_error_assistant. by rewrite !Hm.
Qed.

Lemma same_message_valid : valid_tool_call_ids o' = valid_tool_call_ids o.
Proof using Type Hm.
  unfold valid_tool_call_ids.
  by rewrite same_message_role, same_message_tool_calls, Hm.
Qed.
End SameMessage.

(** ** The detection passes *)

Lemma pass1_step_inv st n o raw st' :
  pass1_step st (n, Some o, raw) = Some st' →
  (is_broken_assistant o = Some false ∧ st' = st) ∨
  (is_broken_assistant o = Some true ∧
   ∃ k tcs err,
     id_key o = Some k ∧ extract_tool_call_ids o = Some tcs ∧
     st' = Scan (broken_assistant_ids st ∪ {[ k ]})
                (broken_tool_call_ids st ∪ tcs)
                (<[ k := n ]> (broken_line_map st))
                (<[ k := ErrorPartialJson err ]> (reasons st))
                (orphan_result_ids st) (cascade_error_ids st)).
Proof.
  unfold pass1_step, is_broken_assistant, id_key.
  destruct (get_role o) as [role|]; simpl; [|done].
  destruct (negb (eq_str role "assistant")); [by left; simplify_eq|].
  destruct (is_error_assistant o) as [[]|]; simpl; [| by left; simplify_eq |done].
  destruct (has_partial_json o) as [[]|]; simpl; [| by left; simplify_eq |done].
  intros Hst. right. split; [done|].
  destruct (get_id o) as [oid|]; simpl in *; [|done].
  destruct (to_key oid) as [k|]; simpl in *; [|done].
  destruct (extract_tool_call_ids o) as [tcs|]; simpl in *; [|done].
  destruct (py_get o "message" (JObj [])) as [msg|]; simpl in *; [|done].
  destruct (py_get msg "errorMessage" (JStr "")) as [errv|]; simpl in *; [|done].
  destruct (slice80 errv) as [err|]; simpl in *; [|done].
  simplify_eq. by eauto 8.
Qed.

Lemma pass1_step_clean st n o raw :
  is_broken_assistant o = Some false → pass1_step st (n, Some o, raw) = Some st.
Proof.
  unfold pass1_step, is_broken_assistant.
  destruct (get_role o) as [role|]; simpl; [|done].
  destruct (negb (eq_str role "assistant")); [done|].
  destruct (is_error_assistant o) as [[]|]; simpl; [| done |done].
  by intros ->.
Qed.

Lemma pass2_step_inv st n o raw st' :
  pass2_step st (n, Some o, raw) = Some st' →
  (is_orphan_result (broken_tool_call_ids st) o = Some false ∧ st' = st) ∨
  (is_orphan_result (broken_tool_call_ids st) o = Some true ∧
   ∃ k tr_id,
     id_key o = Some k ∧
     st' = Scan (broken_assistant_ids st) (broken_tool_call_ids st)
                (<[ k := n ]> (broken_line_map st))
                (<[ k := OrphanToolResult tr_id ]> (reasons st))
                (orphan_result_ids st ∪ {[ k ]}) (cascade_error_ids st)).
Proof.
  unfold pass2_step, is_orphan_result, id_key.
  destruct (get_tool_result_id o) as [tr_id|]; simpl; [|done].
  destruct (if truthy tr_id then in_set tr_id (broken_tool_call_ids st)
            else Some false) as [[]|]; simpl; [| by left; simplify_eq |done].
  intros Hst. right. split; [done|].
  destruct (get_id o) as [oid|]; simpl in *; [|done].
  destruct (to_key oid) as [k|]; simpl in *; [|done].
  simplify_eq. by eauto.
Qed.

Lemma pass2_step_clean st n o raw :
  is_orphan_result (broken_tool_call_ids st) o = Some false →
  pass2_step st (n, Some o, raw) = Some st.
Proof.
  unfold pass2_step, is_orphan_result.
  destruct (get_tool_result_id o) as [tr_id|]; simpl; [|done].
  by intros ->.
Qed.

Lemma pass3_step_inv st n o raw st' :
  pass3_step st (n, Some o, raw) = Some st' →
  (cascade_mention (broken_tool_call_ids st) o = Some None ∧ st' = st) ∨
  (∃ tc_id k,
     cascade_mention (broken_tool_call_ids st) o = Some (Some tc_id) ∧
     id_key o = Some k ∧
     st' = Scan (broken_assistant_ids st) (broken_tool_call_ids st)
                (<[ k := n ]> (broken_line_map st))
                (<[ k := Cascade400 tc_id ]> (reasons st))
                (orphan_result_ids st) (cascade_error_ids st ∪ {[ k ]})).
Proof.
  unfold pass3_step, cascade_mention, id_key.
  destruct (is_empty_error_assistant o) as [[]|]; simpl;
    [| by left; simplify_eq |done].
  destruct (py_get o "message" (JObj [])) as [msg|]; simpl; [|done].
  destruct (py_get msg "errorMessage" (JStr "")) as [err|]; simpl; [|done].
  destruct (first_mention (set_order (broken_tool_call_ids st)) err)
    as [[tc_id|]|]; simpl; [| by left; simplify_eq |done].
  intros Hst. right. exists tc_id.
  destruct (get_id o) as [oid|]; simpl in *; [|done].
  destruct (to_key oid) as [k|]; simpl in *; [|done].
  simplify_eq. by eauto.
Qed.

Lemma pass3_step_clean st n o raw :
  cascade_mention (broken_tool_call_ids st) o = Some None →
  pass3_step st (n, Some o, raw) = Some st.
Proof.
  unfold pass3_step, cascade_mention.
  destruct (is_empty_error_assistant o) as [[]|]; simpl; [| done |done].
  destruct (py_get o "message" (JObj [])) as [msg|]; simpl; [|done].
  destruct (py_get msg "errorMessage" (JStr "")) as [err|]; simpl; [|done].
  by intros ->.
Qed.

Lemma extract_all_step_eq ids n o raw :
  extract_all_step ids (n, Some o, raw) =
  valid_tool_call_ids o ≫= λ more, Some (ids ∪ more).
Proof.
  unfold extract_all_step, valid_tool_call_ids.
  destruct (get_role o) as [role|]; simpl; [|done].
  destruct (negb (eq_str role "assistant")); simpl.
  { f_equal. ssolve. }
  destruct (py_get o "message" (JObj [])) as [msg|]; simpl; [|done].
  destruct (py_get msg "stopReason" JNull) as [stop|]; simpl; [|done].
  destruct (eq_str stop "error"); simpl; [|done].
  f_equal. ssolve.
Qed.

Lemma decoded_in_nil o : ¬ decoded_in [] o.
Proof. intros (n & raw & Hin). by apply elem_of_nil in Hin. Qed.

Lemma decoded_in_cons n obj raw es o :
  decoded_in ((n, obj, raw) :: es) o ↔ obj = Some o ∨ decoded_in es o.
Proof.
  unfold decoded_in. split.
  - intros (n' & raw' & [Heq|Hin]%elem_of_cons); [left; congruence|right; eauto].
  - intros [->|(n' & raw' & Hin)].
    + exists n, raw. apply list_elem_of_here.
    + exists n', raw'. by apply list_elem_of_further.
Qed.

Lemma pass1_fold es : ∀ st st',
  foldM pass1_step st es = Some st' →
  orphan_result_ids st' = orphan_result_ids st ∧
  cascade_error_ids st' = cascade_error_ids st ∧
  (∀ k, k ∈ broken_assistant_ids st' ↔
        k ∈ broken_assistant_ids st ∨
        ∃ o, decoded_in es o ∧ is_broken_assistant o = Some true ∧
             id_key o = Some k) ∧
  (∀ t, t ∈ broken_tool_call_ids st' ↔
        t ∈ broken_tool_call_ids st ∨
        ∃ o tcs, decoded_in es o ∧ is_broken_assistant o = Some true ∧
                 extract_tool_call_ids o = Some tcs ∧ t ∈ tcs) ∧
  (∀ o, decoded_in es o → is_Some (is_broken_assistant o)).
Proof.
  induction es as [|[[n obj] raw] es IH]; intros st st'.
  { intros [= <-]. split_and!; try done.
    - intros k. split; [by auto|]. intros [?|(o & []%decoded_in_nil & _)]; done.
    - intros k. split; [by auto|]. intros [?|(o & ? & []%decoded_in_nil & _)]; done.
    - by intros o []%decoded_in_nil. }
  intros (st1 & Hstep & Hrest)%foldM_cons_Some.
  destruct (IH _ _ Hrest) as (Hor & Hce & Hba & Hbt & Hok). clear IH Hrest.
  destruct obj as [o|].
  2:{ simpl in Hstep. simplify_eq. split_and!; try done.
      - intros k. rewrite Hba. by setoid_rewrite decoded_in_cons; nsolve.
      - intros t. rewrite Hbt. by setoid_rewrite decoded_in_cons; nsolve.
      - intros o. rewrite decoded_in_cons. nsolve. }
  apply pass1_step_inv in Hstep
    as [[Hb ->]|(Hb & k0 & tcs0 & err & Hk0 & Htcs0 & ->)].
  - split_and!; try done.
    + intros k. rewrite Hba. setoid_rewrite decoded_in_cons. nsolve.
    + intros t. rewrite Hbt. setoid_rewrite decoded_in_cons. nsolve.
    + intros o'. rewrite decoded_in_cons. nsolve.
  - simpl in *. split_and!; try done.
    + intros k. rewrite Hba, elem_of_union, elem_of_singleton.
      setoid_rewrite decoded_in_cons. nsolve.
    + intros t. rewrite Hbt, elem_of_union.
      setoid_rewrite decoded_in_cons. nsolve.
    + intros o'. rewrite decoded_in_cons. nsolve.
Qed.

Lemma pass2_fold es : ∀ st st',
  foldM pass2_step st es = Some st' →
  broken_assistant_ids st' = broken_assistant_ids st ∧
  broken_tool_call_ids st' = broken_tool_call_ids st ∧
  cascade_error_ids st' = cascade_error_ids st ∧
  (∀ k, k ∈ orphan_result_ids st' ↔
        k ∈ orphan_result_ids st ∨
        ∃ o, decoded_in es o ∧
             is_orphan_result (broken_tool_call_ids st) o = Some true ∧
             id_key o = Some k) ∧
  (∀ o, decoded_in es o →
        is_Some (is_orphan_result (broken_tool_call_ids st) o)).
Proof.
  induction es as [|[[n obj] raw] es IH]; intros st st'.
  { intros [= <-]. split_and!; try done.
    - intros k. split; [by auto|]. intros [?|(o & []%decoded_in_nil & _)]; done.
    - by intros o []%decoded_in_nil. }
  intros (st1 & Hstep & Hrest)%foldM_cons_Some.
  destruct (IH _ _ Hrest) as (Hba & Hbt & Hce & Hor & Hok). clear IH Hrest.
  destruct obj as [o|].
  2:{ simpl in Hstep. simplify_eq. split_and!; try done.
      - intros k. rewrite Hor. by setoid_rewrite decoded_in_cons; nsolve.
      - intros o. rewrite decoded_in_cons. nsolve. }
  apply pass2_step_inv in Hstep as [[Hb ->]|(Hb & k0 & tr & Hk0 & ->)].
  - split_and!; try done.
    + intros k. rewrite Hor. setoid_rewrite decoded_in_cons. nsolve.
    + intros o'. rewrite decoded_in_cons. nsolve.
  - simpl in *. split_and!; try done.
    + intros k. rewrite Hor, elem_of_union, elem_of_singleton.
      setoid_rewrite decoded_in_cons. nsolve.
    + intros o'. rewrite decoded_in_cons. nsolve.
Qed.

Lemma pass3_fold es : ∀ st st',
  foldM pass3_step st es = Some st' →
  broken_assistant_ids st' = broken_assistant_ids st ∧
  broken_tool_call_ids st' = broken_tool_call_ids st ∧
  orphan_result_ids st' = orphan_result_ids st ∧
  (∀ k, k ∈ cascade_error_ids st' ↔
        k ∈ cascade_error_ids st ∨
        ∃ o tc_id, decoded_in es o ∧
             cascade_mention (broken_tool_call_ids st) o = Some (Some tc_id) ∧
             id_key o = Some k) ∧
  (∀ o, decoded_in es o →
        is_Some (cascade_mention (broken_tool_call_ids st) o)).
Proof.
  induction es as [|[[n obj] raw] es IH]; intros st st'.
  { intros [= <-]. split_and!; try done.
    - intros k. split; [by auto|].
      intros [?|(o & ? & []%decoded_in_nil & _)]; done.
    - by intros o []%decoded_in_nil. }
  intros (st1 & Hstep & Hrest)%foldM_cons_Some.
  destruct (IH _ _ Hrest) as (Hba & Hbt & Hor & Hce & Hok). clear IH Hrest.
  destruct obj as [o|].
  2:{ simpl in Hstep. simplify_eq. split_and!; try done.
      - intros k. rewrite Hce. by setoid_rewrite decoded_in_cons; nsolve.
      - intros o. rewrite decoded_in_cons. nsolve. }
  apply pass3_step_inv in Hstep as [[Hb ->]|(tc & k0 & Hb & Hk0 & ->)].
  - split_and!; try done.
    + intros k. rewrite Hce. setoid_rewrite decoded_in_cons. nsolve.
    + intros o'. rewrite decoded_in_cons. nsolve.
  - simpl in *. split_and!; try done.
    + intros k. rewrite Hce, elem_of_union, elem_of_singleton.
      setoid_rewrite decoded_in_cons. nsolve.
    + intros o'. rewrite decoded_in_cons. nsolve.
Qed.

Lemma extract_all_fold es : ∀ ids ids',
  foldM extract_all_step ids es = Some ids' →
  ∀ o, decoded_in es o → is_Some (valid_tool_call_ids o).
Proof.
  induction es as [|[[n obj] raw] es IH]; intros ids ids'.
  { by intros _ o []%decoded_in_nil. }
  intros (ids1 & Hstep & Hrest)%foldM_cons_Some o.
  rewrite decoded_in_cons. intros [->|Hin]; [|by eapply IH].
  rewrite extract_all_step_eq in Hstep.
  destruct (valid_tool_call_ids o); [by eauto|done].
Qed.

Lemma extract_all_ok es : ∀ ids,
  (∀ o, decoded_in es o → is_Some (valid_tool_call_ids o)) →
  is_Some (foldM extract_all_step ids es).
Proof.
  induction es as [|[[n obj] raw] es IH]; intros ids Hok; simpl; [by eauto|].
  assert (Hrest : ∀ o, decoded_in es o → is_Some (valid_tool_call_ids o)).
  { intros o Ho. apply Hok. rewrite decoded_in_cons. by right. }
  destruct obj as [o|]; [|by apply IH].
  destruct (Hok o) as [more Hmore]; [rewrite decoded_in_cons; by left|].
  change (is_Some (extract_all_step ids (n, Some o, raw) ≫=
                   λ st', foldM extract_all_step st' es)).
  rewrite extract_all_step_eq, Hmore. simpl. by apply IH.
Qed.

(** A pass over records of which none is in its class changes nothing. *)
Lemma pass1_clean es st :
  (∀ o, decoded_in es o → is_broken_assistant o = Some false) →
  foldM pass1_step st es = Some st.
Proof.
  intros Hok. apply foldM_id. intros [[n [o|]] raw] Hin; [|done].
  apply pass1_step_clean, Hok. by exists n, raw.
Qed.

Lemma pass2_clean es st :
  (∀ o, decoded_in es o →
        is_orphan_result (broken_tool_call_ids st) o = Some false) →
  foldM pass2_step st es = Some st.
Proof.
  intros Hok. apply foldM_id. intros [[n [o|]] raw] Hin; [|done].
  apply pass2_step_clean, Hok. by exists n, raw.
Qed.

Lemma pass3_clean es st :
  (∀ o, decoded_in es o →
        cascade_mention (broken_tool_call_ids st) o = Some None) →
  foldM pass3_step st es = Some st.
Proof.
  intros Hok. apply foldM_id. intros [[n [o|]] raw] Hin; [|done].
  apply pass3_step_clean, Hok. by exists n, raw.
Qed.

Lemma py_sorted_set s l : py_sorted s = Some l → list_to_set l = s.
Proof.
  unfold py_sorted. destruct (_ || _); [|done]. intros [= <-].
  apply set_eq. intros x.
  by rewrite elem_of_list_to_set, merge_sort_Permutation, elem_of_elements.
Qed.

(** ** The report of a corrupted session *)

(** The three detection passes, run one after the other. *)
Lemma passes_spec es st1 st2 st3 :
  foldM pass1_step scan0 es = Some st1 →
  foldM pass2_step st1 es = Some st2 →
  foldM pass3_step st2 es = Some st3 →
  let poisoned := broken_tool_call_ids st3 in
  (∀ k, k ∈ broken_assistant_ids st3 ∪ orphan_result_ids st3
            ∪ cascade_error_ids st3 ↔
        ∃ o, decoded_in es o ∧ id_key o = Some k ∧
             (is_broken_assistant o = Some true ∨
              is_orphan_result poisoned o = Some true ∨
              ∃ tc_id, cascade_mention poisoned o = Some (Some tc_id))) ∧
  (∀ t, t ∈ poisoned ↔
        ∃ o tcs, decoded_in es o ∧ is_broken_assistant o = Some true ∧
                 extract_tool_call_ids o = Some tcs ∧ t ∈ tcs) ∧
  (∀ o, decoded_in es o →
        is_Some (is_broken_assistant o) ∧
        is_Some (is_orphan_result poisoned o) ∧
        is_Some (cascade_mention poisoned o)) ∧
  (∀ k, k ∈ cascade_error_ids st3 ↔
        ∃ o tc_id, decoded_in es o ∧ id_key o = Some k ∧
                   cascade_mention poisoned o = Some (Some tc_id)).
Proof.
  intros H1 H2 H3 poisoned.
  apply pass1_fold in H1 as (Hor1 & Hce1 & Hba1 & Hbt1 & Hok1).
  apply pass2_fold in H2 as (Hba2 & Hbt2 & Hce2 & Hor2 & Hok2).
  apply pass3_fold in H3 as (Hba3 & Hbt3 & Hor3 & Hce3 & Hok3).
  assert (Hp2 : broken_tool_call_ids st2 = poisoned)
    by (unfold poisoned; congruence).
  assert (Hp1 : broken_tool_call_ids st1 = poisoned) by congruence.
  rewrite Hp2 in *. rewrite Hp1 in *.
  split_and!.
  - intros k. rewrite !elem_of_union, Hba3, Hor3, Hce3, Hba2, Hce2, Hce1.
    rewrite Hba1, Hor2, Hor1. simpl. rewrite !elem_of_empty. nsolve.
  - intros t. rewrite Hbt1. simpl. rewrite elem_of_empty. nsolve.
  - intros o Ho. split_and!; auto.
  - intros k. rewrite Hce3, Hce2, Hce1. simpl. rewrite elem_of_empty.
    nsolve.
Qed.

Lemma analyze_entries_Corrupted es d :
  analyze_entries es = Some (Report.Corrupted d) →
  ∃ poisoned idp, analysis_of es d poisoned idp.
Proof.
  unfold analyze_entries. destruct es as [|e es]; [intros; discriminate|].
  remember (e :: es) as es' eqn:Hes'. clear Hes' e es.
  destruct (foldM pass1_step scan0 es') as [st1|] eqn:H1; simpl; [|by intros [=]].
  destruct (foldM pass2_step st1 es') as [st2|] eqn:H2; simpl; [|by intros [=]].
  destruct (foldM pass3_step st2 es') as [st3|] eqn:H3; simpl; [|by intros [=]].
  destruct (extract_all_tool_call_ids es') as [valid|] eqn:H4; simpl; [|by intros [=]].
  set (remove := broken_assistant_ids st3 ∪ orphan_result_ids st3
                 ∪ cascade_error_ids st3).
  destruct (bool_decide (remove = ∅) && bool_decide (unparseable_of es' = []))
    eqn:Hclean; [by intros [=]|].
  destruct (id_to_parent_of es') as [idp|] eqn:H5; simpl; [|by intros [=]].
  destruct (foldM (parent_fixes_step remove idp) ∅ (set_order remove))
    as [fixes|] eqn:H6; simpl; [|by intros [=]].
  destruct (py_sorted (broken_assistant_ids st3)) as [ba|]; simpl; [|by intros [=]].
  destruct (py_sorted (orphan_result_ids st3)) as [ors|]; simpl; [|by intros [=]].
  destruct (py_sorted (cascade_error_ids st3)) as [ce|] eqn:H8; simpl;
    [|by intros [=]].
  destruct (py_sorted (broken_tool_call_ids st3)) as [btc|] eqn:H7; simpl; [|by intros [=]].
  intros [= <-]. exists (broken_tool_call_ids st3), idp.
  destruct (passes_spec _ _ _ _ H1 H2 H3) as (Hrm & Hpo & Hok & Hce).
  unfold analysis_of; simpl. split_and!; try done.
  - intros o Ho. destruct (Hok o Ho) as (? & ? & ?). split_and!; try done.
    by eapply extract_all_fold.
  - intros k. rewrite <- Hce. apply py_sorted_set in H8. rewrite <- H8.
    by rewrite elem_of_list_to_set.
  - apply andb_false_iff in Hclean as [Hc|Hc]; apply bool_decide_eq_false in Hc;
      by auto.
Qed.

Lemma analyze_entries_Clean es n :
  analyze_entries es = Some (Report.Clean n) → n = length es.
Proof.
  unfold analyze_entries. destruct es as [|e es]; [by intros [= <-]|].
  remember (e :: es) as es' eqn:Hes'. clear Hes' e es.
  destruct (foldM pass1_step scan0 es') as [st1|]; simpl; [|by intros [=]].
  destruct (foldM pass2_step st1 es') as [st2|]; simpl; [|by intros [=]].
  destruct (foldM pass3_step st2 es') as [st3|]; simpl; [|by intros [=]].
  destruct (extract_all_tool_call_ids es') as [valid|]; simpl; [|by intros [=]].
  destruct (_ && _); [by intros [= <-]|].
  destruct (id_to_parent_of es') as [idp|]; simpl; [|by intros [=]].
  destruct (foldM _ ∅ (set_order _)) as [fixes|]; simpl; [|by intros [=]].
  destruct (py_sorted (broken_assistant_ids st3)); simpl; [|by intros [=]].
  destruct (py_sorted (orphan_result_ids st3)); simpl; [|by intros [=]].
  destruct (py_sorted (cascade_error_ids st3)); simpl; [|by intros [=]].
  destruct (py_sorted (broken_tool_call_ids st3)); simpl; by intros [=].
Qed.

(** ** The parent map *)

Lemma id_to_parent_step_inv m n o raw m' :
  id_to_parent_step m (n, Some o, raw) = Some m' →
  ∃ k p, id_key o = Some k ∧ get_parent_id o = Some p ∧ m' = <[ k := p ]> m.
Proof.
  unfold id_to_parent_step, id_key.
  destruct (get_id o) as [oid|]; simpl; [|done].
  destruct (to_key oid) as [k|]; simpl; [|done].
  destruct (get_parent_id o) as [p|]; simpl; [|done].
  intros [= <-]. by eauto.
Qed.

Lemma id_to_parent_fold es : ∀ m m',
  foldM id_to_parent_step m es = Some m' →
  (∀ k, is_Some (m !! k) → is_Some (m' !! k)) ∧
  (∀ o, decoded_in es o →
        ∃ k p, id_key o = Some k ∧ get_parent_id o = Some p ∧ is_Some (m' !! k)) ∧
  (∀ k p, m' !! k = Some p →
          m !! k = Some p ∨
          ∃ o, decoded_in es o ∧ id_key o = Some k ∧ get_parent_id o = Some p).
Proof.
  induction es as [|[[n obj] raw] es IH]; intros m m'.
  { intros [= <-]. split_and!; [done| |by auto]. by intros o []%decoded_in_nil. }
  intros (m1 & Hstep & Hrest)%foldM_cons_Some.
  destruct (IH _ _ Hrest) as (Hdom & Hdec & Hval). clear IH Hrest.
  destruct obj as [o|].
  2:{ simpl in Hstep. simplify_eq. split_and!; [done| |].
      - intros o. rewrite decoded_in_cons. nsolve.
      - intros k p Hk. destruct (Hval k p Hk) as [?|(o & ? & ?)]; [by left|].
        right. exists o. rewrite decoded_in_cons. nsolve. }
  apply id_to_parent_step_inv in Hstep as (k0 & p0 & Hk0 & Hp0 & ->).
  split_and!.
  - intros k Hk. apply Hdom. rewrite lookup_insert.
    case_decide; [by eauto|done].
  - intros o'. rewrite decoded_in_cons. intros [[= <-]|Ho']; [|by auto].
    exists k0, p0. split_and!; try done. apply Hdom.
    rewrite lookup_insert_eq. by eauto.
  - intros k p Hk. destruct (Hval k p Hk) as [Hm1|(o' & ? & ?)].
    + rewrite lookup_insert in Hm1. case_decide; [|by left].
      simplify_eq. right. exists o. rewrite decoded_in_cons. by auto.
    + right. exists o'. rewrite decoded_in_cons. by auto.
Qed.

Lemma id_to_parent_of_spec es idp :
  id_to_parent_of es = Some idp →
  (∀ o, decoded_in es o →
        ∃ k p, id_key o = Some k ∧ get_parent_id o = Some p ∧ is_Some (idp !! k)) ∧
  (∀ k p, idp !! k = Some p →
          ∃ o, decoded_in es o ∧ id_key o = Some k ∧ get_parent_id o = Some p).
Proof.
  intros (_ & Hdec & Hval)%id_to_parent_fold. split; [done|].
  intros k p Hk. destruct (Hval k p Hk) as [Hm|?]; [|done].
  by rewrite lookup_empty in Hm.
Qed.

(** ** The remap walk *)

Lemma unseen_nonempty (R seen : gset hkey) ka :
  ka ∈ R → ka ∉ seen → 0 < size (R ∖ seen).
Proof.
  intros HR Hseen.
  destruct (size (R ∖ seen)) eqn:Hsz; [|lia].
  apply size_empty_inv in Hsz. ssolve.
Qed.

Lemma unseen_shrinks (R seen : gset hkey) ka :
  ka ∈ R → ka ∉ seen →
  size (R ∖ seen) = S (size (R ∖ (seen ∪ {[ ka ]}))).
Proof.
  intros HR Hseen.
  assert (Hsplit : R ∖ seen = {[ ka ]} ∪ R ∖ (seen ∪ {[ ka ]})).
  { apply set_eq. intros x. rewrite !elem_of_union, !elem_of_difference,
      elem_of_union, elem_of_singleton.
    destruct (decide (x = ka)) as [->|]; nsolve. }
  rewrite Hsplit at 1. rewrite size_union, size_singleton by ssolve. lia.
Qed.

(** The walk halts: each iteration adds to [seen] a removed id that was
    not in it, so the removed ids outside [seen] bound the iterations. *)
Lemma walk_fuel_enough R idp : ∀ fuel a seen,
  size (R ∖ seen) ≤ fuel → walk fuel R idp a seen ≠ OutOfFuel.
Proof.
  induction fuel as [|fuel IH]; intros a seen Hsize; simpl;
    destruct (to_key a) as [ka|]; try done;
    case_bool_decide as HR; try done;
    case_bool_decide as Hseen; try done.
  - pose proof (unseen_nonempty _ _ _ HR Hseen). lia.
  - apply IH. pose proof (unseen_shrinks _ _ _ HR Hseen). lia.
Qed.

(** With enough fuel the result does not depend on the fuel. *)
Lemma walk_fuel_irrelevant R idp : ∀ fuel fuel' a seen,
  size (R ∖ seen) ≤ fuel → size (R ∖ seen) ≤ fuel' →
  walk fuel R idp a seen = walk fuel' R idp a seen.
Proof.
  induction fuel as [|fuel IH]; intros [|fuel'] a seen H1 H2; simpl; try done;
    destruct (to_key a) as [ka|]; try done;
    case_bool_decide as HR; try done;
    case_bool_decide as Hseen; try done;
    try (pose proof (unseen_nonempty _ _ _ HR Hseen); lia).
  pose proof (unseen_shrinks _ _ _ HR Hseen). apply IH; lia.
Qed.

(** When every stored parent can be hashed the walk yields an ancestor. *)
Lemma walk_hashable R idp :
  (∀ k p, idp !! k = Some p → is_Some (to_key p)) →
  ∀ fuel a seen,
    is_Some (to_key a) → size (R ∖ seen) ≤ fuel →
    ∃ a', walk fuel R idp a seen = Ancestor a' ∧ is_Some (to_key a').
Proof.
  intros Hhash.
  assert (Hpar : ∀ k, is_Some (to_key (parent_of idp k))).
  { intros k. unfold parent_of. destruct (idp !! k) eqn:Hk; simpl; by eauto. }
  induction fuel as [|fuel IH]; intros a seen [ka Hka] Hsize; simpl;
    rewrite Hka;
    case_bool_decide as HR; try (by eauto);
    case_bool_decide as Hseen; try (by eauto).
  - pose proof (unseen_nonempty _ _ _ HR Hseen). lia.
  - apply IH; [done|]. pose proof (unseen_shrinks _ _ _ HR Hseen). lia.
Qed.

(** If the walk from the parent of [x] yields [a], and nothing on the
    way lies on a cycle of removed records, then [a] is the nearest
    ancestor of [x] outside the removal set. *)
Lemma walk_nearest R idp : ∀ fuel x seen a,
  walk fuel R idp (parent_of idp x) seen = Ancestor a →
  (∀ y, y ∈ seen → rtc (removed_parent R idp) y x) →
  (∀ z, rtc (removed_parent R idp) x z → ¬ tc (removed_parent R idp) z z) →
  nearest_survivor R idp x a.
Proof.
  induction fuel as [|fuel IH]; intros x seen a; simpl;
    destruct (to_key (parent_of idp x)) as [ka|] eqn:Hka; try done;
    case_bool_decide as HR;
    try (intros [= <-] _ _; by eapply nearest_parent);
    case_bool_decide as Hseen; try done;
    try (intros _ Hbelow Hacyc; exfalso; apply (Hacyc x); [done|];
         eapply tc_rtc_r; [by apply tc_once|by apply Hbelow]).
  intros Hwalk Hbelow Hacyc.
  apply nearest_skip with ka; [done|].
  apply (IH _ _ _ Hwalk).
  - intros y [Hy| ->%elem_of_singleton]%elem_of_union; [|done].
    eapply rtc_r; [by apply Hbelow|done].
  - intros z Hz. apply Hacyc. by eapply rtc_l.
Qed.

Lemma nearest_survivor_outside R idp k a :
  nearest_survivor R idp k a → ∃ ka, to_key a = Some ka ∧ ka ∉ R.
Proof. induction 1; by eauto. Qed.

(** The ancestor found is a parent stored in the map, or the default. *)
Lemma nearest_survivor_source R idp k a :
  nearest_survivor R idp k a → a = JStr "" ∨ ∃ x, idp !! x = Some a.
Proof.
  induction 1 as [k a ka Ha _ _|]; [|done].
  unfold parent_of in Ha. destruct (idp !! k) eqn:Hk; simpl in Ha; subst;
    by eauto.
Qed.

Lemma nearest_survivor_unique R idp k a a' :
  nearest_survivor R idp k a → nearest_survivor R idp k a' → a = a'.
Proof.
  intros H. revert a'.
  induction H as [k a ka Ha Hka Hout|k kp a [Hkp HR] _ IH]; intros a' H'.
  - destruct H' as [k a' ka' Ha' _ _|k kp' a' [Hkp' HR'] _]; [congruence|].
    rewrite Ha in Hkp'. congruence.
  - destruct H' as [k a' ka' Ha' Hka' Hout'|k kp' a' [Hkp' HR'] H'].
    + rewrite Ha' in Hkp. congruence.
    + apply IH. congruence.
Qed.

(** ** The loop that fills [parent_fixes] *)

Lemma parent_fixes_fold R idp l : ∀ m m',
  foldM (parent_fixes_step R idp) m l = Some m' →
  ∀ k, (k ∈ l → ∃ a, remap R idp k = Ancestor a ∧ m' !! k = Some a) ∧
       (k ∉ l → m' !! k = m !! k).
Proof.
  induction l as [|rid l IH]; intros m m'.
  { intros [= <-] k. split; [by intros ?%elem_of_nil|done]. }
  intros (m1 & Hstep & Hrest)%foldM_cons_Some k.
  unfold parent_fixes_step in Hstep.
  destruct (remap R idp rid) as [| |a0] eqn:Hremap; try done.
  injection Hstep as <-.
  destruct (IH _ _ Hrest k) as [Hin Hout]. split.
  - intros [->|Hk]%elem_of_cons; [|by auto].
    destruct (decide (rid ∈ l)) as [Hl|Hl]; [by auto|].
    exists a0. split; [done|]. rewrite Hout by done. apply lookup_insert_eq.
  - intros [Hne Hl]%not_elem_of_cons. rewrite Hout by done.
    by apply lookup_insert_ne.
Qed.

(** ** The repair loop *)

Lemma fix_entry_unparseable R fixes n raw :
  fix_entry R fixes (n, None, raw) = Some (Kept raw).
Proof. done. Qed.

Lemma fix_entry_inv R fixes n o raw oc :
  fix_entry R fixes (n, Some o, raw) = Some oc →
  ∃ k, id_key o = Some k ∧
    ((k ∈ R ∧ oc = Dropped) ∨
     ((k ∉ R) ∧ ∃ pid kp,
        get_parent_id o = Some pid ∧ to_key pid = Some kp ∧
        ((fixes !! kp = None ∧ oc = Kept raw) ∨
         (∃ a o', fixes !! kp = Some a ∧
                  py_setitem o "parentId" a = Some o' ∧ oc = Rewritten o')))).
Proof.
  unfold fix_entry, id_key.
  destruct (get_id o) as [oid|]; simpl; [|done].
  destruct (to_key oid) as [k|]; simpl; [|done].
  case_bool_decide as HR; [intros [= <-]; by eauto|].
  destruct (get_parent_id o) as [pid|]; simpl; [|done].
  destruct (to_key pid) as [kp|] eqn:Hkp; simpl; [|done].
  destruct (fixes !! kp) as [a|] eqn:Hfix.
  - destruct (py_setitem o "parentId" a) as [o'|] eqn:Hset; simpl; [|done].
    intros [= <-]. exists k. split; [done|]. right. split; [done|].
    exists pid, kp. split_and!; try done. right. by eauto.
  - intros [= <-]. exists k. split; [done|]. right. split; [done|].
    exists pid, kp. by auto.
Qed.

Lemma fix_entry_dropped R fixes n o raw k :
  id_key o = Some k → k ∈ R → fix_entry R fixes (n, Some o, raw) = Some Dropped.
Proof.
  unfold fix_entry, id_key. intros Hk HR.
  destruct (get_id o) as [oid|]; simpl in *; [|done].
  rewrite Hk. simpl. by rewrite bool_decide_eq_true_2.
Qed.

Lemma fix_entry_kept R fixes n o raw k kp :
  id_key o = Some k → k ∉ R → parent_key o = Some kp → fixes !! kp = None →
  fix_entry R fixes (n, Some o, raw) = Some (Kept raw).
Proof.
  unfold fix_entry, id_key, parent_key. intros Hk HR Hkp Hfix.
  destruct (get_id o) as [oid|]; simpl in *; [|done].
  rewrite Hk. simpl. rewrite bool_decide_eq_false_2 by done.
  destruct (get_parent_id o) as [pid|]; simpl in *; [|done].
  rewrite Hkp. simpl. by rewrite Hfix.
Qed.

Lemma fix_step_fold R fixes es : ∀ out r f out' r' f',
  foldM (fix_step R fixes) (out, r, f) es = Some (out', r', f') →
  ∃ ocs, Forall2 (λ e oc, fix_entry R fixes e = Some oc) es ocs ∧
         out' = out ++ omap emit ocs.
Proof.
  induction es as [|e es IH]; intros out r f out' r' f'.
  { intros [= <- <- <-]. exists []. split; [constructor|].
    by rewrite app_nil_r. }
  intros ([[out1 r1] f1] & Hstep & Hrest)%foldM_cons_Some.
  destruct (IH _ _ _ _ _ _ Hrest) as (ocs & Hocs & ->).
  unfold fix_step in Hstep.
  destruct (fix_entry R fixes e) as [oc|] eqn:Hoc; simpl in Hstep; [|done].
  exists (oc :: ocs). split; [by constructor|].
  destruct oc; simplify_eq; simpl; [done| |]; by rewrite <- app_assoc.
Qed.

Lemma fix_loop_outcomes R fixes es out removed fixed :
  fix_loop R fixes es = Some (out, removed, fixed) →
  ∃ ocs, Forall2 (λ e oc, fix_entry R fixes e = Some oc) es ocs ∧
         out = omap emit ocs.
Proof. intros (ocs & ? & ->)%fix_step_fold. by exists ocs. Qed.

Lemma omap_lookup_take {A B} (f : A → option B) (l : list A) i x y :
  l !! i = Some x → f x = Some y →
  omap f l !! length (omap f (take i l)) = Some y.
Proof.
  intros Hi Hx.
  assert (Hsplit : omap f l = omap f (take i l) ++ omap f (x :: drop (S i) l)).
  { by rewrite <- omap_app, take_drop_middle. }
  rewrite Hsplit, lookup_app_r by done.
  rewrite Nat.sub_diag. simpl. by rewrite Hx.
Qed.

Lemma analysis_of_poisoned es d poisoned idp :
  analysis_of es d poisoned idp → poisoned = poisoned_ids d.
Proof.
  intros (_ & _ & _ & _ & _ & Hs & _). symmetry. by apply py_sorted_set.
Qed.

Lemma analyze_entries_report es d :
  analyze_entries es = Some (Report.Corrupted d) →
  ∃ idp, analysis_of es d (poisoned_ids d) idp.
Proof.
  intros (poisoned & idp & Ha)%analyze_entries_Corrupted. exists idp.
  by rewrite <- (analysis_of_poisoned _ _ _ _ Ha).
Qed.

Lemma parse_from_blank i ls :
  Forall (λ l, l = "") ls → parse_from i ls = Some [].
Proof.
  revert i. induction ls as [|l ls IH]; intros i Hls; [done|].
  inversion Hls; subst. rewrite parse_from_cons. simpl. by apply IH.
Qed.

(** ** Bytes that are UTF-8 *)

Lemma utf8_run_app st a b :
  utf8_run st (a +:+ b) = utf8_run st a ≫= λ st', utf8_run st' b.
Proof.
  revert st. induction a as [|c a IH]; intros st; [done|].
  rewrite append_cons. simpl. destruct (utf8_step st c); simpl; [apply IH|done].
Qed.

(** A line end is a character of its own: it is read between two
    characters only. *)
Lemma utf8_step_newline st c st' :
  c = LF ∨ c = CR → utf8_step st c = Some st' → st = U0 ∧ st' = U0.
Proof. intros [->| ->]; destruct st; simpl; intros [= <-]; done. Qed.

Lemma utf8_valid_run s : utf8_valid s = true ↔ utf8_run U0 s = Some U0.
Proof.
  unfold utf8_valid. destruct (utf8_run U0 s) as [[]|]; split; done.
Qed.

Lemma utf8_valid_newline c s :
  c = LF ∨ c = CR → utf8_valid (String c s) = utf8_valid s.
Proof. by intros [->| ->]. Qed.

Lemma blank_lines_valid s :
  Forall (λ l, l = "") (file_lines s) → utf8_valid s = true.
Proof.
  induction s as [|c|c c' s IH1 IH2] using string_ind2; [done| |].
  - simpl. destruct (Ascii.eqb_spec c LF) as [->|_]; [done|].
    destruct (Ascii.eqb_spec c CR) as [->|_]; [done|].
    by intros [[=] _]%Forall_cons.
  - rewrite file_lines_String.
    destruct (Ascii.eqb_spec c LF) as [->|_].
    { intros [_ H]%Forall_cons. rewrite utf8_valid_newline by auto. auto. }
    destruct (Ascii.eqb_spec c CR) as [->|_].
    { rewrite utf8_valid_newline by auto.
      destruct (Ascii.eqb_spec c' LF) as [->|_]; intros [_ H]%Forall_cons.
      - rewrite utf8_valid_newline by auto. auto.
      - auto. }
    destruct (file_lines (String c' s)); by intros [[=] _]%Forall_cons.
Qed.

(** The lines of a text that is UTF-8 are UTF-8. *)
Lemma file_lines_valid_from s : ∀ st,
  utf8_run st s = Some U0 →
  ∃ l ls, file_lines s = l :: ls ∧ utf8_run st l = Some U0 ∧
          Forall (λ l, utf8_valid l = true) ls.
Proof.
  induction s as [|c|c c' s IH1 IH2] using string_ind2; intros st.
  - intros Hrun. exists "", []. by split_and!.
  - simpl. destruct (utf8_step st c) as [st'|] eqn:Hstep; simpl; [|done].
    intros [= ->].
    destruct (Ascii.eqb_spec c LF) as [->|_].
    { apply utf8_step_newline in Hstep as [-> _]; [|by auto].
      exists "", [""]. split_and!; try done. by repeat constructor. }
    destruct (Ascii.eqb_spec c CR) as [->|_].
    { apply utf8_step_newline in Hstep as [-> _]; [|by auto].
      exists "", [""]. split_and!; try done. by repeat constructor. }
    exists (String c ""), []. split_and!; try done. simpl. by rewrite Hstep.
  - rewrite file_lines_String. change (utf8_run st (String c (String c' s)))
      with (utf8_step st c ≫= λ st', utf8_run st' (String c' s)).
    destruct (utf8_step st c) as [st1|] eqn:Hstep; [|done].
    change (Some st1 ≫= λ st', utf8_run st' (String c' s))
      with (utf8_run st1 (String c' s)).
    intros Hrun.
    assert (Hnl : c = LF ∨ c = CR → st = U0 ∧ st1 = U0)
      by (intros ?; by eapply utf8_step_newline).
    assert (Hrest : st1 = U0 →
              Forall (λ l, utf8_valid l = true) (file_lines (String c' s))).
    { intros ->. destruct (IH2 U0 Hrun) as (l & ls & -> & Hl & Hls).
      constructor; [by apply utf8_valid_run|done]. }
    destruct (Ascii.eqb_spec c LF) as [->|_].
    { destruct Hnl as [-> ->]; [by auto|]. exists "", (file_lines (String c' s)).
      split_and!; try done. by apply Hrest. }
    destruct (Ascii.eqb_spec c CR) as [->|_].
    { destruct Hnl as [-> ->]; [by auto|].
      destruct (Ascii.eqb_spec c' LF) as [->|_].
      - exists "", (file_lines s). split_and!; try done.
        change (utf8_run U0 (String LF s)) with (utf8_run U0 s) in Hrun.
        destruct (IH1 U0 Hrun) as (l & ls & -> & Hl & Hls).
        constructor; [by apply utf8_valid_run|done].
      - exists "", (file_lines (String c' s)). split_and!; try done.
        by apply Hrest. }
    destruct (IH2 st1 Hrun) as (l & ls & -> & Hl & Hls).
    exists (String c l), ls. split_and!; try done. simpl. by rewrite Hstep.
Qed.

Lemma file_lines_valid s :
  utf8_valid s = true → Forall (λ l, utf8_valid l = true) (file_lines s).
Proof.
  intros Hs%utf8_valid_run.
  destruct (file_lines_valid_from s U0 Hs) as (l & ls & -> & Hl & Hls).
  constructor; [by apply utf8_valid_run|done].
Qed.

Lemma join_lines_valid out :
  Forall (λ l, utf8_valid l = true) out →
  utf8_valid (join_lines out +:+ String LF "") = true.
Proof.
  induction out as [|l out IH]; intros Hout; [done|].
  inversion Hout as [|? ? Hl%utf8_valid_run Hrest]; subst.
  apply utf8_valid_run. destruct out as [|l2 out].
  - simpl join_lines. by rewrite utf8_run_app, Hl.
  - change (join_lines (l :: l2 :: out))
      with (l +:+ String LF (join_lines (l2 :: out))).
    rewrite append_String_assoc, utf8_run_app, Hl. simpl.
    apply utf8_valid_run. by apply IH.
Qed.

Lemma join_lines_valid_inv out :
  Forall (λ l, no_newline l = true) out → out ≠ [] →
  utf8_valid (join_lines out +:+ String LF "") = true →
  Forall (λ l, utf8_valid l = true) out.
Proof.
  intros Hout Hne Hvalid%file_lines_valid.
  rewrite file_lines_join in Hvalid by done.
  by apply Forall_app in Hvalid as [? _].
Qed.

(** ** Properties of the repair *)

Lemma analyze_session_Some file r :
  analyze_session file = Some r →
  ∃ es, parse_jsonl file = Some es ∧ analyze_entries es = Some r.
Proof.
  unfold analyze_session. destruct (parse_jsonl file) as [es|]; [|done].
  simpl. by eauto.
Qed.

Lemma analyze_session_entries file es :
  parse_jsonl file = Some es → analyze_session file = analyze_entries es.
Proof. intros Hp. unfold analyze_session. by rewrite Hp. Qed.

Lemma blank_file_clean file :
  Forall (λ l, l = "") (file_lines file) →
  parse_jsonl file = Some [] ∧ analyze_session file = Some (Report.Clean 0).
Proof.
  intros Hblank. unfold analyze_session, parse_jsonl.
  by rewrite blank_lines_valid, parse_from_blank.
Qed.

Lemma run_file_empty do_fix verbose : run_file do_fix verbose "" = "".
Proof.
  unfold run_file.
  destruct (blank_file_clean "") as [_ ->]; [by repeat constructor|done].
Qed.

(** C10. A file with no non-empty line: the analysis reports zero lines
    and no corruption, and the repair path leaves the file as it is. *)
Theorem empty_input_untouched file do_fix dry_run verbose :
  Forall (λ l, l = "") (file_lines file) →
  analyze_session file = Some (Report.Clean 0) ∧
  Report.line_count (Report.Clean 0) = 0 ∧
  Report.corrupted (Report.Clean 0) = false ∧
  fix_session file (Report.Clean 0) dry_run verbose = (file, Some NothingToDo) ∧
  run_file do_fix verbose file = file.
Proof.
  intros Hblank. destruct (blank_file_clean file Hblank) as [_ Ha].
  split_and!; try done. unfold run_file. by rewrite Ha.
Qed.

(** C9. The repair drops every decoded record whose id is in the
    removal set, whatever the record is: when two records share an id
    and one of them matches a corruption class, both are dropped. *)
Theorem removal_keyed_by_id file es d out removed fixed :
  parse_jsonl file = Some es →
  analyze_session file = Some (Report.Corrupted d) →
  fix_loop (Report.remove_ids d) (Report.parent_fixes d) es
    = Some (out, removed, fixed) →
  ∃ ocs,
    Forall2 (λ e oc, fix_entry (Report.remove_ids d) (Report.parent_fixes d) e
                     = Some oc) es ocs ∧
    out = omap emit ocs ∧
    (∀ i n o raw k,
       es !! i = Some (n, Some o, raw) →
       id_key o = Some k → k ∈ Report.remove_ids d →
       ocs !! i = Some Dropped) ∧
    (∀ i j ni oi rawi nj oj rawj,
       es !! i = Some (ni, Some oi, rawi) →
       es !! j = Some (nj, Some oj, rawj) →
       id_key oj = id_key oi →
       in_corruption_class (poisoned_ids d) oi →
       ocs !! i = Some Dropped ∧ ocs !! j = Some Dropped).
Proof.
  intros Hes Ha Hloop. rewrite (analyze_session_entries _ _ Hes) in Ha.
  destruct (fix_loop_outcomes _ _ _ _ _ _ Hloop) as (ocs & Hocs & ->).
  exists ocs. split; [done|]. split; [done|].
  assert (Hdrop : ∀ i n o raw k,
    es !! i = Some (n, Some o, raw) →
    id_key o = Some k → k ∈ Report.remove_ids d → ocs !! i = Some Dropped).
  { intros i n o raw k Hi Hk HR.
    destruct (Forall2_lookup_l _ _ _ _ _ Hocs Hi) as (oc & Hoc & Hfix).
    rewrite (fix_entry_dropped _ _ _ _ _ k) in Hfix by done. congruence. }
  split; [done|].
  intros i j ni oi rawi nj oj rawj Hi Hj Hid Hclass.
  destruct (analyze_entries_report _ _ Ha) as (idp & Hrm & _ & _ & Hidp & _).
  apply id_to_parent_of_spec in Hidp as [Hdec _].
  destruct (Hdec oi) as (k & p & Hk & _).
  { exists ni, rawi. by eapply list_elem_of_lookup_2. }
  assert (HR : k ∈ Report.remove_ids d).
  { apply Hrm. exists oi. split_and!; try done.
    exists ni, rawi. by eapply list_elem_of_lookup_2. }
  split; eapply Hdrop; eauto. congruence.
Qed.

(** C4, amended. When the repair writes the corrected file, a
    surviving record whose parent id is not a key of [parent_fixes] is
    written with the text of its input line, with no serializer applied
    to it: the text that the reader took from the file, which is the line
    without its line end.  Every line of the corrected file ends with LF,
    whatever line end the input line had. *)
Theorem untouched_line_kept file d verbose file' res :
  fix_session file (Report.Corrupted d) false verbose = (file', res) →
  (file' = file ∧ res = None) ∨ (file' = "" ∧ res = None) ∨
  ∃ es out ocs,
    parse_jsonl file = Some es ∧
    file' = join_lines out +:+ String LF "" ∧
    Forall2 (λ e oc, fix_entry (Report.remove_ids d) (Report.parent_fixes d) e
                     = Some oc) es ocs ∧
    out = omap emit ocs ∧
    ∀ i n o raw k pid,
      es !! i = Some (n, Some o, raw) →
      id_key o = Some k → k ∉ Report.remove_ids d →
      get_parent_id o = Some pid →
      (∀ kp, to_key pid = Some kp → Report.parent_fixes d !! kp = None) →
      ocs !! i = Some (Kept raw) ∧
      out !! length (omap emit (take i ocs)) = Some raw ∧
      file_lines file !! (n - 1) = Some raw ∧ no_newline raw = true.
Proof.
  unfold fix_session.
  destruct (parse_jsonl file) as [es|] eqn:Hes; [|intros [= <- <-]; by left].
  destruct (fix_loop _ _ _) as [[[out removed] fixed]|] eqn:Hloop;
    [|intros [= <- <-]; by left].
  destruct (utf8_valid (join_lines out +:+ String LF "")) eqn:Hvalid;
    [|intros [= <- <-]; right; by left].
  intros [= <- <-]. right. right.
  destruct (fix_loop_outcomes _ _ _ _ _ _ Hloop) as (ocs & Hocs & ->).
  exists es, (omap emit ocs), ocs. split_and!; try done.
  intros i n o raw k pid Hi Hk HR Hpid Hfix.
  destruct (Forall2_lookup_l _ _ _ _ _ Hocs Hi) as (oc & Hoc & Hentry).
  apply fix_entry_inv in Hentry as (k' & Hk' & [[HR' _]|(_ & pid' & kp & Hp & Hkp & Hcase)]).
  { congruence. }
  assert (pid' = pid) as -> by congruence.
  destruct Hcase as [[_ ->]|(a & o' & Hfa & _)].
  2:{ rewrite (Hfix kp Hkp) in Hfa. done. }
  apply list_elem_of_lookup_2 in Hi.
  pose proof (proj1 (Forall_forall _ _) (parse_jsonl_wf _ _ Hes) _ Hi)
    as (_ & _ & Hnl).
  apply parse_jsonl_Some in Hes as [_ Hes].
  split_and!; [done| | |done].
  - by apply (omap_lookup_take emit ocs i (Kept raw)).
  - by destruct (parse_from_line _ _ _ _ _ _ Hes Hi).
Qed.

(** ** The remap *)

(** C6. The remap walk of every removed id halts within as many
    iterations as there are removed ids, also on a cyclic parent graph:
    it never runs out of the fuel [size remove_ids], more fuel does not
    change its result, and it yields a candidate ancestor whenever the
    parent ids it meets can be hashed. *)
Theorem remap_walk_terminates remove_ids idp rid :
  remap remove_ids idp rid ≠ OutOfFuel ∧
  (∀ fuel, size remove_ids ≤ fuel →
     walk fuel remove_ids idp (parent_of idp rid) {[ rid ]}
     = remap remove_ids idp rid) ∧
  ((∀ k p, idp !! k = Some p → is_Some (to_key p)) →
   ∃ a, remap remove_ids idp rid = Ancestor a).
Proof.
  assert (Hsize : size (remove_ids ∖ {[ rid ]}) ≤ size remove_ids).
  { apply subseteq_size. ssolve. }
  unfold remap. split_and!.
  - by apply walk_fuel_enough.
  - intros fuel Hfuel. apply walk_fuel_irrelevant; lia.
  - intros Hhash.
    destruct (walk_hashable remove_ids idp Hhash (size remove_ids)
                (parent_of idp rid) {[ rid ]}) as (a & Ha & _); [|done|by eauto].
    unfold parent_of. destruct (idp !! rid) eqn:Hk; simpl; by eauto.
Qed.

Lemma set_order_elem s k : k ∈ set_order s ↔ k ∈ s.
Proof using Type set_order_perm. by rewrite set_order_perm, elem_of_elements. Qed.

Lemma set_order_empty : set_order ∅ = [].
Proof using Type set_order_perm.
  apply Permutation_nil_r. by rewrite set_order_perm, elements_empty.
Qed.

Lemma parent_fixes_spec es d poisoned idp :
  analysis_of es d poisoned idp →
  ∀ k, (k ∈ Report.remove_ids d →
        ∃ a, remap (Report.remove_ids d) idp k = Ancestor a ∧
             Report.parent_fixes d !! k = Some a) ∧
       (k ∉ Report.remove_ids d → Report.parent_fixes d !! k = None).
Proof using Type set_order_perm.
  intros (_ & _ & _ & _ & Hfold & _) k.
  destruct (parent_fixes_fold _ _ _ _ _ Hfold k) as [Hin Hout].
  rewrite set_order_elem in Hin, Hout. split; [done|].
  intros Hk. by rewrite Hout, lookup_empty.
Qed.

(** C5. For a removed id whose chain of parent links meets no cycle
    of removed records, [parent_fixes] holds its nearest ancestor
    outside the removal set: the walk starts at the record's own parent
    and skips removed ancestors. *)
Theorem parent_fixes_nearest_survivor file es d idp k :
  parse_jsonl file = Some es →
  analyze_session file = Some (Report.Corrupted d) →
  id_to_parent_of es = Some idp →
  k ∈ Report.remove_ids d →
  (∀ z, rtc (removed_parent (Report.remove_ids d) idp) k z →
        ¬ tc (removed_parent (Report.remove_ids d) idp) z z) →
  ∃ a ka,
    Report.parent_fixes d !! k = Some a ∧
    nearest_survivor (Report.remove_ids d) idp k a ∧
    to_key a = Some ka ∧ ka ∉ Report.remove_ids d.
Proof using Type set_order_perm.
  intros Hes Ha Hidp Hk Hacyc.
  rewrite (analyze_session_entries _ _ Hes) in Ha.
  apply analyze_entries_report in Ha as (idp' & Ha).
  assert (idp' = idp) as ->.
  { destruct Ha as (_ & _ & _ & Hidp' & _). congruence. }
  destruct (parent_fixes_spec _ _ _ _ Ha k) as [Hin _].
  destruct (Hin Hk) as (a & Hremap & Hfix).
  assert (Hnear : nearest_survivor (Report.remove_ids d) idp k a).
  { eapply walk_nearest; [exact Hremap| |done].
    by intros y ->%elem_of_singleton. }
  destruct (nearest_survivor_outside _ _ _ _ Hnear) as (ka & Hka & Hout).
  by eauto 6.
Qed.

(** ** Cascade errors *)

Lemma first_mention_found l err r :
  first_mention l err = Some r →
  (∃ x, x ∈ l ∧ py_in x err = Some true) → is_Some r.
Proof.
  induction l as [|y l IH]; simpl.
  { by intros _ (x & ?%elem_of_nil & _). }
  destruct (py_in y err) as [[]|] eqn:Hy; simpl; [by intros [= <-]; eauto| |done].
  intros Hr (x & [->|Hx]%elem_of_cons & Hpx); [congruence|].
  apply IH; by eauto.
Qed.

Lemma cascade_classified es d idp o m err t :
  analysis_of es d (poisoned_ids d) idp →
  decoded_in es o →
  message_of o = Some m →
  dict_get m "role" JNull = JStr "assistant" →
  is_empty_content (dict_get m "content" (JArr [])) = true →
  dict_get m "errorMessage" (JStr "") = JStr err →
  str_contains "tool_use_id" err = true →
  HStr t ∈ poisoned_ids d → str_contains t err = true →
  ∃ k, id_key o = Some k ∧ k ∈ Report.cascade_errors d ∧
       k ∈ Report.remove_ids d.
Proof using Type set_order_perm.
  intros Ha Ho Hm Hrole Hcontent Herr Hmark Ht Hmention.
  destruct Ha as (Hrm & _ & Hok & Hidp & _ & _ & Hce & _).
  apply id_to_parent_of_spec in Hidp as [Hdec _].
  destruct (Hdec o Ho) as (k & p & Hk & _).
  destruct (Hok o Ho) as (_ & _ & [r Hr] & _).
  assert (Hsome : is_Some r).
  { unfold message_of in Hm.
    destruct (py_get o "message" (JObj [])) as [[| | | | |m']|] eqn:Hmsg;
      try done. injection Hm as ->.
    unfold cascade_mention, is_empty_error_assistant in Hr.
    rewrite Hmsg in Hr. simpl in Hr.
    rewrite Hrole, Hcontent, Herr in Hr. simpl in Hr.
    rewrite Hmark in Hr. simpl in Hr.
    eapply first_mention_found; [exact Hr|].
    exists (HStr t). rewrite set_order_elem. simpl. by rewrite Hmention. }
  destruct Hsome as [tc ->].
  exists k. split; [done|]. split.
  - apply Hce. by eauto.
  - apply Hrm. exists o. split_and!; try done. right. right. by eauto.
Qed.

(** ** The entries of the repaired file *)

Lemma parse_from_elem i ls : ∀ es n obj raw,
  parse_from i ls = Some es →
  (n, obj, raw) ∈ es → decode raw = Some obj ∧ raw ∈ ls ∧ raw ≠ "".
Proof.
  revert i. induction ls as [|l ls IH]; intros i es n obj raw.
  { intros [= <-]. by intros ?%elem_of_nil. }
  assert (Hrec : ∀ es', parse_from (S i) ls = Some es' → (n, obj, raw) ∈ es' →
                        decode raw = Some obj ∧ raw ∈ l :: ls ∧ raw ≠ "").
  { intros es' Hp (? & ? & ?)%(IH _ _ _ _ _ Hp). split_and!; try done.
    by apply list_elem_of_further. }
  intros [[-> Hp]|(Hne & obj' & es' & Hd & Hp & ->)]%parse_from_cons_inv;
    [by eauto|].
  intros [Heq|Hin]%elem_of_cons; [|by eauto].
  injection Heq as -> -> ->. split_and!; try done. apply list_elem_of_here.
Qed.

Lemma parse_from_intro i ls : ∀ es raw,
  parse_from i ls = Some es →
  raw ∈ ls → raw ≠ "" → ∃ n obj, decode raw = Some obj ∧ (n, obj, raw) ∈ es.
Proof.
  revert i. induction ls as [|l ls IH]; intros i es raw Hp;
    [by intros ?%elem_of_nil|].
  apply parse_from_cons_inv in Hp
    as [[-> Hp]|(Hne & obj & es' & Hd & Hp & ->)].
  - intros [->|Hin]%elem_of_cons Hraw; [done|]. by eapply IH.
  - intros [->|Hin]%elem_of_cons Hraw.
    + exists i, obj. split; [done|]. apply list_elem_of_here.
    + destruct (IH _ _ _ Hp Hin Hraw) as (n & obj' & ? & ?).
      exists n, obj'. split; [done|]. by apply list_elem_of_further.
Qed.

Lemma parse_from_raws i ls : ∀ es,
  parse_from i ls = Some es → Forall (λ l, l ≠ "") ls → es.*2 = ls.
Proof.
  revert i. induction ls as [|l ls IH]; intros i es; [by intros [= <-]|].
  intros Hp Hls. inversion Hls as [|? ? Hl Hrest]; subst.
  apply parse_from_cons_inv in Hp
    as [[-> Hp]|(Hne & obj & es' & Hd & Hp & ->)]; [done|].
  simpl. f_equal. by eapply IH.
Qed.

(** Reading raises on no line when every non-empty line can be handled
    by the decoder. *)
Lemma parse_from_Some i ls :
  Forall (λ l, l ≠ "" → is_Some (decode l)) ls → is_Some (parse_from i ls).
Proof.
  revert i. induction ls as [|l ls IH]; intros i Hls; [by eauto|].
  inversion Hls as [|? ? Hl Hrest]; subst. rewrite parse_from_cons.
  destruct (IH (S i) Hrest) as [es Hes].
  destruct (String.eqb_spec l "") as [->|Hne]; [by eauto|].
  destruct (Hl Hne) as [obj ->]. rewrite Hes. by eauto.
Qed.

Lemma unparseable_of_nil es :
  unparseable_of es = [] ↔ ∀ n raw, (n, None, raw) ∉ es.
Proof.
  unfold unparseable_of. induction es as [|[[n obj] raw] es IH]; simpl.
  { split; [|done]. intros _ n raw. apply not_elem_of_nil. }
  destruct obj as [o|]; simpl.
  - rewrite IH. split.
    + intros H n' raw' [?|?]%elem_of_cons; [done|]. by eapply H.
    + intros H n' raw' Hin. eapply H. by apply list_elem_of_further.
  - split; [done|]. intros H. exfalso. eapply H. apply list_elem_of_here.
Qed.

Section Repaired.
Context (R : gset hkey) (fixes : gmap hkey json).
Context (es : list entry) (ocs : list outcome).
Context (Hwf : Forall wf_entry es).
Context (Hocs : Forall2 (λ e oc, fix_entry R fixes e = Some oc) es ocs).
Context (Hcodec : ∀ e o', e ∈ es → fix_entry R fixes e = Some (Rewritten o') →
                          codec_ok o').

(** Where a written line comes from. *)
Lemma emitted_origin line :
  line ∈ omap emit ocs →
  ∃ e oc, e ∈ es ∧ fix_entry R fixes e = Some oc ∧ emit oc = Some line.
Proof using Hocs.
  intros (oc & Hoc & Hline)%list_elem_of_omap.
  apply list_elem_of_lookup in Hoc as [i Hi].
  destruct (Forall2_lookup_r _ _ _ _ _ Hocs Hi) as (e & He & Hfix).
  exists e, oc. split_and!; try done. by eapply list_elem_of_lookup_2.
Qed.

Lemma emitted_intro e oc line :
  e ∈ es → fix_entry R fixes e = Some oc → emit oc = Some line →
  line ∈ omap emit ocs.
Proof using Hocs.
  intros [i Hi]%list_elem_of_lookup Hfix Hline.
  destruct (Forall2_lookup_l _ _ _ _ _ Hocs Hi) as (oc' & Hoc' & Hfix').
  assert (oc' = oc) as -> by congruence.
  apply list_elem_of_omap. exists oc. split; [|done].
  by eapply list_elem_of_lookup_2.
Qed.

(** A written line is the raw text of a kept entry, or the text of a
    rewritten record, which decodes to that record. *)
Lemma emitted_decode e oc line :
  e ∈ es → fix_entry R fixes e = Some oc → emit oc = Some line →
  line ≠ "" ∧ no_newline line = true ∧
  ((∃ n obj, e = (n, obj, line) ∧ decode line = Some obj ∧ oc = Kept line) ∨
   (∃ o', oc = Rewritten o' ∧ decode line = Some (Some o') ∧
          survives_as R fixes e o')).
Proof using Hwf Hcodec.
  intros He Hfix Hline.
  pose proof (proj1 (Forall_forall _ _) Hwf e He) as (Hobj & Hne & Hlf).
  destruct e as [[n obj] raw]; simpl in Hobj, Hne, Hlf.
  destruct obj as [o|].
  2:{ simpl in Hfix. simplify_eq. simpl in Hline. simplify_eq.
      split_and!; try done. left. by exists n, None. }
  pose proof Hfix as Hfix0.
  apply fix_entry_inv in Hfix
    as (k & Hk & [[HR ->]|(HR & pid & kp & Hp & Hkp & Hcase)]); [done|].
  destruct Hcase as [[Hnone ->]|(a & o' & Hsome & Hset & ->)];
    simpl in Hline; simplify_eq.
  - split_and!; try done. left. by exists n, (Some o).
  - destruct (Hcodec _ _ He Hfix0) as (Hrt & Hne' & Hlf').
    split_and!; try done. right. exists o'. split_and!; try done.
    + unfold decode. rewrite Hrt. destruct o; simpl in Hset; by simplify_eq.
    + exists n, o, raw, k, pid, kp. split_and!; try done. right. by eauto.
Qed.

Lemma emitted_lines_ok :
  Forall (λ l, no_newline l = true) (omap emit ocs) ∧
  Forall (λ l, l ≠ "") (omap emit ocs).
Proof using Hwf Hocs Hcodec.
  split; apply Forall_forall; intros line (e & oc & He & Hfix & Hline)%emitted_origin;
    by destruct (emitted_decode _ _ _ He Hfix Hline) as (? & ? & _).
Qed.

Lemma repaired_read : is_Some (repaired_entries ocs).
Proof using Hwf Hocs Hcodec.
  apply parse_from_Some, Forall_forall.
  intros line (e & oc & He & Hfix & Hline)%emitted_origin _.
  destruct (emitted_decode _ _ _ He Hfix Hline)
    as (_ & _ & [(n & obj & -> & Hd & _)|(o2 & -> & Hd & Hs)]); by eauto.
Qed.

Context (es' : list entry) (Hes' : repaired_entries ocs = Some es').

Lemma repaired_decoded o' :
  decoded_in es' o' → ∃ e, e ∈ es ∧ survives_as R fixes e o'.
Proof using Hwf Hocs Hcodec Hes'.
  intros (n' & raw' & (Hdec & Hin & _)%(parse_from_elem _ _ _ _ _ _ Hes')).
  apply emitted_origin in Hin as (e & oc & He & Hfix & Hline).
  exists e. split; [done|].
  destruct (emitted_decode _ _ _ He Hfix Hline)
    as (_ & _ & [(n & obj & -> & Hd & ->)|(o2 & -> & Hd & Hs)]).
  - assert (obj = Some o') as -> by congruence.
    apply fix_entry_inv in Hfix
      as (k & Hk & [[_ [=]]|(HR & pid & kp & Hp & Hkp & Hcase)]).
    exists n, o', raw', k, pid, kp. split_and!; try done.
    destruct Hcase as [[Hnone _]|(a & o2 & _ & _ & [=])]. by left.
  - by assert (o2 = o') as -> by congruence.
Qed.

Lemma repaired_unparseable n' raw' :
  (n', None, raw') ∈ es' → ∃ n, (n, None, raw') ∈ es.
Proof using Hwf Hocs Hcodec Hes'.
  intros (Hdec & Hin & _)%(parse_from_elem _ _ _ _ _ _ Hes').
  apply emitted_origin in Hin as (e & oc & He & Hfix & Hline).
  destruct (emitted_decode _ _ _ He Hfix Hline)
    as (_ & _ & [(n & obj & -> & Hd & ->)|(o2 & -> & Hd & Hs)]).
  - exists n. by assert (obj = None) as -> by congruence.
  - congruence.
Qed.

Lemma repaired_survivor e o' :
  e ∈ es → survives_as R fixes e o' → decoded_in es' o'.
Proof using Hwf Hocs Hcodec Hes'.
  intros He (n & o & raw & k & pid & kp & -> & Hk & HR & Hp & Hkp & Hcase).
  pose proof (proj1 (Forall_forall _ _) Hwf _ He) as (Hobj & Hne & Hlf).
  simpl in Hobj, Hne, Hlf.
  assert (∃ oc line, fix_entry R fixes (n, Some o, raw) = Some oc ∧
                     emit oc = Some line ∧ decode line = Some (Some o'))
    as (oc & line & Hfix & Hline & Hd).
  { destruct Hcase as [[Hnone ->]|(a & Hsome & Hset)].
    - exists (Kept raw), raw. split_and!; try done.
      by eapply fix_entry_kept; [done|done|unfold parent_key; rewrite Hp|].
    - exists (Rewritten o'), (dumps o').
      assert (Hfix : fix_entry R fixes (n, Some o, raw) = Some (Rewritten o')).
      { unfold fix_entry, id_key in *.
        destruct (get_id o) as [oid|]; simpl in *; [|done].
        rewrite Hk. simpl. rewrite bool_decide_eq_false_2 by done.
        rewrite Hp. simpl. rewrite Hkp. simpl. rewrite Hsome, Hset. done. }
      split_and!; try done.
      destruct (Hcodec _ _ He Hfix) as (Hrt & _ & _).
      unfold decode. rewrite Hrt. destruct o; simpl in Hset; by simplify_eq. }
  pose proof (emitted_intro _ _ _ He Hfix Hline) as Hin.
  destruct (emitted_decode _ _ _ He Hfix Hline) as (Hne' & _ & _).
  destruct (parse_from_intro _ _ _ _ Hes' Hin Hne') as (n' & obj & Hd' & Hn').
  exists n', line. by assert (obj = Some o') as -> by congruence.
Qed.
End Repaired.

Lemma survives_as_facts R fixes e o' :
  survives_as R fixes e o' →
  ∃ n o raw k,
    e = (n, Some o, raw) ∧ id_key o = Some k ∧ (k ∉ R) ∧
    same_message o o' ∧ get_id o' = get_id o.
Proof.
  intros (n & o & raw & k & pid & kp & -> & Hk & HR & Hp & Hkp & Hcase).
  exists n, o, raw, k. split_and!; try done.
  - destruct Hcase as [[_ ->]|(a & _ & Hset)];
      [apply same_message_refl|by eapply same_message_setitem].
  - destruct Hcase as [[_ ->]|(a & _ & Hset)]; [done|].
    unfold get_id. by rewrite (py_get_setitem_ne _ _ _ _ _ _ Hset).
Qed.

(** ** Analysis of a transcript without corrupted records *)

Lemma orphan_empty s o :
  is_Some (is_orphan_result s o) → is_orphan_result ∅ o = Some false.
Proof.
  unfold is_orphan_result, in_set.
  destruct (get_tool_result_id o) as [tr|]; simpl; [|by intros [? ?]].
  destruct (truthy tr); [|done].
  destruct (to_key tr) as [k|]; simpl; [|by intros [? ?]].
  intros _. rewrite bool_decide_eq_false_2; [done|ssolve].
Qed.

Lemma cascade_empty s o :
  is_Some (cascade_mention s o) → cascade_mention ∅ o = Some None.
Proof using Type set_order_perm.
  unfold cascade_mention.
  destruct (is_empty_error_assistant o) as [[]|]; simpl; [|done|by intros [? ?]].
  destruct (py_get o "message" (JObj [])) as [msg|]; simpl; [|by intros [? ?]].
  destruct (py_get msg "errorMessage" (JStr "")) as [err|]; simpl;
    [|by intros [? ?]].
  by rewrite set_order_empty.
Qed.

Lemma py_sorted_empty : py_sorted ∅ = Some [].
Proof. reflexivity. Qed.

Lemma analyze_entries_clean es :
  (∀ o, decoded_in es o →
        is_broken_assistant o = Some false ∧
        is_orphan_result ∅ o = Some false ∧
        cascade_mention ∅ o = Some None ∧
        is_Some (valid_tool_call_ids o)) →
  (unparseable_of es = [] →
   analyze_entries es = Some (Report.Clean (length es))) ∧
  (∀ r, analyze_entries es = Some r →
        r = Report.Clean (length es) ∨
        ∃ d, r = Report.Corrupted d ∧ Report.remove_ids d = ∅ ∧
             Report.parent_fixes d = ∅).
Proof using Type set_order_perm.
  intros Hok. unfold analyze_entries.
  destruct es as [|e es0]; [split; [done|by intros r [= <-]; left]|].
  remember (e :: es0) as es eqn:Hes. clear Hes e es0.
  rewrite (pass1_clean es scan0) by (intros o Ho; by apply Hok). simpl.
  rewrite (pass2_clean es scan0) by (intros o Ho; by apply Hok). simpl.
  rewrite (pass3_clean es scan0) by (intros o Ho; by apply Hok). simpl.
  destruct (extract_all_ok es ∅) as [valid Hvalid];
    [intros o Ho; by apply Hok|].
  unfold extract_all_tool_call_ids. rewrite Hvalid. simpl.
  assert (HR : (∅ ∪ ∅ ∪ ∅ : gset hkey) = ∅) by ssolve.
  rewrite HR. rewrite bool_decide_eq_true_2 by done. simpl.
  split.
  - intros ->. by rewrite bool_decide_eq_true_2.
  - intros r. case_bool_decide; [intros [= <-]; by left|].
    destruct (id_to_parent_of es) as [idp|]; simpl; [|done].
    rewrite set_order_empty. simpl. rewrite py_sorted_empty. simpl.
    intros [= <-]. right. by eauto.
Qed.

(** After a repair no record of a corruption class is left: the
    repaired entries can be read, and their analysis succeeds and finds
    nothing to remove. *)
Lemma analyze_repaired es d poisoned idp ocs :
  Forall wf_entry es →
  analysis_of es d poisoned idp →
  Forall2 (λ e oc, fix_entry (Report.remove_ids d) (Report.parent_fixes d) e
                   = Some oc) es ocs →
  (∀ e o', e ∈ es →
           fix_entry (Report.remove_ids d) (Report.parent_fixes d) e
           = Some (Rewritten o') → codec_ok o') →
  ∃ es', repaired_entries ocs = Some es' ∧
    (Report.unparseable_lines d = [] →
     analyze_entries es' = Some (Report.Clean (length es'))) ∧
    (∀ r, analyze_entries es' = Some r →
          r = Report.Clean (length es') ∨
          ∃ d', r = Report.Corrupted d' ∧ Report.remove_ids d' = ∅ ∧
                Report.parent_fixes d' = ∅).
Proof using Type set_order_perm.
  intros Hwf Ha Hocs Hcodec.
  destruct (repaired_read _ _ _ _ Hwf Hocs Hcodec) as [es' Hes'].
  exists es'. split; [done|].
  assert (Hclean : ∀ o', decoded_in es' o' →
            is_broken_assistant o' = Some false ∧
            is_orphan_result ∅ o' = Some false ∧
            cascade_mention ∅ o' = Some None ∧
            is_Some (valid_tool_call_ids o')).
  { intros o' Ho'.
    destruct (repaired_decoded _ _ _ _ Hwf Hocs Hcodec _ Hes' o' Ho')
      as (e & He & Hs).
    apply survives_as_facts in Hs as (n & o & raw & k & -> & Hk & HR & Hm & _).
    assert (Ho : decoded_in es o) by (by exists n, raw).
    destruct Ha as (Hrm & _ & Hok & _).
    destruct (Hok o Ho) as ([b Hb] & Hor & Hca & Hva).
    rewrite (same_message_broken _ _ Hm), (same_message_orphan _ _ Hm),
      (same_message_cascade _ _ Hm), (same_message_valid _ _ Hm).
    split_and!; try done.
    - destruct b; [|done]. exfalso. apply HR, Hrm. exists o. by auto.
    - by eapply orphan_empty.
    - by eapply cascade_empty. }
  destruct (analyze_entries_clean es' Hclean) as [Hc1 Hc2].
  split; [|done]. intros Hunp. apply Hc1.
  apply unparseable_of_nil. intros n' raw' Hin.
  destruct (repaired_unparseable _ _ _ _ Hwf Hocs Hcodec _ Hes' _ _ Hin)
    as [n Hn].
  destruct Ha as (_ & _ & _ & _ & _ & _ & _ & Hu & _).
  rewrite Hu in Hunp. by eapply unparseable_of_nil.
Qed.


Lemma fix_loop_nothing es out removed fixed :
  fix_loop ∅ ∅ es = Some (out, removed, fixed) → out = es.*2.
Proof.
  intros (ocs & Hocs & ->)%fix_loop_outcomes.
  induction Hocs as [|[[n obj] raw] oc es ocs Hfix _ IH]; [done|].
  assert (oc = Kept raw) as ->.
  { destruct obj as [o|]; [|simpl in Hfix; by simplify_eq].
    apply fix_entry_inv in Hfix
      as (k & _ & [[HR _]|(_ & pid & kp & _ & _ & [[_ ->]|(a & o' & Ha & _)])]).
    - ssolve.
    - done.
    - by rewrite lookup_empty in Ha. }
  rewrite fmap_cons. simpl. by f_equal.
Qed.

Lemma survivor_exists R fixes es ocs n o raw k :
  Forall2 (λ e oc, fix_entry R fixes e = Some oc) es ocs →
  (n, Some o, raw) ∈ es → id_key o = Some k → k ∉ R →
  ∃ o', survives_as R fixes (n, Some o, raw) o'.
Proof.
  intros Hocs [i Hi]%list_elem_of_lookup Hk HR.
  destruct (Forall2_lookup_l _ _ _ _ _ Hocs Hi) as (oc & _ & Hfix).
  apply fix_entry_inv in Hfix
    as (k' & Hk' & [[HR' _]|(_ & pid & kp & Hp & Hkp & Hcase)]); [congruence|].
  destruct Hcase as [[Hnone _]|(a & o' & Hsome & Hset & _)].
  - exists o, n, o, raw, k, pid, kp. split_and!; try done. by left.
  - exists o', n, o, raw, k, pid, kp. split_and!; try done. right. by eauto.
Qed.



(** ** Properties of a whole run *)


(** C3. Running the engine on its own output changes nothing, and a
    session that the analysis finds clean is left as it is, byte for
    byte; the analysis finds a session clean whenever its removal set and
    its list of unparseable lines are both empty. *)
Theorem engine_idempotent file verbose verbose' :
  (∀ d es e o', analyze_session file = Some (Report.Corrupted d) →
                parse_jsonl file = Some es → e ∈ es →
                fix_entry (Report.remove_ids d) (Report.parent_fixes d) e
                = Some (Rewritten o') → codec_ok o') →
  run_file true verbose' (run_file true verbose file)
  = run_file true verbose file ∧
  (∀ r, analyze_session file = Some r → Report.corrupted r = false →
        run_file true verbose file = file ∧
        (fix_session file r false verbose).1 = file) ∧
  (∀ d, analyze_session file = Some (Report.Corrupted d) →
        Report.remove_ids d ≠ ∅ ∨ Report.unparseable_lines d ≠ []).
Proof using Type set_order_perm.
  intros Hcodec. split; [|split].
  2:{ intros r Hr Hc. unfold run_file. rewrite Hr, Hc.
      by destruct r. }
  2:{ intros d (es & _ & (idp & Han)%analyze_entries_report)%analyze_session_Some.
      destruct Han as (_ & _ & _ & _ & _ & _ & _ & Hu & _ & _ & Hne).
      by rewrite Hu. }
  assert (Hsame : ∀ v, run_file true v file = file →
            run_file true verbose' file = file).
  { intros v. unfold run_file.
    by destruct (analyze_session file) as [[n|d]|]. }
  destruct (analyze_session file) as [[n|d]|] eqn:Ha.
  - assert (Hrun : run_file true verbose file = file)
      by (unfold run_file; by rewrite Ha).
    rewrite Hrun. by eapply Hsame.
  - destruct (analyze_session_Some _ _ Ha) as (es & Hes & Ha').
    destruct (fix_loop (Report.remove_ids d) (Report.parent_fixes d) es)
      as [[[out removed] fixed]|] eqn:Hloop.
    2:{ assert (Hrun : run_file true verbose file = file).
        { unfold run_file. rewrite Ha. simpl. unfold fix_session.
          rewrite Hes. cbv beta iota. by rewrite Hloop. }
        rewrite Hrun. by eapply Hsame. }
    set (file' := join_lines out +:+ String LF "").
    destruct (utf8_valid file') eqn:Hvalid.
    2:{ assert (Hrun : run_file true verbose file = "").
        { unfold run_file. rewrite Ha. simpl. unfold fix_session.
          rewrite Hes. cbv beta iota. rewrite Hloop. cbv beta iota zeta.
          fold file'. by rewrite Hvalid. }
        rewrite Hrun. apply run_file_empty. }
    assert (Hrun : run_file true verbose file = file').
    { unfold run_file. rewrite Ha. simpl. unfold fix_session.
      rewrite Hes. cbv beta iota. rewrite Hloop. cbv beta iota zeta.
      fold file'. by rewrite Hvalid. }
    rewrite Hrun. clear Hrun Hsame.
    destruct (fix_loop_outcomes _ _ _ _ _ _ Hloop) as (ocs & Hocs & Hout).
    destruct (analyze_entries_report _ _ Ha') as (idp & Han).
    pose proof (parse_jsonl_wf _ _ Hes) as Hwf.
    assert (Hcd' : ∀ e o', e ∈ es →
              fix_entry (Report.remove_ids d) (Report.parent_fixes d) e
              = Some (Rewritten o') → codec_ok o')
      by (intros e o' He Hf; exact (Hcodec d es e o' eq_refl Hes He Hf)).
    destruct (emitted_lines_ok _ _ _ _ Hwf Hocs Hcd') as [Hlf Hne].
    destruct (analyze_repaired _ _ _ _ _ Hwf Han Hocs Hcd')
      as (es' & Hes' & _ & Hrep).
    assert (Hparse : parse_jsonl file' = Some es').
    { unfold file' in Hvalid |- *. subst out. by rewrite parse_jsonl_join. }
    unfold run_file, analyze_session. rewrite Hparse. simpl.
    destruct (analyze_entries es') as [r|] eqn:Hr; [|done].
    destruct (Hrep r eq_refl) as [->|(d' & -> & HR' & Hf')]; [done|].
    simpl. unfold fix_session. rewrite HR', Hf', Hparse. cbv beta iota.
    destruct (fix_loop ∅ ∅ es')
      as [[[out' removed'] fixed']|] eqn:Hloop'; [|done].
    cbv beta iota zeta. apply fix_loop_nothing in Hloop'.
    unfold repaired_entries in Hes'.
    rewrite (parse_from_raws _ _ _ Hes') in Hloop' by done.
    subst out' out. fold file'. by rewrite Hvalid.
  - assert (Hrun : run_file true verbose file = file)
      by (unfold run_file; by rewrite Ha).
    rewrite Hrun. by eapply Hsame.
Qed.

Lemma removed_parent_reach R idp k z :
  k ∈ R → rtc (removed_parent R idp) k z → z ∈ R.
Proof.
  intros Hk Hz. apply rtc_inv_r in Hz as [<-|(y & _ & _ & ?)]; done.
Qed.

(** C1, amended. When every parent reference of the input is empty
    or the id of a decoded record of the input, and no removed record is
    its own ancestor along removed records, every record of the
    corrected output has a parent that is empty or the id of a record of
    the corrected output. *)
Theorem no_dangling_after_repair file es verbose :
  parse_jsonl file = Some es →
  (∀ d e o', analyze_session file = Some (Report.Corrupted d) →
             e ∈ es →
             fix_entry (Report.remove_ids d) (Report.parent_fixes d) e
             = Some (Rewritten o') → codec_ok o') →
  no_dangling es →
  (∀ d idp x, analyze_session file = Some (Report.Corrupted d) →
              id_to_parent_of es = Some idp →
              x ∈ Report.remove_ids d →
              ¬ tc (removed_parent (Report.remove_ids d) idp) x x) →
  ∃ es', parse_jsonl (run_file true verbose file) = Some es' ∧
         no_dangling es'.
Proof using Type set_order_perm.
  intros Hes Hcodec Hin Hacyc. unfold run_file.
  destruct (analyze_session file) as [[n|d]|] eqn:Ha; simpl; try by eauto.
  unfold fix_session. rewrite Hes. cbv beta iota.
  destruct (fix_loop _ _ _) as [[[out removed] fixed]|] eqn:Hloop; simpl;
    [|by eauto].
  destruct (utf8_valid (join_lines out +:+ String LF "")) eqn:Hvalid; simpl.
  2:{ exists []. split; [done|]. by intros o pid (? & ? & ?%elem_of_nil). }
  destruct (fix_loop_outcomes _ _ _ _ _ _ Hloop) as (ocs & Hocs & ->).
  pose proof Ha as Ha'. rewrite (analyze_session_entries _ _ Hes) in Ha'.
  destruct (analyze_entries_report _ _ Ha') as (idp & Han).
  pose proof (parse_jsonl_wf _ _ Hes) as Hwf.
  assert (Hcd : ∀ e o', e ∈ es →
            fix_entry (Report.remove_ids d) (Report.parent_fixes d) e
            = Some (Rewritten o') → codec_ok o')
    by (intros e o' He Hf; exact (Hcodec d e o' eq_refl He Hf)).
  destruct (emitted_lines_ok _ _ _ _ Hwf Hocs Hcd) as [Hlf _].
  rewrite parse_jsonl_join by done. fold (repaired_entries ocs).
  destruct (repaired_read _ _ _ _ Hwf Hocs Hcd) as [es' Hes'].
  exists es'. split; [done|].
  set (R := Report.remove_ids d) in *.
  set (fixes := Report.parent_fixes d) in *.
  assert (Hidp : id_to_parent_of es = Some idp)
    by (by destruct Han as (_ & _ & _ & ? & _)).
  (* a record of the input that is not removed is in the output *)
  assert (Hkeep : ∀ pid kp, to_key pid = Some kp → kp ∉ R →
            resolved_in es pid →
            resolved_in es' pid).
  { intros pid kp Hkp HR [->|(o2 & (n2 & raw2 & Hin2) & Hid2)]; [by left|].
    right.
    assert (Hk2 : id_key o2 = Some kp) by (unfold id_key; by rewrite Hid2).
    destruct (survivor_exists _ _ _ _ _ _ _ _ Hocs Hin2 Hk2 HR) as [o2' Hs].
    exists o2'. split.
    - by eapply (repaired_survivor _ _ _ _ Hwf Hocs Hcd _ Hes').
    - apply survives_as_facts in Hs as (? & ? & ? & ? & [= <- <- <-] & _ & _ & _ & ->).
      done. }
  intros o' pid' Ho' Hpid'.
  destruct (repaired_decoded _ _ _ _ Hwf Hocs Hcd _ Hes' o' Ho')
    as (e & He & Hs).
  destruct Hs as (n & o & raw & k & pid & kp & -> & Hk & HR & Hp & Hkp & Hcase).
  destruct (parent_fixes_spec _ _ _ _ Han kp) as [Hfin Hfout].
  destruct Hcase as [[Hnone ->]|(a & Hsome & Hset)].
  - assert (pid' = pid) as -> by congruence.
    apply (Hkeep pid kp Hkp).
    + intros HkpR. destruct (Hfin HkpR) as (a & _ & Hfa).
      fold fixes in Hfa. congruence.
    + apply (Hin o); [by exists n, raw|done].
  - rewrite (get_parent_id_setitem _ _ _ Hset) in Hpid'. injection Hpid' as <-.
    assert (HkpR : kp ∈ R).
    { destruct (decide (kp ∈ R)) as [?|Hno]; [done|].
      apply Hfout in Hno. fold fixes in Hno. congruence. }
    destruct (Hfin HkpR) as (a' & Hremap & Hfa).
    fold fixes in Hfa. assert (a' = a) as -> by congruence.
    assert (Hnear : nearest_survivor R idp kp a).
    { eapply walk_nearest; [exact Hremap| |].
      - by intros y ->%elem_of_singleton.
      - intros z Hz. eapply Hacyc; [done|done|].
        by eapply removed_parent_reach. }
    destruct (nearest_survivor_outside _ _ _ _ Hnear) as (ka & Hka & Hout).
    apply (Hkeep a ka Hka Hout).
    destruct (nearest_survivor_source _ _ _ _ Hnear) as [->|[x Hx]]; [by left|].
    apply id_to_parent_of_spec in Hidp as [_ Hval].
    destruct (Hval x a Hx) as (o3 & Ho3 & _ & Hp3).
    by apply (Hin o3).
Qed.

(** ** Chains without a cycle *)

Lemma removed_parent_det R idp x y y' :
  removed_parent R idp x y → removed_parent R idp x y' → y = y'.
Proof. intros [? _] [? _]. congruence. Qed.

(** A walk that ends outside the removal set found the nearest
    survivor, whatever the graph. *)
Lemma walk_outside_nearest R idp : ∀ fuel x seen a ka,
  walk fuel R idp (parent_of idp x) seen = Ancestor a →
  to_key a = Some ka → ka ∉ R →
  nearest_survivor R idp x a.
Proof.
  induction fuel as [|fuel IH]; intros x seen a ka; simpl;
    destruct (to_key (parent_of idp x)) as [kp|] eqn:Hkp; try done;
    case_bool_decide as HR;
    try (intros [= <-] ? ?; by eapply nearest_parent);
    case_bool_decide as Hseen; try done;
    try (intros [= <-] ? ?; congruence).
  intros Hwalk Hka Hout. apply nearest_skip with kp; [done|]. by eapply IH.
Qed.

(** A record that has a nearest survivor is on no cycle of removed
    records, and neither is any removed record above it. *)
Lemma no_cycle_of_nearest R idp k a :
  nearest_survivor R idp k a →
  ∀ z, rtc (removed_parent R idp) k z → ¬ tc (removed_parent R idp) z z.
Proof.
  induction 1 as [k a ka Ha Hka Hout|k kp a Hstep Hnear IH]; intros z Hz.
  - assert (Hstuck : ∀ y, ¬ removed_parent R idp k y).
    { intros y [Hy HR]. rewrite Ha, Hka in Hy. congruence. }
    apply rtc_inv in Hz as [<-|(y & Hy & _)]; [|by apply Hstuck in Hy].
    intros Htc. inversion Htc as [? y Hy|? y ? Hy _]; subst;
      by apply Hstuck in Hy.
  - apply rtc_inv in Hz as [<-|(y & Hy & Hrest)].
    + intros Htc. apply (IH k); [|done].
      inversion Htc as [? y Hy|? y ? Hy Hyk]; subst;
        rewrite (removed_parent_det _ _ _ _ _ Hstep Hy); [done|].
      by apply tc_rtc.
    + apply IH. by rewrite (removed_parent_det _ _ _ _ _ Hstep Hy).
Qed.

Lemma acyclic_by_remap R idp :
  forallb (remap_finds_survivor R idp) (elements R) = true →
  ∀ x, x ∈ R → ¬ tc (removed_parent R idp) x x.
Proof.
  intros Hall x Hx.
  assert (Hfound : remap_finds_survivor R idp x = true).
  { rewrite forallb_forall in Hall. apply Hall.
    by apply list_elem_of_In, elem_of_elements. }
  unfold remap_finds_survivor in Hfound.
  destruct (remap R idp x) as [| |a] eqn:Hremap; try done.
  destruct (to_key a) as [ka|] eqn:Hka; [|done].
  apply bool_decide_eq_true_1 in Hfound.
  eapply no_cycle_of_nearest; [|done].
  by eapply walk_outside_nearest.
Qed.

(** The part of the poisoned-id closure that the passes establish: a
    poisoned id comes from a removed broken assistant, and a record
    whose tool-result id is poisoned is removed. *)
Lemma poisoned_closure_tool_results es d idp :
  analysis_of es d (poisoned_ids d) idp →
  (∀ t, t ∈ poisoned_ids d →
        ∃ o tcs k, decoded_in es o ∧ is_broken_assistant o = Some true ∧
                   extract_tool_call_ids o = Some tcs ∧ t ∈ tcs ∧
                   id_key o = Some k ∧ k ∈ Report.remove_ids d) ∧
  (∀ o k, decoded_in es o →
          is_orphan_result (poisoned_ids d) o = Some true →
          id_key o = Some k → k ∈ Report.remove_ids d).
Proof.
  intros (Hrm & Hpo & _ & Hidp & _).
  apply id_to_parent_of_spec in Hidp as [Hdec _]. split.
  - intros t (o & tcs & Ho & Hb & Htcs & Ht)%Hpo.
    destruct (Hdec o Ho) as (k & p & Hk & _).
    exists o, tcs, k. split_and!; try done.
    apply Hrm. exists o. by auto.
  - intros o k Ho Hor Hk. apply Hrm. exists o. by auto.
Qed.

End Engine.

(** ** Iteration orders *)

Lemma elements_order (s : gset hkey) : elements s ≡ₚ elements s.
Proof. reflexivity. Qed.

Lemma reverse_order (s : gset hkey) : reverse (elements s) ≡ₚ elements s.
Proof. apply reverse_Permutation. Qed.

(** C7, amended. An assistant record with empty content whose error
    message contains the words [tool_use_id] and mentions a poisoned
    tool-call id is listed as a cascade error and is in the removal set,
    under every order in which the poisoned ids are tried. *)
Theorem cascade_error_removed loads order order' file es d d' o m err t :
  (∀ s, order s ≡ₚ elements s) → (∀ s, order' s ≡ₚ elements s) →
  parse_jsonl loads file = Some es →
  analyze_session loads order file = Some (Report.Corrupted d) →
  analyze_session loads order' file = Some (Report.Corrupted d') →
  decoded_in es o →
  message_of o = Some m →
  dict_get m "role" JNull = JStr "assistant" →
  is_empty_content (dict_get m "content" (JArr [])) = true →
  dict_get m "errorMessage" (JStr "") = JStr err →
  str_contains "tool_use_id" err = true →
  HStr t ∈ poisoned_ids d → str_contains t err = true →
  ∃ k, id_key o = Some k ∧
       k ∈ Report.cascade_errors d ∧ k ∈ Report.remove_ids d ∧
       k ∈ Report.cascade_errors d' ∧ k ∈ Report.remove_ids d'.
Proof.
  intros Hord Hord' Hes Ha Ha' Ho Hm Hrole Hcontent Herr Hmark Ht Hmention.
  rewrite (analyze_session_entries _ _ _ _ Hes) in Ha.
  rewrite (analyze_session_entries _ _ _ _ Hes) in Ha'.
  destruct (analyze_entries_report _ _ _ Ha) as (idp & Han).
  destruct (analyze_entries_report _ _ _ Ha') as (idp' & Han').
  assert (Ht' : HStr t ∈ poisoned_ids d').
  { destruct Han as (_ & Hp & _). destruct Han' as (_ & Hp' & _).
    apply Hp'. by apply Hp. }
  destruct (cascade_classified _ Hord _ _ _ _ _ _ _ Han Ho Hm Hrole Hcontent
              Herr Hmark Ht Hmention) as (k & Hk & Hce & Hrm).
  destruct (cascade_classified _ Hord' _ _ _ _ _ _ _ Han' Ho Hm Hrole Hcontent
              Herr Hmark Ht' Hmention) as (k' & Hk' & Hce' & Hrm').
  assert (k' = k) as -> by congruence.
  exists k. by split_and!.
Qed.

(** * Further properties of the helpers, the report, the repair loop
      and [main] *)

Section Coverage.

Set Default Proof Using "Type".

Variable loads : string → loaded.
Variable dumps : json → string.
Variable set_order : gset hkey → list hkey.
Hypothesis set_order_perm : ∀ s, set_order s ≡ₚ elements s.

(** The operating system, as [main] sees it. *)
Variable isdir isfile : string → bool.
Variable glob_jsonl : string → list string.
Variable discover_session_files : bool → list string.
Variable now : string → string.

Ltac hide_params :=
  try clear set_order_perm; try clear dumps; try clear loads;
  try clear set_order; try clear isdir; try clear isfile;
  try clear glob_jsonl; try clear discover_session_files; try clear now.
Ltac nsolve := hide_params; naive_solver.
Ltac ssolve := hide_params; set_solver.

(** ** Reading a session file *)

Lemma parse_from_member i ls : ∀ es n obj raw,
  parse_from loads i ls = Some es →
  i ≤ n → ls !! (n - i) = Some raw → raw ≠ "" → decode loads raw = Some obj →
  (n, obj, raw) ∈ es.
Proof.
  revert i. induction ls as [|l ls IH]; intros i es n obj raw Hes Hle Hl Hne Hd;
    [done|].
  destruct (decide (n = i)) as [->|Hni].
  - rewrite Nat.sub_diag in Hl. injection Hl as ->.
    apply parse_from_cons_inv in Hes
      as [[-> _]|(_ & obj' & es' & Hd' & _ & ->)]; [done|].
    assert (obj' = obj) as -> by congruence. apply list_elem_of_here.
  - replace (n - i) with (S (n - S i)) in Hl by lia.
    apply parse_from_cons_inv in Hes
      as [[-> Hes]|(_ & obj' & es' & _ & Hes & ->)].
    + eapply IH; [done|lia|done..].
    + apply list_elem_of_further. eapply IH; [done|lia|done..].
Qed.

Lemma parse_from_numbers i ls : ∀ es,
  parse_from loads i ls = Some es →
  Forall (λ n, i ≤ n) (line_numbers es) ∧ StronglySorted lt (line_numbers es).
Proof.
  revert i. induction ls as [|l ls IH]; intros i es.
  { intros [= <-]. split; constructor. }
  assert (Hrec : ∀ es', parse_from loads (S i) ls = Some es' →
            Forall (λ n, i ≤ n) (line_numbers es') ∧
            Forall (λ n, i < n) (line_numbers es') ∧
            StronglySorted lt (line_numbers es')).
  { intros es' [Hge Hsorted]%IH. split_and!; [| |done];
      (eapply Forall_impl; [exact Hge|]); simpl; lia. }
  intros [[-> Hes]|(_ & obj & es' & _ & Hes & ->)]%parse_from_cons_inv.
  - by destruct (Hrec _ Hes) as (? & _ & ?).
  - destruct (Hrec _ Hes) as (Hge & Hgt & Hsorted).
    unfold line_numbers in *. rewrite fmap_cons. simpl. split.
    + by constructor.
    + by constructor.
Qed.

Lemma decode_None raw : decode loads raw = None ↔ loads raw = LoadsRaised.
Proof. unfold decode. destruct (loads raw) as [[]| |]; split; done. Qed.

Lemma parse_from_None i ls :
  parse_from loads i ls = None ↔
  ∃ raw, raw ∈ ls ∧ raw ≠ "" ∧ loads raw = LoadsRaised.
Proof.
  revert i. induction ls as [|l ls IH]; intros i.
  { split; [done|]. by intros (raw & ?%elem_of_nil & _). }
  rewrite parse_from_cons. destruct (String.eqb_spec l "") as [->|Hne].
  { rewrite IH. split.
    - intros (raw & Hin & Hraw). exists raw. split; [|done].
      by apply list_elem_of_further.
    - intros (raw & [->|Hin]%elem_of_cons & Hraw & Hl); [done|]. by eauto. }
  destruct (decode loads l) as [obj|] eqn:Hd; simpl.
  - destruct (parse_from loads (S i) ls) as [es|] eqn:Hes; simpl.
    + split; [done|].
      intros (raw & [->|Hin]%elem_of_cons & Hraw & Hl).
      * apply decode_None in Hl. congruence.
      * assert (Hnone : parse_from loads (S i) ls = None)
          by (apply IH; by eauto).
        congruence.
    + split; [|done]. intros _.
      destruct (proj1 (IH (S i)) Hes) as (raw & Hin & Hraw).
      exists raw. split; [|done]. by apply list_elem_of_further.
  - split; [|done]. intros _. exists l. split; [apply list_elem_of_here|].
    split; [done|]. by apply decode_None.
Qed.

(** X1. Reading a file raises when its bytes are not UTF-8 or the
    decoder raises another error than a syntax error on a non-empty
    line, and only then.  Otherwise the entries are the non-empty lines
    of the file, in the order of the file: an entry carries the number
    of its line, counted from 1 with the blank lines included, the text
    of the line without its line end (LF, CR LF or CR), and what the text
    decodes to. *)
Theorem parse_jsonl_entries file :
  (parse_jsonl loads file = None ↔
   utf8_valid file = false ∨
   ∃ raw, raw ∈ file_lines file ∧ raw ≠ "" ∧ loads raw = LoadsRaised) ∧
  (∀ es, parse_jsonl loads file = Some es →
     (∀ n obj raw,
        (n, obj, raw) ∈ es ↔
        1 ≤ n ∧ file_lines file !! (n - 1) = Some raw ∧ raw ≠ "" ∧
        decode loads raw = Some obj) ∧
     Forall (λ e : entry, no_newline e.2 = true) es ∧
     StronglySorted lt (line_numbers es)).
Proof.
  split.
  - unfold parse_jsonl. destruct (utf8_valid file).
    + rewrite parse_from_None. split; [by right|]. by intros [?|?].
    + split; [by left|done].
  - intros es Hes. pose proof (parse_jsonl_wf _ _ _ Hes) as Hwf.
    apply parse_jsonl_Some in Hes as [_ Hes]. split_and!.
    + intros n obj raw. split.
      * intros Hin. destruct (parse_from_line _ _ _ _ _ _ _ Hes Hin) as [Hle Hl].
        by destruct (parse_from_elem _ _ _ _ _ _ _ Hes Hin) as (Hobj & _ & Hne).
      * intros (Hle & Hl & Hne & Hd). by eapply parse_from_member.
    + eapply Forall_impl; [exact Hwf|]. by intros e (_ & _ & ?).
    + by eapply parse_from_numbers.
Qed.

Lemma parse_from_imap i ls :
  Forall (λ l, l ≠ "") ls →
  parse_from loads i ls = objs ← mapM (decode loads) ls; Some (numbered i ls objs).
Proof.
  revert i. induction ls as [|l ls IH]; intros i Hls; [done|].
  inversion Hls as [|? ? Hl Hrest]; subst. rewrite parse_from_cons.
  apply String.eqb_neq in Hl as ->. cbn [mapM].
  destruct (decode loads l) as [obj|]; simpl; [|done].
  rewrite IH by done.
  destruct (mapM (decode loads) ls) as [objs|]; simpl; [|done].
  unfold numbered. simpl. rewrite Nat.add_0_r. do 2 f_equal.
  apply imap_ext. intros j x _. simpl. by rewrite Nat.add_succ_r.
Qed.

(** X2. What the repair writes is read back line for line: when no
    written line is empty or holds a line end (LF or CR), and every
    written line is UTF-8, the file ["\n".join(output) + "\n"] is read
    as one entry per written line, numbered from 1 in the order of
    [output]; reading it raises exactly when the decoder raises on one of
    the lines. *)
Theorem written_lines_read_back output :
  Forall (λ l, no_newline l = true) output → Forall (λ l, l ≠ "") output →
  Forall (λ l, utf8_valid l = true) output →
  parse_jsonl loads (join_lines output +:+ String LF "")
  = objs ← mapM (decode loads) output; Some (numbered 1 output objs).
Proof.
  intros Hlf Hne Hvalid.
  rewrite parse_jsonl_join by (done || by apply join_lines_valid).
  by rewrite parse_from_imap.
Qed.

Lemma parse_from_count i ls : ∀ es,
  parse_from loads i ls = Some es →
  length es = length (List.filter (λ l, negb (String.eqb l "")) ls).
Proof.
  revert i. induction ls as [|l ls IH]; intros i es; [by intros [= <-]|].
  intros [[-> Hes]|(Hne & obj & es' & _ & Hes & ->)]%parse_from_cons_inv; simpl.
  - by eapply IH.
  - apply String.eqb_neq in Hne as ->. simpl. f_equal. by eapply IH.
Qed.

Lemma analyze_entries_lines es r :
  analyze_entries set_order es = Some r → Report.line_count r = length es.
Proof.
  destruct r as [n|d]; simpl.
  - by intros ->%analyze_entries_Clean.
  - intros (poisoned & idp & Ha)%analyze_entries_Corrupted.
    by destruct Ha as (_ & _ & _ & _ & _ & _ & _ & _ & Hl & _).
Qed.

(** X3. The [lines] field of a report counts the non-empty lines of the
    file, not its physical lines; a line ends at LF, CR LF or CR. *)
Theorem report_counts_nonblank_lines file r :
  analyze_session loads set_order file = Some r →
  Report.line_count r
  = length (List.filter (λ l, negb (String.eqb l "")) (file_lines file)).
Proof.
  intros (es & [_ Hes]%parse_jsonl_Some & Ha)%analyze_session_Some.
  rewrite (analyze_entries_lines _ _ Ha). by eapply parse_from_count.
Qed.

(** ** Records that make the scan raise *)

Lemma foldM_raise {S A} (step : S → A → option S) x l :
  x ∈ l → (∀ st, step st x = None) → ∀ st, foldM step st l = None.
Proof.
  intros Hx Hstep. induction l as [|y l IH]; intros st; [by apply elem_of_nil in Hx|].
  simpl. apply elem_of_cons in Hx as [<-|Hx]; [by rewrite Hstep|].
  destruct (step st y); simpl; [by apply IH|done].
Qed.

(** What a run of [analyze_session] that returns went through. *)
Lemma analyze_entries_inv es r :
  analyze_entries set_order es = Some r → es ≠ [] →
  ∃ st1 st2 st3 valid,
    foldM pass1_step scan0 es = Some st1 ∧
    foldM pass2_step st1 es = Some st2 ∧
    foldM (pass3_step set_order) st2 es = Some st3 ∧
    extract_all_tool_call_ids es = Some valid ∧
    ((collected st3 = ∅ ∧ unparseable_of es = [] ∧
      r = Report.Clean (length es)) ∨
     ((collected st3 ≠ ∅ ∨ unparseable_of es ≠ []) ∧
      ∃ idp fixes ba ors ce btc,
        id_to_parent_of es = Some idp ∧
        foldM (parent_fixes_step (collected st3) idp) ∅
              (set_order (collected st3)) = Some fixes ∧
        py_sorted (broken_assistant_ids st3) = Some ba ∧
        py_sorted (orphan_result_ids st3) = Some ors ∧
        py_sorted (cascade_error_ids st3) = Some ce ∧
        py_sorted (broken_tool_call_ids st3) = Some btc ∧
        r = Report.Corrupted
              (Report.Details (length es) ba ors ce (unparseable_of es)
                 (collected st3) (size (collected st3)) fixes
                 (broken_line_map st3) btc (reasons st3)))).
Proof.
  unfold analyze_entries, collected. destruct es as [|e es]; [done|].
  remember (e :: es) as es' eqn:Hes'. clear Hes' e es. intros Hr _.
  destruct (foldM pass1_step scan0 es') as [st1|] eqn:E1; simpl in Hr; [|done].
  destruct (foldM pass2_step st1 es') as [st2|] eqn:E2; simpl in Hr; [|done].
  destruct (foldM (pass3_step set_order) st2 es') as [st3|] eqn:E3;
    simpl in Hr; [|done].
  destruct (extract_all_tool_call_ids es') as [valid|] eqn:E4;
    simpl in Hr; [|done].
  exists st1, st2, st3, valid. split_and!; try done.
  set (remove := broken_assistant_ids st3 ∪ orphan_result_ids st3
                 ∪ cascade_error_ids st3) in *.
  destruct (bool_decide (remove = ∅) && bool_decide (unparseable_of es' = []))
    eqn:Hclean.
  { apply andb_true_iff in Hclean as [H1%bool_decide_eq_true H2%bool_decide_eq_true].
    left. by simplify_eq. }
  right. split.
  { apply andb_false_iff in Hclean as [Hc|Hc]; apply bool_decide_eq_false in Hc;
      by auto. }
  destruct (id_to_parent_of es') as [idp|] eqn:E5; simpl in Hr; [|done].
  destruct (foldM (parent_fixes_step remove idp) ∅ (set_order remove))
    as [fixes|] eqn:E6; simpl in Hr; [|done].
  destruct (py_sorted (broken_assistant_ids st3)) as [ba|]; simpl in Hr; [|done].
  destruct (py_sorted (orphan_result_ids st3)) as [ors|]; simpl in Hr; [|done].
  destruct (py_sorted (cascade_error_ids st3)) as [ce|]; simpl in Hr; [|done].
  destruct (py_sorted (broken_tool_call_ids st3)) as [btc|]; simpl in Hr; [|done].
  injection Hr as <-. exists idp, fixes, ba, ors, ce, btc. by split_and!.
Qed.

Lemma analyze_entries_pass2_raise es :
  (∀ st, foldM pass2_step st es = None) → es ≠ [] →
  analyze_entries set_order es = None.
Proof.
  intros H Hne. destruct (analyze_entries set_order es) as [r|] eqn:Hr; [|done].
  destruct (analyze_entries_inv _ _ Hr Hne) as (st1 & st2 & _ & _ & _ & H2 & _).
  by rewrite H in H2.
Qed.

Lemma run_file_raise do_fix verbose file :
  analyze_session loads set_order file = None →
  run_file loads dumps set_order do_fix verbose file = file.
Proof. intros Ha. unfold run_file. by rewrite Ha. Qed.

Lemma unscannable_pass2 st n o raw :
  unscannable o = true → pass2_step st (n, Some o, raw) = None.
Proof.
  intros Hbad. unfold pass2_step, get_tool_result_id.
  destruct o as [| | | | |kvs]; try done.
  simpl in *. unfold dict_get.
  destruct (assoc "message" kvs) as [[]|]; try done.
Qed.

(** X4. One decoded line that is not an object (a number, a string, a
    list, a boolean), or whose [message] is present and is not an
    object, makes the scan of the whole file raise; [main] reports the
    error and leaves the file as it is. *)
Theorem unscannable_record_stops_scan file es n o raw do_fix verbose :
  parse_jsonl loads file = Some es →
  (n, Some o, raw) ∈ es → unscannable o = true →
  analyze_session loads set_order file = None ∧
  run_file loads dumps set_order do_fix verbose file = file.
Proof.
  intros Hes Hin Hbad.
  assert (Ha : analyze_session loads set_order file = None).
  { rewrite (analyze_session_entries _ _ _ _ Hes).
    apply analyze_entries_pass2_raise.
    - apply (foldM_raise _ _ _ Hin). intros st. by apply unscannable_pass2.
    - intros Hnil. rewrite Hnil in Hin. by apply elem_of_nil in Hin. }
  split; [done|]. by apply run_file_raise.
Qed.

Lemma analyze_entries_pass1_raise es :
  foldM pass1_step scan0 es = None → es ≠ [] →
  analyze_entries set_order es = None.
Proof.
  intros H Hne. destruct (analyze_entries set_order es) as [r|] eqn:Hr; [|done].
  destruct (analyze_entries_inv _ _ Hr Hne) as (st1 & _ & _ & _ & H1 & _).
  by rewrite H in H1.
Qed.

Lemma analyze_entries_pass3_raise es :
  (∀ st, foldM (pass3_step set_order) st es = None) → es ≠ [] →
  analyze_entries set_order es = None.
Proof.
  intros H Hne. destruct (analyze_entries set_order es) as [r|] eqn:Hr; [|done].
  destruct (analyze_entries_inv _ _ Hr Hne) as (st1 & st2 & st3 & _ & _ & _ & H3 & _).
  by rewrite H in H3.
Qed.

(** A message that holds a key is stored in the record: the default of
    [obj.get("message", ..)] was not used. *)
Lemma message_present o m k v dflt :
  message_of o = Some m → assoc k m = Some v →
  py_get o "message" dflt = Some (JObj m).
Proof.
  unfold message_of. destruct o as [| | | | |kvs]; try done. simpl.
  unfold dict_get. destruct (assoc "message" kvs) as [msg|]; simpl.
  - destruct msg; try done. by intros [= ->].
  - intros [= <-]. done.
Qed.

Lemma dict_get_assoc m k dflt v :
  dict_get m k dflt = v → v ≠ dflt → assoc k m = Some v.
Proof.
  unfold dict_get. destruct (assoc k m); simpl; by intros -> ?.
Qed.

Lemma message_of_get o m :
  message_of o = Some m → py_get o "message" (JObj []) = Some (JObj m).
Proof.
  unfold message_of.
  by destruct (py_get o "message" (JObj [])) as [[]|]; intros [= ->].
Qed.

Lemma assistant_role o m :
  message_of o = Some m → dict_get m "role" JNull = JStr "assistant" →
  get_role o = Some (JStr "assistant").
Proof.
  intros Hm Hrole. unfold get_role.
  rewrite (message_present o m "role" (JStr "assistant") JNull Hm); [|by eapply dict_get_assoc].
  simpl. by rewrite Hrole.
Qed.

(** X5. An assistant record whose [errorMessage] is null makes the
    scan raise, when the record is a broken assistant (pass 1 slices the
    message) or has empty content (the test of pass 3 searches it). *)
Theorem null_error_message_stops_scan file es n o raw m do_fix verbose :
  parse_jsonl loads file = Some es →
  (n, Some o, raw) ∈ es →
  message_of o = Some m →
  dict_get m "role" JNull = JStr "assistant" →
  dict_get m "errorMessage" (JStr "") = JNull →
  (dict_get m "stopReason" JNull = JStr "error" ∧ has_partial_json o = Some true) ∨
  is_empty_content (dict_get m "content" (JArr [])) = true →
  analyze_session loads set_order file = None ∧
  run_file loads dumps set_order do_fix verbose file = file.
Proof.
  intros Hes Hin Hm Hrole Herr Hcase.
  assert (Hne : es ≠ []).
  { intros Hnil. rewrite Hnil in Hin. by apply elem_of_nil in Hin. }
  pose proof (message_of_get _ _ Hm) as Hmsg.
  assert (Ha : analyze_session loads set_order file = None);
    [|split; [done|by apply run_file_raise]].
  rewrite (analyze_session_entries _ _ _ _ Hes).
  destruct Hcase as [[Hstop Hpartial]|Hempty].
  - apply analyze_entries_pass1_raise; [|done].
    apply (foldM_raise _ _ _ Hin). intros st.
    unfold pass1_step. rewrite (assistant_role _ _ Hm Hrole). simpl.
    unfold is_error_assistant. rewrite Hmsg. simpl. rewrite Hstop. simpl.
    rewrite Hpartial. simpl.
    destruct (get_id o) as [oid|]; simpl; [|done].
    destruct (to_key oid) as [k|]; simpl; [|done].
    destruct (extract_tool_call_ids o) as [tcs|]; simpl; [|done].
    simpl. by rewrite Herr.
  - apply analyze_entries_pass3_raise; [|done].
    apply (foldM_raise _ _ _ Hin). intros st.
    unfold pass3_step, is_empty_error_assistant. rewrite Hmsg. simpl.
    rewrite Hrole. simpl. by rewrite Hempty, Herr.
Qed.

(** ** The tests of the three passes *)

Lemma to_key_str v s : to_key v = Some (HStr s) → v = JStr s.
Proof. destruct v as [| [] | | | |]; simpl; by intros [= ->]. Qed.

Lemma tool_result_role role :
  in_set role TOOL_RESULT_ROLES = Some true → eq_str role "assistant" = false.
Proof.
  unfold in_set. destruct (to_key role) as [k|] eqn:Hk; simpl; [|done].
  intros [= Hin%bool_decide_eq_true].
  unfold TOOL_RESULT_ROLES in Hin.
  apply elem_of_union in Hin as [Hin|Hin]; apply elem_of_singleton in Hin;
    subst k; by apply to_key_str in Hk as ->.
Qed.

Lemma tool_result_id_role o v :
  get_tool_result_id o = Some v → truthy v = true →
  ∃ m role, message_of o = Some m ∧ assoc "role" m = Some role ∧
            in_set role TOOL_RESULT_ROLES = Some true.
Proof.
  unfold get_tool_result_id, message_of.
  destruct (py_get o "message" (JObj [])) as [[| | | | |m]|]; simpl; try done.
  destruct (assoc "role" m) as [role|] eqn:Hrole.
  - assert (Hd : dict_get m "role" JNull = role)
      by (unfold dict_get; by rewrite Hrole).
    rewrite Hd.
    destruct (in_set role TOOL_RESULT_ROLES) as [[]|] eqn:Hin; simpl; try done.
    + intros _ _. by exists m, role.
    + by intros [= <-].
  - assert (Hd : dict_get m "role" JNull = JNull)
      by (unfold dict_get; by rewrite Hrole).
    rewrite Hd. simpl. by intros [= <-].
Qed.

(** X6. The three corruption classes exclude one another on a record:
    a broken assistant is neither an orphan tool result nor a cascade
    error, and an orphan tool result is neither of the other two,
    whatever the poisoned ids are. *)
Theorem corruption_classes_exclusive o s s' :
  (is_broken_assistant o = Some true →
   is_orphan_result s o = Some false ∧
   cascade_mention set_order s o = Some None) ∧
  (is_orphan_result s o = Some true →
   is_broken_assistant o = Some false ∧
   cascade_mention set_order s' o = Some None).
Proof.
  split.
  - unfold is_broken_assistant, get_role.
    destruct (py_get o "message" JNull) as [msg|] eqn:Hmsg; simpl; [|done].
    destruct msg as [| | | | |m]; simpl; try done.
    destruct (eq_str (dict_get m "role" JNull) "assistant") eqn:Hrole; [|done].
    simpl.
    assert (Hr : dict_get m "role" JNull = JStr "assistant").
    { destruct (dict_get m "role" JNull); try done. simpl in Hrole.
      by apply String.eqb_eq in Hrole as ->. }
    assert (Hm : py_get o "message" (JObj []) = Some (JObj m)).
    { destruct o as [| | | | |kvs]; try done. simpl in *. unfold dict_get in *.
      destruct (assoc "message" kvs); simpl in *; [done|]. by simplify_eq. }
    destruct (is_error_assistant o) as [[]|]; simpl; try done.
    unfold has_partial_json. rewrite Hm. simpl. intros Hpartial.
    split.
    + unfold is_orphan_result, get_tool_result_id. rewrite Hm. simpl.
      by rewrite Hr.
    + unfold cascade_mention, is_empty_error_assistant. rewrite Hm. simpl.
      rewrite Hr. simpl.
      destruct (dict_get m "content" (JArr [])) as [| | | |[|b bs]|]; try done.
  - unfold is_orphan_result.
    destruct (get_tool_result_id o) as [v|] eqn:Hv; simpl; [|done].
    destruct (truthy v) eqn:Htruthy; [|done]. intros _.
    destruct (tool_result_id_role _ _ Hv Htruthy) as (m & role & Hm & Hrole & Hin).
    pose proof (tool_result_role _ Hin) as Hnot.
    assert (Hd : ∀ d, dict_get m "role" d = role).
    { intros d. unfold dict_get. by rewrite Hrole. }
    split.
    + unfold is_broken_assistant, get_role.
      rewrite (message_present _ _ _ _ JNull Hm Hrole). simpl.
      by rewrite Hd, Hnot.
    + unfold cascade_mention, is_empty_error_assistant.
      rewrite (message_of_get _ _ Hm). simpl. by rewrite Hd, Hnot.
Qed.

(** ** The helpers that read content blocks *)

Lemma truthy_key v k :
  truthy v = true → to_key v = Some k →
  k ≠ HNone ∧ k ≠ HStr "" ∧ k ≠ HInt 0.
Proof.
  destruct v as [|[]|n|t| |]; simpl; try done; intros Ht [= <-];
    split_and!; try done.
  - intros [= ->]. done.
  - intros [= ->]. done.
Qed.

Lemma collect_tool_call_ids_spec blocks : ∀ ids ids',
  collect_tool_call_ids blocks ids = Some ids' →
  ∀ k, k ∈ ids' ↔ k ∈ ids ∨ ∃ block, block ∈ blocks ∧ tool_call_block block k.
Proof.
  induction blocks as [|block blocks IH]; intros ids ids'.
  { intros [= <-] k. split; [by auto|].
    intros [?|(block & ?%elem_of_nil & _)]; done. }
  assert (Hskip : (∀ k, ¬ tool_call_block block k) →
            collect_tool_call_ids blocks ids = Some ids' →
            ∀ k, k ∈ ids' ↔
                 k ∈ ids ∨ ∃ bl, bl ∈ block :: blocks ∧ tool_call_block bl k).
  { intros Hno Hrest k. rewrite (IH _ _ Hrest k). split.
    - intros [?|(bl & ? & ?)]; [by left|right].
      exists bl. split; [by apply list_elem_of_further|done].
    - intros [?|(bl & [->|?]%elem_of_cons & Hbl)]; [by left| |by eauto].
      by apply Hno in Hbl. }
  destruct block as [| | | | |b];
    try (apply Hskip; by intros k (? & ? & [=] & _)).
  simpl. unfold in_set.
  destruct (to_key (dict_get b "type" JNull)) as [ty|] eqn:Hty; simpl; [|done].
  case_bool_decide as Hin.
  2:{ apply Hskip. intros k (b' & ty' & [= <-] & Hty' & Hin' & _). congruence. }
  destruct (truthy (dict_get b "id" (JStr ""))) eqn:Htruthy.
  2:{ apply Hskip. intros k (b' & ty' & [= <-] & _ & _ & Ht' & _). congruence. }
  destruct (to_key (dict_get b "id" (JStr ""))) as [k0|] eqn:Hk0; simpl; [|done].
  intros Hrest k. rewrite (IH _ _ Hrest k), elem_of_union, elem_of_singleton.
  split.
  - intros [[?| ->]|(bl & ? & ?)]; [by left| |].
    + right. exists (JObj b). split; [apply list_elem_of_here|].
      by exists b, ty.
    + right. exists bl. split; [by apply list_elem_of_further|done].
  - intros [?|(bl & [->|?]%elem_of_cons & Hbl)]; [by auto| |by eauto].
    destruct Hbl as (b' & ty' & [= <-] & _ & _ & _ & Hk). left. right. congruence.
Qed.

Lemma content_blocks_get o m :
  py_get o "message" (JObj []) = Some (JObj m) →
  content_blocks o = match dict_get m "content" (JArr []) with
                     | JArr blocks => blocks
                     | _ => []
                     end.
Proof. intros Hm. unfold content_blocks, message_of. by rewrite Hm. Qed.

(** X7. [extract_tool_call_ids] returns the ids of the tool-call
    blocks of the content, and nothing else; no id in the result is
    falsy (null, the empty string, zero), so pass 3 never searches an
    error message for the empty string. *)
Theorem extract_tool_call_ids_spec o ids :
  extract_tool_call_ids o = Some ids →
  (∀ k, k ∈ ids ↔ ∃ block, block ∈ content_blocks o ∧ tool_call_block block k) ∧
  (HNone ∉ ids) ∧ (HStr "" ∉ ids) ∧ (HInt 0 ∉ ids).
Proof.
  intros Hids.
  assert (Hspec : ∀ k, k ∈ ids ↔
            ∃ block, block ∈ content_blocks o ∧ tool_call_block block k).
  { revert Hids. unfold extract_tool_call_ids.
    destruct (py_get o "message" (JObj [])) as [msg|] eqn:Hmsg; simpl; [|done].
    destruct msg as [| | | | |m]; simpl; try done.
    rewrite (content_blocks_get _ _ Hmsg).
    destruct (dict_get m "content" (JArr [])) as [| | | |blocks|];
      try (intros [= <-] k; split;
           [by intros ?%elem_of_empty|by intros (? & ?%elem_of_nil & _)]).
    intros Hc k. rewrite (collect_tool_call_ids_spec _ _ _ Hc k).
    rewrite elem_of_empty. nsolve. }
  split; [done|].
  assert (Hfalsy : ∀ k, k ∈ ids → k ≠ HNone ∧ k ≠ HStr "" ∧ k ≠ HInt 0).
  { intros k (block & _ & b & ty & _ & _ & _ & Ht & Hk)%Hspec.
    by eapply truthy_key. }
  split_and!; intros Hin; apply Hfalsy in Hin; nsolve.
Qed.

Lemma any_partial_json_spec blocks r :
  any_partial_json blocks = Some r →
  r = true ↔
  ∃ b ty, JObj b ∈ blocks ∧ to_key (dict_get b "type" JNull) = Some ty ∧
          ty ∈ TOOL_CALL_TYPES ∧ has_key "partialJson" b = true.
Proof.
  revert r. induction blocks as [|block blocks IH]; intros r.
  { intros [= <-]. split; [done|]. by intros (b & ty & ?%elem_of_nil & _). }
  assert (Hskip : (∀ b ty, block = JObj b →
                     to_key (dict_get b "type" JNull) = Some ty →
                     ty ∈ TOOL_CALL_TYPES → has_key "partialJson" b = false) →
            any_partial_json blocks = Some r →
            r = true ↔
            ∃ b ty, JObj b ∈ block :: blocks ∧
                    to_key (dict_get b "type" JNull) = Some ty ∧
                    ty ∈ TOOL_CALL_TYPES ∧ has_key "partialJson" b = true).
  { intros Hno Hrest. rewrite (IH _ Hrest). split.
    - intros (b & ty & ? & ?). exists b, ty.
      split; [by apply list_elem_of_further|done].
    - intros (b & ty & [<-|?]%elem_of_cons & Hty & Hin & Hp); [|by eauto 6].
      rewrite (Hno b ty eq_refl Hty Hin) in Hp. done. }
  destruct block as [| | | | |b]; try (apply Hskip; by intros).
  simpl. unfold in_set.
  destruct (to_key (dict_get b "type" JNull)) as [ty|] eqn:Hty; simpl; [|done].
  case_bool_decide as Hin; simpl.
  2:{ apply Hskip. intros b' ty' [= <-] Hty' Hin'. congruence. }
  destruct (has_key "partialJson" b) eqn:Hp.
  2:{ apply Hskip. intros b' ty' [= <-] _ _. done. }
  intros [= <-]. split; [|done]. intros _. exists b, ty.
  split; [apply list_elem_of_here|done].
Qed.

(** X8. [has_partial_json] answers True exactly when some tool-call
    block of the content has the key [partialJson]; the value stored
    under the key does not matter, and such a record has a content that
    is not empty. *)
Theorem has_partial_json_spec o r :
  has_partial_json o = Some r →
  (r = true ↔
   ∃ b ty, JObj b ∈ content_blocks o ∧
           to_key (dict_get b "type" JNull) = Some ty ∧
           ty ∈ TOOL_CALL_TYPES ∧ has_key "partialJson" b = true) ∧
  (r = true → content_blocks o ≠ []).
Proof.
  intros Hr.
  assert (Hspec : r = true ↔
            ∃ b ty, JObj b ∈ content_blocks o ∧
                    to_key (dict_get b "type" JNull) = Some ty ∧
                    ty ∈ TOOL_CALL_TYPES ∧ has_key "partialJson" b = true).
  { revert Hr. unfold has_partial_json.
    destruct (py_get o "message" (JObj [])) as [msg|] eqn:Hmsg; simpl; [|done].
    destruct msg as [| | | | |m]; simpl; try done.
    rewrite (content_blocks_get _ _ Hmsg).
    destruct (dict_get m "content" (JArr [])) as [| | | |blocks|];
      try (intros [= <-]; split; [done|by intros (? & ? & ?%elem_of_nil & _)]).
    apply any_partial_json_spec. }
  split; [done|]. intros (b & ty & Hin & _)%Hspec Hnil.
  rewrite Hnil in Hin. by apply elem_of_nil in Hin.
Qed.

Lemma collect_tool_result_ids_spec blocks : ∀ ids ids',
  collect_tool_result_ids blocks ids = Some ids' →
  ∀ k, k ∈ ids' ↔ k ∈ ids ∨ ∃ block, block ∈ blocks ∧ tool_result_block block k.
Proof.
  induction blocks as [|block blocks IH]; intros ids ids'.
  { intros [= <-] k. split; [by auto|].
    intros [?|(block & ?%elem_of_nil & _)]; done. }
  assert (Hskip : (∀ k, ¬ tool_result_block block k) →
            collect_tool_result_ids blocks ids = Some ids' →
            ∀ k, k ∈ ids' ↔
                 k ∈ ids ∨ ∃ bl, bl ∈ block :: blocks ∧ tool_result_block bl k).
  { intros Hno Hrest k. rewrite (IH _ _ Hrest k). split.
    - intros [?|(bl & ? & ?)]; [by left|right].
      exists bl. split; [by apply list_elem_of_further|done].
    - intros [?|(bl & [->|?]%elem_of_cons & Hbl)]; [by left| |by eauto].
      by apply Hno in Hbl. }
  destruct block as [| | | | |b];
    try (apply Hskip; by intros k (? & [=] & _)).
  simpl.
  destruct (eq_str (dict_get b "type" JNull) "tool_result") eqn:Hty.
  2:{ apply Hskip. intros k (b' & [= <-] & Hty' & _).
      rewrite Hty' in Hty. done. }
  destruct (truthy (dict_get b "tool_use_id" (JStr ""))) eqn:Htruthy.
  2:{ apply Hskip. intros k (b' & [= <-] & _ & Ht' & _). congruence. }
  destruct (to_key (dict_get b "tool_use_id" (JStr ""))) as [k0|] eqn:Hk0;
    simpl; [|done].
  assert (Htype : dict_get b "type" JNull = JStr "tool_result").
  { destruct (dict_get b "type" JNull); try done. simpl in Hty.
    by apply String.eqb_eq in Hty as ->. }
  intros Hrest k. rewrite (IH _ _ Hrest k), elem_of_union, elem_of_singleton.
  split.
  - intros [[?| ->]|(bl & ? & ?)]; [by left| |].
    + right. exists (JObj b). split; [apply list_elem_of_here|].
      by exists b.
    + right. exists bl. split; [by apply list_elem_of_further|done].
  - intros [?|(bl & [->|?]%elem_of_cons & Hbl)]; [by auto| |by eauto].
    destruct Hbl as (b' & [= <-] & _ & _ & Hk). left. right. congruence.
Qed.

(** X9. [get_tool_result_ids_from_user] returns the ids of the
    tool_result blocks of a user message, and the empty set for every
    other role. *)
Theorem get_tool_result_ids_from_user_spec o ids :
  get_tool_result_ids_from_user o = Some ids →
  ∃ m, message_of o = Some m ∧
    (dict_get m "role" JNull ≠ JStr "user" → ids = ∅) ∧
    (dict_get m "role" JNull = JStr "user" →
     ∀ k, k ∈ ids ↔
          ∃ block, block ∈ content_blocks o ∧ tool_result_block block k).
Proof.
  unfold get_tool_result_ids_from_user.
  destruct (py_get o "message" (JObj [])) as [msg|] eqn:Hmsg; simpl; [|done].
  destruct msg as [| | | | |m]; simpl; try done.
  intros Hids. exists m. split; [unfold message_of; by rewrite Hmsg|].
  rewrite (content_blocks_get _ _ Hmsg).
  destruct (eq_str (dict_get m "role" JNull) "user") eqn:Hrole; simpl in Hids.
  - split.
    { intros Hne. destruct (dict_get m "role" JNull); try done. simpl in Hrole.
      by apply String.eqb_eq in Hrole as ->. }
    intros _.
    destruct (dict_get m "content" (JArr [])) as [| | | |blocks|];
      try (injection Hids as <-; intros k; split;
           [by intros ?%elem_of_empty|by intros (? & ?%elem_of_nil & _)]).
    intros k. rewrite (collect_tool_result_ids_spec _ _ _ Hids k).
    rewrite elem_of_empty. nsolve.
  - split; [by simplify_eq|]. intros Hr. rewrite Hr in Hrole. done.
Qed.

Lemma extract_all_fold_spec es : ∀ ids ids',
  foldM extract_all_step ids es = Some ids' →
  ∀ t, t ∈ ids' ↔
       t ∈ ids ∨ ∃ o tcs, decoded_in es o ∧ valid_tool_call_ids o = Some tcs ∧
                          t ∈ tcs.
Proof.
  induction es as [|[[n obj] raw] es IH]; intros ids ids'.
  { intros [= <-] t. split; [by auto|].
    intros [?|(o & tcs & []%decoded_in_nil & _)]; done. }
  intros (ids1 & Hstep & Hrest)%foldM_cons_Some t.
  rewrite (IH _ _ Hrest t). setoid_rewrite decoded_in_cons.
  destruct obj as [o|].
  - rewrite extract_all_step_eq in Hstep.
    destruct (valid_tool_call_ids o) as [more|] eqn:Hmore; simpl in Hstep; [|done].
    injection Hstep as <-. rewrite elem_of_union. nsolve.
  - simpl in Hstep. injection Hstep as <-. nsolve.
Qed.

(** X10. The ids that [extract_all_tool_call_ids] calls valid are the
    tool-call ids of the assistant records whose stop reason is not
    [error]; the tool calls of an errored assistant are left out. *)
Theorem extract_all_tool_call_ids_spec es ids :
  extract_all_tool_call_ids es = Some ids →
  ∀ t, t ∈ ids ↔
       ∃ o tcs, decoded_in es o ∧ get_role o = Some (JStr "assistant") ∧
                is_error_assistant o = Some false ∧
                extract_tool_call_ids o = Some tcs ∧ t ∈ tcs.
Proof.
  intros Hids t. rewrite (extract_all_fold_spec _ _ _ Hids t), elem_of_empty.
  assert (Hvalid : ∀ o tcs, t ∈ tcs →
            valid_tool_call_ids o = Some tcs ↔
            get_role o = Some (JStr "assistant") ∧
            is_error_assistant o = Some false ∧
            extract_tool_call_ids o = Some tcs).
  { intros o tcs Ht. unfold valid_tool_call_ids, is_error_assistant.
    destruct (get_role o) as [role|]; simpl; [|nsolve].
    destruct (eq_str role "assistant") eqn:Hrole; simpl.
    - assert (role = JStr "assistant") as ->.
      { destruct role; try done. simpl in Hrole.
        by apply String.eqb_eq in Hrole as ->. }
      destruct (py_get o "message" (JObj [])) as [msg|]; simpl; [|nsolve].
      destruct (py_get msg "stopReason" JNull) as [stop|]; simpl; [|nsolve].
      destruct (eq_str stop "error"); [|nsolve].
      split; [|nsolve]. intros [= <-]. by apply elem_of_empty in Ht.
    - split.
      + intros [= <-]. by apply elem_of_empty in Ht.
      + intros ([= ->] & _). done. }
  split.
  - intros [[]|(o & tcs & Ho & Hv & Ht)]. exists o, tcs.
    apply (Hvalid o tcs Ht) in Hv. nsolve.
  - intros (o & tcs & Ho & Hr & He & Hx & Ht). right. exists o, tcs.
    split; [done|]. split; [|done]. by apply (Hvalid o tcs Ht).
Qed.

(** ** The report of a corrupted session, field by field *)

Lemma foldM_invariant {S A} (P : S → Prop) (step : S → A → option S) l :
  (∀ st x st', x ∈ l → P st → step st x = Some st' → P st') →
  ∀ st st', P st → foldM step st l = Some st' → P st'.
Proof.
  induction l as [|x l IH]; intros Hstep st st' HP; [by intros [= <-]|].
  intros (st1 & Hx & Hrest)%foldM_cons_Some.
  apply (IH (λ st x st' Hin, Hstep st x st' (list_elem_of_further _ _ _ Hin))
            st1 st'); [|done].
  eapply Hstep; [apply list_elem_of_here|done|done].
Qed.

Lemma lines_known_add es st st' n o raw k :
  (n, Some o, raw) ∈ es → id_key o = Some k → lines_known es st →
  broken_line_map st' = <[ k := n ]> (broken_line_map st) →
  (∃ r, reasons st' = <[ k := r ]> (reasons st)) →
  collected st' = collected st ∪ {[ k ]} →
  lines_known es st'.
Proof.
  intros Hin Hk (Hlm & Hrs & Hline) Hlm' [r Hrs'] Hc'.
  unfold lines_known. rewrite Hlm', Hrs', Hc', !dom_insert_L, Hlm, Hrs.
  split_and!; [ssolve|ssolve|].
  intros k' n' Hl. rewrite lookup_insert in Hl. case_decide.
  - simplify_eq. by eauto.
  - by apply Hline.
Qed.

Lemma lines_known_scan0 es : lines_known es scan0.
Proof.
  unfold lines_known, collected. simpl. rewrite !dom_empty_L.
  split_and!; [ssolve|ssolve|]. intros k n Hl. by rewrite lookup_empty in Hl.
Qed.

Lemma pass1_lines es st e st' :
  e ∈ es → lines_known es st → pass1_step st e = Some st' → lines_known es st'.
Proof.
  destruct e as [[n [o|]] raw]; intros Hin Hst Hstep;
    [|simpl in Hstep; by simplify_eq].
  apply pass1_step_inv in Hstep as [[_ ->]|(_ & k & tcs & err & Hk & _ & ->)];
    [done|].
  eapply lines_known_add; try done; [by eauto|].
  unfold collected. simpl. ssolve.
Qed.

Lemma pass2_lines es st e st' :
  e ∈ es → lines_known es st → pass2_step st e = Some st' → lines_known es st'.
Proof.
  destruct e as [[n [o|]] raw]; intros Hin Hst Hstep;
    [|simpl in Hstep; by simplify_eq].
  apply pass2_step_inv in Hstep as [[_ ->]|(_ & k & tr & Hk & ->)]; [done|].
  eapply lines_known_add; try done; [by eauto|].
  unfold collected. simpl. ssolve.
Qed.

Lemma pass3_lines es st e st' :
  e ∈ es → lines_known es st → pass3_step set_order st e = Some st' →
  lines_known es st'.
Proof.
  destruct e as [[n [o|]] raw]; intros Hin Hst Hstep;
    [|simpl in Hstep; by simplify_eq].
  apply pass3_step_inv in Hstep as [[_ ->]|(tc & k & _ & Hk & ->)]; [done|].
  eapply lines_known_add; try done; [by eauto|].
  unfold collected. simpl. ssolve.
Qed.

Lemma passes_lines es st1 st2 st3 :
  foldM pass1_step scan0 es = Some st1 →
  foldM pass2_step st1 es = Some st2 →
  foldM (pass3_step set_order) st2 es = Some st3 →
  lines_known es st3.
Proof.
  intros H1 H2 H3.
  eapply (foldM_invariant (lines_known es)); [|
    eapply (foldM_invariant (lines_known es)); [|
      eapply (foldM_invariant (lines_known es)); [|apply lines_known_scan0|exact H1]
    |exact H2] |exact H3].
  - intros st x st' Hx. by apply pass3_lines.
  - intros st x st' Hx. by apply pass2_lines.
  - intros st x st' Hx. by apply pass1_lines.
Qed.

Lemma py_sorted_perm s l : py_sorted s = Some l → l ≡ₚ elements s.
Proof.
  unfold py_sorted. destruct (_ || _); [|done]. intros [= <-].
  apply merge_sort_Permutation.
Qed.

Lemma py_sorted_length s l : py_sorted s = Some l → length l = size s.
Proof. intros ->%py_sorted_perm. done. Qed.

Lemma py_sorted_NoDup s l : py_sorted s = Some l → NoDup l.
Proof. intros ->%py_sorted_perm. apply NoDup_elements. Qed.

Lemma size_union_le (X Y : gset hkey) : size (X ∪ Y) ≤ size X + size Y.
Proof.
  rewrite size_union_alt.
  assert (size (Y ∖ X) ≤ size Y) by (apply subseteq_size; ssolve). lia.
Qed.

(** The fields of a corrupted report, read off the run that built it. *)
Lemma analyze_entries_fields es d :
  analyze_entries set_order es = Some (Report.Corrupted d) →
  dom (Report.line_map d) = Report.remove_ids d ∧
  dom (Report.reasons d) = Report.remove_ids d ∧
  dom (Report.parent_fixes d) = Report.remove_ids d ∧
  Report.remove_count d = size (Report.remove_ids d) ∧
  (∀ k n, Report.line_map d !! k = Some n →
          ∃ o raw, (n, Some o, raw) ∈ es ∧ id_key o = Some k) ∧
  list_to_set (Report.broken_assistants d ++ Report.orphan_results d
               ++ Report.cascade_errors d) = Report.remove_ids d ∧
  NoDup (Report.broken_assistants d) ∧ NoDup (Report.orphan_results d) ∧
  NoDup (Report.cascade_errors d) ∧ NoDup (Report.broken_tool_call_ids d) ∧
  Report.remove_count d
  ≤ length (Report.broken_assistants d) + length (Report.orphan_results d)
    + length (Report.cascade_errors d).
Proof using Type set_order_perm.
  intros Ha.
  assert (Hne : es ≠ []) by (intros ->; done).
  destruct (analyze_entries_inv _ _ Ha Hne)
    as (st1 & st2 & st3 & valid & H1 & H2 & H3 & _ & [(_ & _ & [=])|(_ & Hd)]).
  destruct Hd as (idp & fixes & ba & ors & ce & btc & _ & Hfix & Hba & Hors
                  & Hce & Hbtc & [= ->]). simpl.
  destruct (passes_lines _ _ _ _ H1 H2 H3) as (Hlm & Hrs & Hline).
  split_and!; try done.
  - apply set_eq. intros k. rewrite elem_of_dom.
    destruct (parent_fixes_fold _ _ _ _ _ Hfix k) as [Hin Hout].
    rewrite (set_order_elem _ set_order_perm) in Hin, Hout.
    destruct (decide (k ∈ collected st3)) as [Hk|Hk].
    + destruct (Hin Hk) as (a & _ & ->). by split; [|eauto].
    + rewrite (Hout Hk), lookup_empty. split; [by intros [? ?]|done].
  - rewrite !list_to_set_app_L.
    rewrite (py_sorted_set _ _ Hba), (py_sorted_set _ _ Hors),
      (py_sorted_set _ _ Hce). unfold collected. ssolve.
  - by eapply py_sorted_NoDup.
  - by eapply py_sorted_NoDup.
  - by eapply py_sorted_NoDup.
  - by eapply py_sorted_NoDup.
  - rewrite (py_sorted_length _ _ Hba), (py_sorted_length _ _ Hors),
      (py_sorted_length _ _ Hce). unfold collected.
    pose proof (size_union_le (broken_assistant_ids st3 ∪ orphan_result_ids st3)
                  (cascade_error_ids st3)).
    pose proof (size_union_le (broken_assistant_ids st3) (orphan_result_ids st3)).
    lia.
Qed.

(** X11. In the report of a corrupted session the maps [line_map],
    [reasons] and [parent_fixes] have exactly the removed ids as keys,
    [remove_count] is their number, and the line stored for an id is the
    line of a decoded record of the file with that id. *)
Theorem report_maps_keyed_by_removed_ids file es d :
  parse_jsonl loads file = Some es →
  analyze_session loads set_order file = Some (Report.Corrupted d) →
  dom (Report.line_map d) = Report.remove_ids d ∧
  dom (Report.reasons d) = Report.remove_ids d ∧
  dom (Report.parent_fixes d) = Report.remove_ids d ∧
  Report.remove_count d = size (Report.remove_ids d) ∧
  (∀ k n, Report.line_map d !! k = Some n →
          ∃ o raw, (n, Some o, raw) ∈ es ∧ id_key o = Some k).
Proof using Type set_order_perm.
  intros Hes Ha. rewrite (analyze_session_entries _ _ _ _ Hes) in Ha.
  apply analyze_entries_fields in Ha as (H1 & H2 & H3 & H4 & H5 & _). done.
Qed.

(** X12. The three id lists of a report have no duplicates and
    together hold exactly the removed ids; an id can be in more than one
    list, so [remove_count] is at most the sum of their lengths. *)
Theorem report_lists_cover_removed_ids file d :
  analyze_session loads set_order file = Some (Report.Corrupted d) →
  list_to_set (Report.broken_assistants d ++ Report.orphan_results d
               ++ Report.cascade_errors d) = Report.remove_ids d ∧
  NoDup (Report.broken_assistants d) ∧ NoDup (Report.orphan_results d) ∧
  NoDup (Report.cascade_errors d) ∧ NoDup (Report.broken_tool_call_ids d) ∧
  Report.remove_count d
  ≤ length (Report.broken_assistants d) + length (Report.orphan_results d)
    + length (Report.cascade_errors d).
Proof using Type set_order_perm.
  intros (es & _ & Ha)%analyze_session_Some.
  apply analyze_entries_fields in Ha as (_ & _ & _ & _ & _ & H). done.
Qed.

(** ** The summary of a dry run *)

#[local] Instance line_le_total : Total line_le.
Proof. intros a b. unfold line_le. lia. Qed.

Lemma lines_by_number (m : gmap hkey nat) :
  let by_line := merge_sort line_le (map_to_list m) in
  Sorted le (by_line.*2) ∧ length (by_line.*2) = size (dom m) ∧
  (∀ n, n ∈ by_line.*2 ↔ ∃ k, m !! k = Some n) ∧
  (∀ p, p ∈ by_line → p.1 ∈ dom m).
Proof.
  intros by_line. split_and!.
  - apply (Sorted_fmap snd line_le le); [by intros ? ?|].
    apply Sorted_merge_sort. apply _.
  - rewrite length_fmap. unfold by_line.
    rewrite merge_sort_Permutation, length_map_to_list. symmetry.
    apply size_dom.
  - intros n. rewrite list_elem_of_fmap. unfold by_line. split.
    + intros ([k n'] & -> & Hin). rewrite merge_sort_Permutation in Hin.
      apply elem_of_map_to_list in Hin. by exists k.
    + intros [k Hk]. exists (k, n). split; [done|].
      rewrite merge_sort_Permutation. by apply elem_of_map_to_list.
  - intros [k n] Hin. unfold by_line in Hin.
    rewrite merge_sort_Permutation in Hin.
    apply elem_of_map_to_list in Hin. simpl. apply elem_of_dom. by eauto.
Qed.

Lemma details_lines {B} (rs : gmap hkey B) (l : list (hkey * nat)) :
  (∀ p, p ∈ l → p.1 ∈ dom rs) →
  (omap (λ p : hkey * nat, pair p.2 <$> rs !! p.1) l).*1 = l.*2.
Proof.
  induction l as [|p l IH]; intros Hl; [done|]. simpl.
  destruct (proj1 (elem_of_dom rs p.1) (Hl p (list_elem_of_here _ _))) as [r ->].
  simpl. f_equal. apply IH. intros q Hq. apply Hl. by apply list_elem_of_further.
Qed.

(** X13. The summary of a dry run agrees with itself and with the
    file: the file is not changed, the list of lines to remove has
    [remove_count] line numbers in ascending order, each the number of a
    decoded line whose id is removed, there are as many parent fixes as
    removed ids, and the verbose details have one line per listed line. *)
Theorem dry_run_summary_consistent file es d verbose file' total nb no nc unp
    rc lines_info poisoned nfix details :
  parse_jsonl loads file = Some es →
  analyze_session loads set_order file = Some (Report.Corrupted d) →
  fix_session loads dumps set_order file (Report.Corrupted d) true verbose
  = (file', Some (WouldFix total nb no nc unp rc lines_info poisoned nfix
                    details)) →
  file' = file ∧
  total = length es ∧
  rc = size (Report.remove_ids d) ∧ length lines_info = rc ∧ nfix = rc ∧
  rc ≤ nb + no + nc ∧
  Sorted le lines_info ∧
  (∀ n, n ∈ lines_info →
        ∃ o raw k, (n, Some o, raw) ∈ es ∧
                   id_key o = Some k ∧ k ∈ Report.remove_ids d) ∧
  details.*1 = (if verbose then lines_info else []).
Proof using Type set_order_perm.
  intros Hes Ha Hfix. pose proof Ha as Ha'.
  rewrite (analyze_session_entries _ _ _ _ Hes) in Ha'.
  pose proof (analyze_entries_lines _ _ Ha') as Hlen. simpl in Hlen.
  destruct (analyze_entries_fields _ _ Ha')
    as (Hlm & Hrs & Hpf & Hrc & Hline & _ & _ & _ & _ & _ & Hsum).
  destruct (lines_by_number (Report.line_map d)) as (Hsorted & Hl & Hmem & Hdom).
  unfold fix_session in Hfix. simpl in Hfix.
  destruct (mapM key_string (Report.broken_tool_call_ids d)) as [names|];
    simpl in Hfix; [|by simplify_eq].
  injection Hfix as <- <- <- <- <- <- <- <- <- <- <-.
  split_and!; try done.
  - by rewrite Hl, Hlm.
  - by rewrite Hrc, <- Hpf, size_dom.
  - intros n [k Hk]%Hmem. destruct (Hline k n Hk) as (o & raw & Hin & Hid).
    exists o, raw, k. split_and!; try done. rewrite <- Hlm. apply elem_of_dom.
    by eauto.
  - destruct verbose; [|done]. apply details_lines. intros p Hp.
    rewrite Hrs, <- Hlm. by apply Hdom.
Qed.

Lemma remove_ids_empty (d : Report.details) :
  (∀ k, k ∉ Report.remove_ids d) → Report.remove_ids d = ∅.
Proof. intros H. apply set_eq. intros k. split; [by intros ?%H|by intros ?%elem_of_empty]. Qed.

(** X14. Orphan tool results and cascade errors are found only beside
    a broken assistant of the same file: when no decoded record is a
    broken assistant, nothing is marked for removal, and the session is
    reported corrupted only if it has an unparseable line. *)
Theorem no_broken_assistant_nothing_removed file es r :
  parse_jsonl loads file = Some es →
  analyze_session loads set_order file = Some r →
  (∀ o, decoded_in es o → is_broken_assistant o = Some false) →
  r = Report.Clean (length es) ∨
  ∃ d, r = Report.Corrupted d ∧ Report.remove_ids d = ∅ ∧
       Report.broken_tool_call_ids d = [] ∧ Report.unparseable_lines d ≠ [].
Proof using Type set_order_perm.
  intros Hes Ha Hnone. rewrite (analyze_session_entries _ _ _ _ Hes) in Ha.
  destruct r as [n|d].
  { left. by rewrite (analyze_entries_Clean _ _ _ Ha). }
  right. exists d. split; [done|].
  destruct (analyze_entries_Corrupted _ _ _ Ha) as (poisoned & idp & Han).
  destruct Han as (Hrm & Hpo & Hok & _ & _ & Hsorted & _ & Hu & _ & _ & Hne).
  assert (Hp : poisoned = ∅).
  { apply set_eq. intros t. rewrite Hpo. split; [|by intros ?%elem_of_empty].
    intros (o & tcs & Ho & Hb & _). rewrite (Hnone o Ho) in Hb. done. }
  subst poisoned.
  assert (HR : Report.remove_ids d = ∅).
  { apply remove_ids_empty. intros k (o & Ho & _ & Hclass)%Hrm.
    destruct (Hok o Ho) as (_ & Hor & Hca & _).
    rewrite (Hnone o Ho), (orphan_empty _ _ Hor),
      (cascade_empty _ set_order_perm _ _ Hca) in Hclass.
    destruct Hclass as [?|[?|[? ?]]]; done. }
  split_and!; [done| |].
  - apply py_sorted_perm in Hsorted. rewrite elements_empty in Hsorted.
    by apply Permutation_nil_r in Hsorted.
  - rewrite Hu. destruct Hne as [?|?]; done.
Qed.

(** ** The repair loop, entry by entry *)

Lemma fix_entry_kind R fixes e oc :
  fix_entry R fixes e = Some oc →
  is_removed R e = match oc with Dropped => true | _ => false end ∧
  is_rewired R fixes e = match oc with Rewritten _ => true | _ => false end.
Proof.
  destruct e as [[n [o|]] raw]; [|by intros [= <-]].
  intros Hfix.
  apply fix_entry_inv in Hfix
    as (k & Hk & [[HR ->]|(HR & pid & kp & Hp & Hkp & Hcase)]);
    unfold is_rewired, is_removed; simpl; rewrite Hk.
  - by rewrite bool_decide_eq_true_2.
  - rewrite bool_decide_eq_false_2 by done. simpl.
    unfold parent_key. rewrite Hp. simpl. rewrite Hkp.
    destruct Hcase as [[Hnone ->]|(a & o' & Hsome & _ & ->)].
    + rewrite bool_decide_eq_false_2; [done|]. rewrite Hnone. by intros [? ?].
    + rewrite bool_decide_eq_true_2; [done|]. by eauto.
Qed.

Lemma fix_step_counts R fixes es : ∀ out r f out' r' f',
  foldM (fix_step dumps R fixes) (out, r, f) es = Some (out', r', f') →
  length out' + r' = length out + r + length es ∧
  r' = r + length (List.filter (is_removed R) es) ∧
  f' = f + length (List.filter (is_rewired R fixes) es) ∧
  length out + length (List.filter (is_rewired R fixes) es) ≤ length out'.
Proof.
  induction es as [|e es IH]; intros out r f out' r' f'.
  { intros [= <- <- <-]. simpl. lia. }
  intros ([[out1 r1] f1] & Hstep & Hrest)%foldM_cons_Some.
  destruct (IH _ _ _ _ _ _ Hrest) as (H1 & H2 & H3 & H4). clear IH Hrest.
  unfold fix_step in Hstep.
  destruct (fix_entry R fixes e) as [oc|] eqn:Hoc; simpl in Hstep; [|done].
  destruct (fix_entry_kind _ _ _ _ Hoc) as [Hrm Hrw]. simpl.
  rewrite Hrm, Hrw.
  destruct oc; injection Hstep as <- <- <-; simpl;
    rewrite ?length_app in *; simpl in *; lia.
Qed.

(** X15. The repair loop accounts for every entry: an entry is
    written or counted as removed, so the line counts of the summary
    differ by [removed]; [removed] counts the decoded entries whose id is
    in the removal set, and [fixed] the surviving entries whose parent id
    is a key of [parent_fixes]. *)
Theorem fix_accounts_for_every_entry R fixes es output removed fixed :
  fix_loop dumps R fixes es = Some (output, removed, fixed) →
  length output + removed = length es ∧
  fixed ≤ length output ∧
  removed = length (List.filter (is_removed R) es) ∧
  fixed = length (List.filter (is_rewired R fixes) es).
Proof.
  intros (H1 & H2 & H3 & H4)%fix_step_counts. simpl in *. lia.
Qed.

Lemma unparseable_of_cons es :
  unparseable_of es ≠ [] → ∃ n raw, (n, None, raw) ∈ es.
Proof.
  unfold unparseable_of. induction es as [|[[n obj] raw] es IH]; simpl; [done|].
  destruct obj as [o|]; simpl.
  - intros (n' & raw' & Hin)%IH. exists n', raw'. by apply list_elem_of_further.
  - intros _. exists n, raw. apply list_elem_of_here.
Qed.

Lemma analyze_entries_Clean_parsed es n :
  analyze_entries set_order es = Some (Report.Clean n) → unparseable_of es = [].
Proof.
  intros Ha. destruct es as [|e es]; [done|].
  destruct (analyze_entries_inv _ _ Ha)
    as (? & ? & ? & ? & _ & _ & _ & _ & [(_ & Hu & _)|(_ & Hd)]); [done|done|].
  by destruct Hd as (? & ? & ? & ? & ? & ? & _ & _ & _ & _ & _ & _ & [=]).
Qed.

(** X16. The repair keeps every unparseable line, so a session with
    such a line is reported as still corrupted by the verification pass,
    whatever else was repaired. *)
Theorem unparseable_line_stays file es d verbose file' lines_info removed
    fixed before after verified :
  parse_jsonl loads file = Some es →
  analyze_session loads set_order file = Some (Report.Corrupted d) →
  (∀ e o', e ∈ es →
           fix_entry (Report.remove_ids d) (Report.parent_fixes d) e
           = Some (Rewritten o') → codec_ok loads dumps o') →
  Report.unparseable_lines d ≠ [] →
  fix_session loads dumps set_order file (Report.Corrupted d) false verbose
  = (file', Some (Fixed lines_info removed fixed before after verified)) →
  verified = false ∧
  ∃ es', parse_jsonl loads file' = Some es' ∧
         ∀ n raw, (n, None, raw) ∈ es → ∃ n', (n', None, raw) ∈ es'.
Proof.
  intros Hes Ha Hcodec Hunp Hfix. unfold fix_session in Hfix.
  rewrite Hes in Hfix. cbv beta iota in Hfix.
  destruct (fix_loop _ _ _ _) as [[[out rm] fx]|] eqn:Hloop; [|by simplify_eq].
  cbv beta iota zeta in Hfix.
  destruct (utf8_valid (join_lines out +:+ String LF "")) eqn:Hvalid;
    [|by simplify_eq].
  destruct (analyze_session loads set_order (join_lines out +:+ String LF ""))
    as [r|] eqn:Hr; simpl in Hfix; [|by simplify_eq].
  injection Hfix as <- _ _ _ _ _ <-.
  destruct (fix_loop_outcomes _ _ _ _ _ _ _ Hloop) as (ocs & Hocs & ->).
  pose proof (parse_jsonl_wf _ _ _ Hes) as Hwf.
  destruct (emitted_lines_ok _ _ _ _ _ _ Hwf Hocs Hcodec) as [Hlf _].
  destruct (analyze_session_Some _ _ _ _ Hr) as (es' & Hes' & Hr').
  pose proof Hes' as Hp. rewrite parse_jsonl_join in Hp by done.
  assert (Hstay : ∀ n raw, (n, None, raw) ∈ es → ∃ n', (n', None, raw) ∈ es').
  { intros n raw Hin.
    pose proof (proj1 (Forall_forall _ _) Hwf _ Hin) as (Hobj & Hne & _).
    simpl in Hobj, Hne.
    assert (Hline : raw ∈ omap (emit dumps) ocs).
    { eapply (emitted_intro dumps _ _ _ _ Hocs _ (Kept raw)); done. }
    destruct (parse_from_intro loads _ _ _ _ Hp Hline Hne)
      as (n' & obj & Hd & Hn').
    exists n'. by assert (obj = None) as -> by congruence. }
  split; [|by exists es'].
  destruct r as [m|d']; [|done]. exfalso.
  rewrite (analyze_session_entries _ _ _ _ Hes) in Ha.
  apply analyze_entries_Clean_parsed in Hr'.
  destruct (analyze_entries_report _ _ _ Ha) as (idp & Han).
  destruct Han as (_ & _ & _ & _ & _ & _ & _ & Hu & _).
  rewrite Hu in Hunp.
  destruct (unparseable_of_cons _ Hunp) as (n & raw & Hin).
  destruct (Hstay n raw Hin) as [n' Hn'].
  by eapply (proj1 (unparseable_of_nil _) Hr').
Qed.

Lemma has_key_elem k kvs : has_key k kvs = true ↔ k ∈ kvs.*1.
Proof.
  unfold has_key. induction kvs as [|[k' v] kvs IH]; simpl.
  { split; [done|by intros ?%elem_of_nil]. }
  rewrite elem_of_cons. destruct (String.eqb_spec k' k) as [->|Hne].
  - by split; [left|].
  - rewrite IH. split; [by right|]. by intros [?|?].
Qed.

Lemma dict_set_keys kvs k v :
  (dict_set kvs k v).*1
  = kvs.*1 ++ (if bool_decide (k ∈ kvs.*1) then [] else [k]).
Proof.
  induction kvs as [|[k' v'] kvs IH]; [done|].
  cbn [dict_set]. destruct (String.eqb_spec k' k) as [->|Hne];
    rewrite !fmap_cons; cbn [fst].
  - rewrite bool_decide_eq_true_2 by apply list_elem_of_here.
    by rewrite app_nil_r.
  - rewrite IH. rewrite <- app_comm_cons. f_equal. f_equal.
    destruct (decide (k ∈ kvs.*1)) as [Hin|Hin].
    + rewrite !bool_decide_eq_true_2; [done| |done].
      by apply list_elem_of_further.
    + rewrite !bool_decide_eq_false_2; [done| |done].
      intros [?|?]%elem_of_cons; done.
Qed.

(** X17. A record that the repair rewrites changes in its [parentId]
    only: the new value is the entry of [parent_fixes] for the old
    parent, every other key keeps its value, and the keys keep their
    order ([parentId] is added last when the record did not have it). *)
Theorem rewrite_changes_parent_only R fixes n o raw o' :
  fix_entry R fixes (n, Some o, raw) = Some (Rewritten o') →
  ∃ kp a,
    parent_key o = Some kp ∧ fixes !! kp = Some a ∧
    get_parent_id o' = Some a ∧
    (∀ k dflt, k ≠ "parentId" → py_get o' k dflt = py_get o k dflt) ∧
    keys_of o'
    = keys_of o ++ (if bool_decide ("parentId" ∈ keys_of o) then []
                    else ["parentId"]).
Proof.
  intros Hfix.
  apply fix_entry_inv in Hfix
    as (k & Hk & [[_ [=]]|(HR & pid & kp & Hp & Hkp & Hcase)]).
  destruct Hcase as [[_ [=]]|(a & o2 & Hsome & Hset & [= <-])].
  exists kp, a. split_and!.
  - unfold parent_key. by rewrite Hp.
  - done.
  - by eapply get_parent_id_setitem.
  - intros k' dflt Hne. eapply py_get_setitem_ne; [done|]. congruence.
  - destruct o as [| | | | |kvs]; simpl in Hset; try done.
    injection Hset as <-. simpl. apply dict_set_keys.
Qed.

Lemma foldM_total {S A} (step : S → A → option S) l :
  (∀ st x, x ∈ l → is_Some (step st x)) → ∀ st, is_Some (foldM step st l).
Proof.
  induction l as [|x l IH]; intros Hstep st; simpl; [by eauto|].
  destruct (Hstep st x (list_elem_of_here _ _)) as [st1 ->]. simpl.
  apply IH. intros st' y Hy. apply Hstep. by apply list_elem_of_further.
Qed.

(** X18. After a scan that reported corruption the repair loop does
    not raise, provided every parent id of the file can be hashed (it is
    a string, a number or null): the scan has already hashed every id. *)
Theorem repair_loop_succeeds file es d :
  parse_jsonl loads file = Some es →
  analyze_session loads set_order file = Some (Report.Corrupted d) →
  (∀ o, decoded_in es o → is_Some (parent_key o)) →
  is_Some (fix_loop dumps (Report.remove_ids d) (Report.parent_fixes d) es).
Proof.
  intros Hes Ha Hpar. rewrite (analyze_session_entries _ _ _ _ Hes) in Ha.
  destruct (analyze_entries_report _ _ _ Ha) as (idp & Han).
  destruct Han as (_ & _ & _ & Hidp & _).
  apply id_to_parent_of_spec in Hidp as [Hdec _].
  apply foldM_total. intros [[out rm] fx] [[n [o|]] raw] Hin; [|by eauto].
  assert (Ho : decoded_in es o) by (by exists n, raw).
  destruct (Hdec o Ho) as (k & p & Hk & Hp & _).
  destruct (Hpar o Ho) as [kp Hkp].
  assert (Hfix : is_Some (fix_entry (Report.remove_ids d)
                            (Report.parent_fixes d) (n, Some o, raw))).
  { unfold fix_entry. unfold id_key in Hk. unfold parent_key in Hkp.
    destruct (get_id o) as [oid|] eqn:Hid; simpl in Hk |- *; [|done].
    rewrite Hk. simpl. case_bool_decide; [by eauto|].
    rewrite Hp in Hkp |- *. simpl in Hkp |- *. rewrite Hkp. simpl.
    destruct (Report.parent_fixes d !! kp) as [a|]; [|by eauto].
    destruct (py_setitem_is_Some o "parentId" a) as [o' ->]; [by eauto|].
    simpl. by eauto. }
  destruct Hfix as [oc Hoc]. unfold fix_step. rewrite Hoc. simpl. by eauto.
Qed.

(** ** [main] on the file system *)

Local Abbreviation fix_path' := (fix_path loads dumps set_order now).
Local Abbreviation main_step' := (main_step loads dumps set_order now).
Local Abbreviation main' :=
  (main loads dumps set_order isdir isfile glob_jsonl discover_session_files now).
Local Abbreviation select_files' :=
  (select_files isdir isfile glob_jsonl discover_session_files).

Lemma foldl_step {A B} (f : A → B → A) a x l :
  foldl f a (x :: l) = foldl f (f a x) l.
Proof. done. Qed.

Lemma append_length (a b : string) :
  String.length (a +:+ b) = String.length a + String.length b.
Proof. induction a as [|c a IH]; [done|]. rewrite append_cons. simpl. by rewrite IH. Qed.

Lemma backup_path_fresh filepath : backup_path now filepath ≠ filepath.
Proof.
  unfold backup_path. intros Heq.
  apply (f_equal String.length) in Heq. rewrite !append_length in Heq.
  simpl in Heq. lia.
Qed.

Lemma fix_session_dry file report verbose :
  (fix_session loads dumps set_order file report true verbose).1 = file.
Proof. by destruct report. Qed.

Lemma fix_path_frame fs filepath report dry_run verbose q :
  (dry_run = true ∨ (q ≠ filepath ∧ q ≠ backup_path now filepath)) →
  (fix_path' fs filepath report dry_run verbose).1 !! q = fs !! q.
Proof.
  intros Hq. unfold fix_path.
  destruct (fix_session loads dumps set_order (default "" (fs !! filepath))
              report dry_run verbose) as [content' result].
  destruct (Report.corrupted report && negb dry_run) eqn:Hw; [|done].
  destruct Hq as [->|[Hq1 Hq2]]; [by rewrite andb_false_r in Hw|].
  destruct (fs !! filepath); [|done]. simpl.
  by rewrite !lookup_insert_ne.
Qed.

Lemma main_step_frame do_fix verbose fs c log filepath q :
  (do_fix = false ∨ (q ≠ filepath ∧ q ≠ backup_path now filepath)) →
  (main_step' do_fix verbose (fs, c, log) filepath).1.1 !! q = fs !! q.
Proof.
  intros Hq. unfold main_step.
  destruct (analyze_path loads set_order fs filepath) as [report|]; [|done].
  destruct (Report.corrupted report); [|done].
  pose proof (fix_path_frame fs filepath report (negb do_fix) verbose q) as Hf.
  destruct (fix_path' fs filepath report (negb do_fix) verbose) as [fs' result].
  simpl in *. apply Hf. destruct Hq as [->|?]; by auto.
Qed.

Lemma main_loop_frame do_fix verbose files q : ∀ st,
  (do_fix = false ∨
   ∀ f, f ∈ files → q ≠ f ∧ q ≠ backup_path now f) →
  (foldl (main_step' do_fix verbose) st files).1.1 !! q = st.1.1 !! q.
Proof.
  induction files as [|f files IH]; intros [[fs c] log] Hq; [done|].
  rewrite foldl_step. rewrite IH.
  - apply main_step_frame. destruct Hq as [?|Hq]; [by left|right].
    apply Hq, list_elem_of_here.
  - destruct Hq as [?|Hq]; [by left|right].
    intros f' Hf'. apply Hq. by apply list_elem_of_further.
Qed.

Lemma main_files args fs files :
  select_files' args = inr files →
  (main' args fs).1.1
  = (foldl (main_step' (Cli.do_fix args) (Cli.verbose args)) (fs, 0, []) files).1.1.
Proof.
  intros Hsel. unfold main. rewrite Hsel. destruct files as [|f files]; [done|].
  by destruct (foldl _ _ _) as [[fs' c] log].
Qed.

Lemma main_no_files args fs target :
  select_files' args = inl target → (main' args fs).1.1 = fs.
Proof. intros Hsel. unfold main. by rewrite Hsel. Qed.

(** X19. Without [--fix] on the command line [main] writes nothing:
    every file, and the set of files, is as before, whatever the other
    arguments are and whatever the scans find. *)
Theorem main_dry_run_changes_nothing args fs :
  Cli.do_fix args = false → (main' args fs).1.1 = fs.
Proof.
  intros Hfix.
  destruct (select_files' args) as [target|files] eqn:Hsel.
  { by eapply main_no_files. }
  rewrite (main_files _ _ _ Hsel). apply map_eq. intros q.
  rewrite main_loop_frame; [done|]. left. exact Hfix.
Qed.

(** X20. [main] changes no file other than the session files it
    scans and their backup copies. *)
Theorem main_touches_listed_files_only args fs files q :
  select_files' args = inr files →
  q ∉ files → (∀ f, f ∈ files → q ≠ backup_path now f) →
  (main' args fs).1.1 !! q = fs !! q.
Proof.
  intros Hsel Hq Hb. rewrite (main_files _ _ _ Hsel).
  rewrite main_loop_frame; [done|]. right. intros f Hf. split; [|by apply Hb].
  intros ->. done.
Qed.

Lemma analyze_path_file fs filepath content :
  fs !! filepath = Some content →
  analyze_path loads set_order fs filepath = analyze_session loads set_order content.
Proof. intros Hf. unfold analyze_path, parse_path, analyze_session. by rewrite Hf. Qed.

Lemma fix_session_outcome file d verbose :
  let file' := (fix_session loads dumps set_order file (Report.Corrupted d)
                  false verbose).1 in
  file' = file ∨ file' = "" ∨
  ∃ out, file' = join_lines out +:+ String LF "" ∧ utf8_valid file' = true.
Proof.
  unfold fix_session. destruct (parse_jsonl loads file) as [es|]; [|by left].
  destruct (fix_loop _ _ _ _) as [[[out removed] fixed]|]; [|by left].
  cbv beta iota zeta.
  destruct (utf8_valid (join_lines out +:+ String LF "")) eqn:Hvalid;
    [|right; by left].
  right. right. by exists out.
Qed.

(** X21. With [--fix], a session file that the scan reports corrupted
    is first copied: afterwards the backup path holds the text that the
    file had, also when the repair raised half-way, and the file holds
    what the repair of that text gives.  That is the text itself when
    the repair raised before it opened the file for writing, nothing
    when the write raised, and otherwise the lines of the repair, each
    ended by LF. *)
Theorem main_fix_keeps_backup args fs target content d :
  Cli.do_fix args = true →
  select_files' args = inr [target] →
  fs !! target = Some content →
  analyze_session loads set_order content = Some (Report.Corrupted d) →
  ∃ fs' log,
    main' args fs = (fs', log, Counted true 1) ∧
    fs' !! backup_path now target = Some content ∧
    fs' !! target
    = Some (run_file loads dumps set_order true (Cli.verbose args) content) ∧
    (fs' !! target = Some content ∨ fs' !! target = Some "" ∨
     ∃ out, fs' !! target = Some (join_lines out +:+ String LF "") ∧
            utf8_valid (join_lines out +:+ String LF "") = true) ∧
    length log = 1.
Proof.
  intros Hdo Hsel Hfile Ha.
  pose proof (fix_session_outcome content d (Cli.verbose args)) as Hout.
  cbv zeta in Hout.
  unfold main. rewrite Hsel, Hdo. simpl. unfold main_step.
  rewrite (analyze_path_file _ _ _ Hfile), Ha. simpl.
  unfold fix_path. rewrite Hfile. simpl default.
  assert (Hrun : run_file loads dumps set_order true (Cli.verbose args) content
                 = (fix_session loads dumps set_order content (Report.Corrupted d)
                      false (Cli.verbose args)).1).
  { unfold run_file. by rewrite Ha. }
  destruct (fix_session loads dumps set_order content (Report.Corrupted d)
              false (Cli.verbose args)) as [content' result].
  simpl in *. eexists _, _. split; [done|]. split_and!.
  - rewrite lookup_insert_ne by (intros Heq; by apply (backup_path_fresh target)).
    apply lookup_insert_eq.
  - rewrite lookup_insert_eq. by rewrite Hrun.
  - rewrite lookup_insert_eq.
    destruct Hout as [->|[->|(out & -> & Hvalid)]]; [by left|right; by left|].
    right. right. by exists out.
  - done.
Qed.

Lemma main_loop_clean do_fix verbose fs files : ∀ c log,
  (∀ f r, f ∈ files → analyze_path loads set_order fs f = Some r →
          Report.corrupted r = false) →
  ∃ log', foldl (main_step' do_fix verbose) (fs, c, log) files
          = (fs, c, log ++ log') ∧
          ∀ ev, ev ∈ log' →
                ∃ f, ev = ScanError f ∧ f ∈ files ∧
                     analyze_path loads set_order fs f = None.
Proof.
  induction files as [|f files IH]; intros c log Hclean.
  { exists []. split; [by rewrite app_nil_r|]. by intros ev ?%elem_of_nil. }
  assert (Hrest : ∀ f' r, f' ∈ files →
            analyze_path loads set_order fs f' = Some r →
            Report.corrupted r = false).
  { intros f' r Hf'. apply Hclean. by apply list_elem_of_further. }
  rewrite foldl_step.
  destruct (analyze_path loads set_order fs f) as [r|] eqn:Hr.
  - assert (Hstep : main_step' do_fix verbose (fs, c, log) f = (fs, c, log)).
    { unfold main_step. rewrite Hr.
      by rewrite (Hclean f r (list_elem_of_here _ _) Hr). }
    rewrite Hstep.
    destruct (IH c log Hrest) as (log' & -> & Hlog). exists log'.
    split; [done|]. intros ev (f' & ? & ? & ?)%Hlog. exists f'.
    split_and!; try done. by apply list_elem_of_further.
  - assert (Hstep : main_step' do_fix verbose (fs, c, log) f
                    = (fs, c, log ++ [ScanError f])).
    { unfold main_step. by rewrite Hr. }
    rewrite Hstep.
    destruct (IH c (log ++ [ScanError f]) Hrest) as (log' & -> & Hlog).
    exists (ScanError f :: log'). split; [by rewrite <- app_assoc|].
    intros ev [->|(f' & ? & ? & ?)%Hlog]%elem_of_cons.
    + exists f. split_and!; try done. apply list_elem_of_here.
    + exists f'. split_and!; try done. by apply list_elem_of_further.
Qed.

(** X22. When no scanned file yields a corrupted report, [main] ends
    with the line that all sessions are clean and changes nothing; this
    includes the files whose scan raised, which are reported as errors
    and not counted. *)
Theorem main_all_clean_verdict args fs files :
  select_files' args = inr files → files ≠ [] →
  (∀ f r, f ∈ files → analyze_path loads set_order fs f = Some r →
          Report.corrupted r = false) →
  ∃ log,
    main' args fs = (fs, log, AllClean) ∧
    ∀ ev, ev ∈ log →
          ∃ f, ev = ScanError f ∧ f ∈ files ∧
               analyze_path loads set_order fs f = None.
Proof.
  intros Hsel Hne Hclean. unfold main. rewrite Hsel.
  destruct files as [|f files]; [done|].
  destruct (main_loop_clean (Cli.do_fix args) (Cli.verbose args) fs
              (f :: files) 0 [] Hclean) as (log & -> & Hlog).
  exists log. split; [done|]. exact Hlog.
Qed.

Lemma main_loop_count do_fix verbose files : ∀ fs c log fs' c' log',
  foldl (main_step' do_fix verbose) (fs, c, log) files = (fs', c', log') →
  ∃ more, log' = log ++ more ∧ length more ≤ length files ∧
          c' = c + length (List.filter (λ ev, negb (is_scan_error ev)) more).
Proof.
  induction files as [|f files IH]; intros fs c log fs' c' log'.
  { intros [= <- <- <-]. exists []. rewrite app_nil_r. simpl. split_and!; [done|lia|lia]. }
  rewrite foldl_step.
  destruct (main_step' do_fix verbose (fs, c, log) f) as [[fs1 c1] log1] eqn:Hstep.
  intros (more & -> & Hlen & ->)%IH.
  unfold main_step in Hstep.
  destruct (analyze_path loads set_order fs f) as [r|].
  - destruct (Report.corrupted r).
    + destruct (fix_path' fs f r (negb do_fix) verbose) as [fs2 result].
      injection Hstep as <- <- <-.
      exists ((match result with Some s => Printed s | None => FixError f end)
              :: more).
      rewrite <- app_assoc. split; [done|]. simpl.
      split; [lia|]. destruct result; simpl; lia.
    + injection Hstep as <- <- <-. exists more. simpl. split_and!; [done|lia|lia].
  - injection Hstep as <- <- <-. exists (ScanError f :: more).
    rewrite <- app_assoc. simpl. split_and!; [done|lia|lia].
Qed.

(** X23. The closing line of [main] counts the corrupted reports: the
    number shown is the number of summaries and repair errors printed
    (a repair that raised, or left the session corrupted, is counted
    as fixed), and a scan that raised is not counted. *)
Theorem main_counts_corrupted_reports args fs files fs' log v :
  select_files' args = inr files → files ≠ [] →
  main' args fs = (fs', log, v) →
  let n := length (List.filter (λ ev, negb (is_scan_error ev)) log) in
  v = (if n =? 0 then AllClean else Counted (Cli.do_fix args) n) ∧
  length log ≤ length files.
Proof.
  intros Hsel Hne. unfold main. rewrite Hsel.
  destruct files as [|f files]; [done|].
  destruct (foldl _ _ (f :: files)) as [[fs1 c1] log1] eqn:Hloop.
  intros [= <- <- <-].
  apply main_loop_count in Hloop as (more & -> & Hlen & ->). simpl in *.
  done.
Qed.

End Coverage.

Import Samples.

(** ** The engine on the sample sessions *)

Ltac by_compute := vm_compute; reflexivity.
(** For an equation whose sides hold maps: both sides are evaluated and
    compared, and the proof keeps the terms as they are written. *)
Ltac by_cast :=
  lazymatch goal with |- ?l = ?r => exact (@eq_refl _ r <: l = r) end.
Ltac not_member := let H := fresh in intros H; vm_compute in H; discriminate H.

Lemma Some_inj_eq {A} (r : option A) x y : r = Some x → r = Some y → x = y.
Proof. intros -> [= ->]. reflexivity. Qed.

Lemma Corrupted_inj (r : option Report.report) d d' :
  r = Some (Report.Corrupted d) → r = Some (Report.Corrupted d') → d = d'.
Proof. intros -> [= ->]. reflexivity. Qed.

Lemma scenario_entries :
  parse_jsonl loads_scenario file_scenario = Some entries_scenario.
Proof. by_cast. Qed.

Lemma scenario_crlf_entries :
  parse_jsonl loads_scenario file_scenario_crlf = Some entries_scenario.
Proof. by_cast. Qed.

Lemma scenario_report :
  analyze_session loads_scenario elements file_scenario
  = Some (Report.Corrupted
            (Report.details_of (analyze_session loads_scenario elements file_scenario))).
Proof. by_cast. Qed.

Lemma scenario_crlf_report :
  analyze_session loads_scenario elements file_scenario_crlf
  = Some (Report.Corrupted
            (Report.details_of (analyze_session loads_scenario elements file_scenario))).
Proof. by_cast. Qed.

(** On the scenario one record is rewritten. *)
Lemma scenario_rewritten d e o' :
  analyze_session loads_scenario elements file_scenario
    = Some (Report.Corrupted d) →
  e ∈ entries_scenario →
  fix_entry (Report.remove_ids d) (Report.parent_fixes d) e
    = Some (Rewritten o') →
  o' = rec_B_fixed.
Proof.
  intros Ha He Hfix.
  pose proof (Corrupted_inj _ _ _ Ha scenario_report) as Hd. subst d. clear Ha.
  unfold entries_scenario in He.
  repeat (apply elem_of_cons in He as [->|He]);
    try (by apply elem_of_nil in He);
    vm_compute in Hfix; try discriminate Hfix.
  injection Hfix as <-. reflexivity.
Qed.

(** Its text decodes back to the record, and is UTF-8. *)
Lemma scenario_codec d e o' :
  analyze_session loads_scenario elements file_scenario
    = Some (Report.Corrupted d) →
  e ∈ entries_scenario →
  fix_entry (Report.remove_ids d) (Report.parent_fixes d) e
    = Some (Rewritten o') →
  codec_ok loads_scenario PyJson.dumps o'.
Proof.
  intros Ha He Hfix. rewrite (scenario_rewritten _ _ _ Ha He Hfix).
  split_and!; [by_compute| |by_compute].
  intros H. vm_compute in H. discriminate H.
Qed.


Lemma scenario_resolved : no_dangling entries_scenario.
Proof.
  intros o pid (n & raw & Hin) Hpid.
  assert (Hdec : ∀ i n' o' raw',
            entries_scenario !! i = Some (n', Some o', raw') →
            decoded_in entries_scenario o').
  { intros i n' o' raw' Hi. exists n', raw'. by eapply list_elem_of_lookup_2. }
  unfold entries_scenario in Hin.
  repeat (apply elem_of_cons in Hin as [Heq|Hin]);
    try (by apply elem_of_nil in Hin);
    injection Heq as -> -> ->; vm_compute in Hpid; injection Hpid as <-.
  - by left.
  - right. exists rec_A. split; [apply (Hdec 0 1 _ (PyJson.dumps rec_A))|];
      by_compute.
  - right. exists rec_R1. split; [apply (Hdec 1 2 _ (PyJson.dumps rec_R1))|];
      by_compute.
  - right. exists rec_B. split; [apply (Hdec 2 3 _ (PyJson.dumps rec_B))|];
      by_compute.
Qed.

Lemma scenario_acyclic d idp x :
  analyze_session loads_scenario elements file_scenario
    = Some (Report.Corrupted d) →
  id_to_parent_of entries_scenario = Some idp →
  x ∈ Report.remove_ids d →
  ¬ tc (removed_parent (Report.remove_ids d) idp) x x.
Proof.
  intros Ha Hidp.
  pose proof (Corrupted_inj _ _ _ Ha scenario_report) as Hd. subst d. clear Ha.
  assert (Hidp0 : id_to_parent_of entries_scenario
                  = Some (default ∅ (id_to_parent_of entries_scenario)))
    by by_cast.
  pose proof (Some_inj_eq _ _ _ Hidp Hidp0) as Hi. subst idp. clear Hidp Hidp0.
  apply acyclic_by_remap. by_compute.
Qed.

Lemma empty_input_untouched_witness :
  length (file_lines file_blank) = 4 ∧
  analyze_session (PyJson.loads []) elements file_blank = Some (Report.Clean 0) ∧
  run_file (PyJson.loads []) PyJson.dumps elements true false file_blank
  = file_blank.
Proof.
  destruct (empty_input_untouched (PyJson.loads []) PyJson.dumps elements
              file_blank true false false) as (Ha & _ & _ & _ & Hrun).
  - vm_compute. repeat constructor.
  - split; [by_compute|]. split; [exact Ha|exact Hrun].
Defined.

Lemma twin_entries : parse_jsonl loads_twin file_twin = Some entries_twin.
Proof. by_cast. Qed.

Lemma removal_keyed_by_id_witness :
  ∃ d ocs,
    analyze_session loads_twin elements file_twin = Some (Report.Corrupted d) ∧
    Forall2 (λ e oc, fix_entry (Report.remove_ids d) (Report.parent_fixes d) e
                     = Some oc)
            entries_twin ocs ∧
    is_broken_assistant rec_A = Some true ∧
    is_broken_assistant rec_twin = Some false ∧
    ocs !! 0 = Some Dropped ∧ ocs !! 1 = Some Dropped.
Proof.
  set (d := Report.details_of (analyze_session loads_twin elements file_twin)).
  assert (Ha : analyze_session loads_twin elements file_twin
               = Some (Report.Corrupted d)) by by_cast.
  assert (Hloop : fix_loop PyJson.dumps (Report.remove_ids d)
                    (Report.parent_fixes d) entries_twin
                  = Some ([PyJson.dumps rec_K], 2, 0)) by by_cast.
  destruct (removal_keyed_by_id _ _ _ _ _ _ _ _ _ twin_entries Ha Hloop)
    as (ocs & Hocs & _ & _ & Hboth).
  assert (Hdrop : ocs !! 0 = Some Dropped ∧ ocs !! 1 = Some Dropped).
  { apply (Hboth 0 1 1 rec_A (PyJson.dumps rec_A) 2 rec_twin
             (PyJson.dumps rec_twin)); [by_cast..|]. left. by_cast. }
  exists d, ocs. split; [exact Ha|]. split; [exact Hocs|].
  split; [by_cast|]. split; [by_cast|]. exact Hdrop.
Defined.

Lemma untouched_line_kept_witness :
  ∃ d ocs,
    analyze_session loads_scenario elements file_scenario_crlf
      = Some (Report.Corrupted d) ∧
    fix_session loads_scenario PyJson.dumps elements file_scenario_crlf
      (Report.Corrupted d) false false
    = (file_scenario_fixed, Some (Fixed [1; 2] 2 1 4 2 true)) ∧
    Forall2 (λ e oc, fix_entry (Report.remove_ids d) (Report.parent_fixes d) e
                     = Some oc)
            entries_scenario ocs ∧
    ocs !! 3 = Some (Kept (PyJson.dumps rec_K)) ∧
    file_lines file_scenario_crlf !! 3 = Some (PyJson.dumps rec_K) ∧
    no_newline (PyJson.dumps rec_K) = true.
Proof.
  set (d := Report.details_of (analyze_session loads_scenario elements file_scenario)).
  assert (Hfix : fix_session loads_scenario PyJson.dumps elements
                   file_scenario_crlf (Report.Corrupted d) false false
                 = (file_scenario_fixed, Some (Fixed [1; 2] 2 1 4 2 true)))
    by by_cast.
  destruct (untouched_line_kept _ _ _ _ _ _ _ _ Hfix)
    as [[_ Hres]|[[_ Hres]|(es & out & ocs & Hes & _ & Hocs & _ & Hkept)]];
    [discriminate Hres..|].
  pose proof (Some_inj_eq _ _ _ Hes scenario_crlf_entries) as He. subst es.
  destruct (Hkept 3 4 rec_K (PyJson.dumps rec_K) (HStr "K") (JStr "B"))
    as (Hoc & _ & Hline & Hnl).
  - by_cast.
  - by_cast.
  - not_member.
  - by_cast.
  - intros kp Hkp. injection Hkp as <-. by_cast.
  - exists d, ocs. split; [exact scenario_crlf_report|]. split; [exact Hfix|].
    split; [exact Hocs|]. split; [exact Hoc|]. split; [exact Hline|exact Hnl].
Defined.

(** C4, as stated, fails on a file whose lines end with CR LF: the
    record [K] survives and its parent is no key of [parent_fixes], its
    input line is the text of [K] followed by CR LF, and the corrected
    file holds the text of [K] followed by LF, with no CR anywhere. *)
Lemma crlf_line_not_byte_identical :
  ∃ d,
    analyze_session loads_scenario elements file_scenario_crlf
      = Some (Report.Corrupted d) ∧
    parse_jsonl loads_scenario file_scenario_crlf = Some entries_scenario ∧
    entries_scenario !! 3 = Some (4, Some rec_K, PyJson.dumps rec_K) ∧
    id_key rec_K = Some (HStr "K") ∧ (HStr "K" ∉ Report.remove_ids d) ∧
    get_parent_id rec_K = Some (JStr "B") ∧
    Report.parent_fixes d !! HStr "B" = None ∧
    str_contains (PyJson.dumps rec_K +:+ CRLF) file_scenario_crlf = true ∧
    run_file loads_scenario PyJson.dumps elements true false file_scenario_crlf
    = file_scenario_fixed ∧
    str_contains (PyJson.dumps rec_K +:+ String LF "") file_scenario_fixed = true ∧
    str_contains (String CR "") file_scenario_fixed = false.
Proof.
  set (d := Report.details_of (analyze_session loads_scenario elements file_scenario)).
  exists d. split; [exact scenario_crlf_report|].
  split; [exact scenario_crlf_entries|]. split; [by_compute|].
  split; [by_compute|]. split; [not_member|]. split; [by_compute|].
  split; [by_cast|]. split; [by_compute|]. split; [by_compute|].
  split; by_compute.
Qed.

Lemma cycle_entries : parse_jsonl loads_cycle file_cycle = Some entries_cycle.
Proof. by_cast. Qed.

Lemma remap_walk_terminates_witness :
  ∃ d idp,
    analyze_session loads_cycle elements file_cycle = Some (Report.Corrupted d) ∧
    id_to_parent_of entries_cycle = Some idp ∧
    removed_parent (Report.remove_ids d) idp (HStr "A") (HStr "B") ∧
    removed_parent (Report.remove_ids d) idp (HStr "B") (HStr "A") ∧
    remap (Report.remove_ids d) idp (HStr "A") ≠ OutOfFuel ∧
    (∃ a, remap (Report.remove_ids d) idp (HStr "A") = Ancestor a) ∧
    walk 100 (Report.remove_ids d) idp (parent_of idp (HStr "A")) {[ HStr "A" ]}
    = Ancestor (JStr "A").
Proof.
  set (d := Report.details_of (analyze_session loads_cycle elements file_cycle)).
  set (idp := default ∅ (id_to_parent_of entries_cycle)).
  destruct (remap_walk_terminates (Report.remove_ids d) idp (HStr "A"))
    as (Hne & Hfuel & Hcand).
  exists d, idp. split; [by_cast|]. split; [by_cast|].
  split; [split; by_compute|]. split; [split; by_compute|].
  split; [exact Hne|]. split.
  - apply Hcand. intros k p Hk.
    apply (map_Forall_lookup_1 (λ _ p, is_Some (to_key p)) idp k p); [|exact Hk].
    refine (bool_decide_unpack _ _). vm_compute. exact I.
  - rewrite (Hfuel 100); [by_compute|]. apply Nat.leb_le. by_compute.
Defined.

Lemma parent_fixes_nearest_survivor_witness :
  ∃ d idp,
    analyze_session loads_scenario elements file_scenario
      = Some (Report.Corrupted d) ∧
    id_to_parent_of entries_scenario = Some idp ∧
    removed_parent (Report.remove_ids d) idp (HStr "R1") (HStr "A") ∧
    Report.parent_fixes d !! HStr "R1" = Some (JStr "") ∧
    nearest_survivor (Report.remove_ids d) idp (HStr "R1") (JStr "").
Proof.
  set (d := Report.details_of (analyze_session loads_scenario elements file_scenario)).
  set (idp := default ∅ (id_to_parent_of entries_scenario)).
  assert (Hidp : id_to_parent_of entries_scenario = Some idp) by by_cast.
  assert (Hfix : Report.parent_fixes d !! HStr "R1" = Some (JStr "")) by by_cast.
  destruct (parent_fixes_nearest_survivor loads_scenario elements elements_order
              file_scenario entries_scenario d idp (HStr "R1")
              scenario_entries scenario_report Hidp)
    as (a & ka & Ha & Hnear & _).
  - by_compute.
  - intros z Hz. eapply scenario_acyclic; [exact scenario_report|exact Hidp|].
    eapply removed_parent_reach; [|exact Hz]. by_compute.
  - exists d, idp. split; [exact scenario_report|]. split; [exact Hidp|].
    split; [split; by_compute|]. split; [exact Hfix|].
    rewrite Hfix in Ha. injection Ha as <-. exact Hnear.
Defined.

Lemma cascade_entries :
  parse_jsonl loads_cascade file_cascade =
  Some [(1, Some rec_A, PyJson.dumps rec_A);
        (2, Some rec_cascade, PyJson.dumps rec_cascade)].
Proof. by_compute. Qed.

Lemma cascade_error_removed_witness :
  ∃ d d',
    analyze_session loads_cascade elements file_cascade
      = Some (Report.Corrupted d) ∧
    analyze_session loads_cascade (λ s, reverse (elements s)) file_cascade
      = Some (Report.Corrupted d') ∧
    HStr "T1" ∈ poisoned_ids d ∧
    HStr "C" ∈ Report.cascade_errors d ∧ HStr "C" ∈ Report.remove_ids d ∧
    HStr "C" ∈ Report.cascade_errors d' ∧ HStr "C" ∈ Report.remove_ids d'.
Proof.
  set (d := Report.details_of (analyze_session loads_cascade elements file_cascade)).
  set (d' := Report.details_of (analyze_session loads_cascade
                           (λ s, reverse (elements s)) file_cascade)).
  assert (Ha : analyze_session loads_cascade elements file_cascade
               = Some (Report.Corrupted d)) by by_cast.
  assert (Ha' : analyze_session loads_cascade (λ s, reverse (elements s))
                  file_cascade = Some (Report.Corrupted d')) by by_cast.
  assert (Ht : HStr "T1" ∈ poisoned_ids d) by by_compute.
  destruct (cascade_error_removed loads_cascade elements
              (λ s, reverse (elements s)) file_cascade _ d d' rec_cascade
              [("role", JStr "assistant"); ("content", JArr []);
               ("stopReason", JStr "error");
               ("errorMessage",
                JStr "unexpected tool_use_id found in tool_result blocks: T1")]
              "unexpected tool_use_id found in tool_result blocks: T1" "T1"
              elements_order reverse_order cascade_entries Ha Ha')
    as (k & Hk & H1 & H2 & H3 & H4).
  - exists 2, (PyJson.dumps rec_cascade).
    apply list_elem_of_further, list_elem_of_here.
  - by_compute.
  - by_compute.
  - by_compute.
  - by_compute.
  - by_compute.
  - exact Ht.
  - by_compute.
  - assert (Hc : id_key rec_cascade = Some (HStr "C")) by by_compute.
    rewrite Hc in Hk. injection Hk as <-.
    exists d, d'. split; [exact Ha|]. split; [exact Ha'|]. split; [exact Ht|].
    split; [exact H1|]. split; [exact H2|]. split; [exact H3|exact H4].
Defined.



Lemma engine_idempotent_witness :
  run_file loads_scenario PyJson.dumps elements true false file_scenario
  = file_scenario_fixed ∧
  run_file loads_scenario PyJson.dumps elements true false file_scenario_fixed
  = file_scenario_fixed.
Proof.
  destruct (engine_idempotent loads_scenario PyJson.dumps elements
              elements_order file_scenario false false) as (Hidem & _ & _).
  - intros d es e o' Ha Hes.
    pose proof (Some_inj_eq _ _ _ Hes scenario_entries) as He. subst es.
    by apply scenario_codec.
  - assert (Hrun : run_file loads_scenario PyJson.dumps elements true false
                     file_scenario = file_scenario_fixed) by by_compute.
    rewrite Hrun in Hidem. split; [exact Hrun|exact Hidem].
Defined.

Lemma no_dangling_after_repair_witness :
  ∃ es',
    parse_jsonl loads_scenario
      (run_file loads_scenario PyJson.dumps elements true false file_scenario)
    = Some es' ∧ no_dangling es'.
Proof.
  apply (no_dangling_after_repair loads_scenario PyJson.dumps elements
           elements_order file_scenario entries_scenario false).
  - exact scenario_entries.
  - intros d e o'. apply scenario_codec.
  - exact scenario_resolved.
  - intros d idp x. apply scenario_acyclic.
Defined.

(** C1, as stated, fails on the cyclic sample: after the repair [C]
    still names the removed [A] (the cycle guard stopped the walk on a
    removed record), and [D] still names [ghost], which no line of the
    input carried. *)
Lemma dangling_parent_after_repair :
  ∃ out,
    parse_jsonl loads_cycle
      (run_file loads_cycle PyJson.dumps elements true false file_cycle)
    = Some out ∧
    ¬ no_dangling out ∧
    decoded_in out cyc_C ∧ get_parent_id cyc_C = Some (JStr "A") ∧
    ¬ resolved_in out (JStr "A") ∧
    decoded_in out cyc_D ∧ get_parent_id cyc_D = Some (JStr "ghost") ∧
    ¬ resolved_in out (JStr "ghost").
Proof.
  set (out := [(1, Some cyc_C, PyJson.dumps cyc_C);
               (2, Some cyc_D, PyJson.dumps cyc_D)] : list entry).
  exists out. split; [by_compute|].
  assert (HC : decoded_in out cyc_C).
  { exists 1, (PyJson.dumps cyc_C). apply list_elem_of_here. }
  assert (HD : decoded_in out cyc_D).
  { exists 2, (PyJson.dumps cyc_D).
    apply list_elem_of_further, list_elem_of_here. }
  assert (Hno : ∀ pid, pid = JStr "A" ∨ pid = JStr "ghost" →
                       ¬ resolved_in out pid).
  { intros pid Hpid [->|(o & (n & raw & Hin) & Hid)].
    - destruct Hpid as [H|H]; discriminate H.
    - unfold out in Hin.
      repeat (apply elem_of_cons in Hin as [Heq|Hin]);
        try (by apply elem_of_nil in Hin);
        injection Heq as -> -> ->; vm_compute in Hid; injection Hid as <-;
        destruct Hpid as [H|H]; discriminate H. }
  assert (HpC : get_parent_id cyc_C = Some (JStr "A")) by by_compute.
  assert (HpD : get_parent_id cyc_D = Some (JStr "ghost")) by by_compute.
  split; [|split; [exact HC|]; split; [exact HpC|]; split;
             [apply Hno; by left|]; split; [exact HD|]; split;
             [exact HpD|apply Hno; by right]].
  intros Hall. apply (Hno (JStr "A")); [by left|]. exact (Hall cyc_C _ HC HpC).
Qed.

(** C7, as stated, fails on an empty assistant reply whose error
    message mentions the poisoned id [T1] without the words
    [tool_use_id]: the record is not classified and stays. *)
Lemma cascade_needs_marker :
  ∃ d es m err,
    parse_jsonl loads_cascade file_plain = Some es ∧
    analyze_session loads_cascade elements file_plain
      = Some (Report.Corrupted d) ∧
    decoded_in es rec_plain ∧
    message_of rec_plain = Some m ∧
    dict_get m "role" JNull = JStr "assistant" ∧
    is_empty_content (dict_get m "content" (JArr [])) = true ∧
    dict_get m "errorMessage" (JStr "") = JStr err ∧
    HStr "T1" ∈ poisoned_ids d ∧ str_contains "T1" err = true ∧
    id_key rec_plain = Some (HStr "C") ∧
    (HStr "C" ∉ Report.cascade_errors d) ∧ (HStr "C" ∉ Report.remove_ids d).
Proof.
  set (d := Report.details_of (analyze_session loads_cascade elements file_plain)).
  exists d, [(1, Some rec_A, PyJson.dumps rec_A);
             (2, Some rec_plain, PyJson.dumps rec_plain)],
         [("role", JStr "assistant"); ("content", JArr []);
          ("stopReason", JStr "error");
          ("errorMessage", JStr "request rejected because of T1")],
         "request rejected because of T1".
  split; [by_compute|]. split; [by_cast|]. split.
  { exists 2, (PyJson.dumps rec_plain).
    apply list_elem_of_further, list_elem_of_here. }
  assert (Hce : Report.cascade_errors d = []) by by_compute.
  split_and!; try by_compute.
  - rewrite Hce. apply not_elem_of_nil.
  - not_member.
Qed.

(** C2 on a user record: the session holds the broken assistant [A]
    with the tool call [T1] and a user record [U] with a tool_result block
    for [T1].  [T1] is poisoned and [A] is removed, but [U] is written to
    the corrected file with its block. *)
Lemma user_tool_result_block_survives :
  ∃ d,
    analyze_session loads_user elements file_user = Some (Report.Corrupted d) ∧
    HStr "T1" ∈ poisoned_ids d ∧
    elements (Report.remove_ids d) = [HStr "A"] ∧
    get_tool_result_ids_from_user rec_U = Some {[ HStr "T1" ]} ∧
    run_file loads_user PyJson.dumps elements true false file_user
    = session [rec_U_fixed] ∧
    parse_jsonl loads_user (session [rec_U_fixed])
    = Some [(1, Some rec_U_fixed, PyJson.dumps rec_U_fixed)] ∧
    get_tool_result_ids_from_user rec_U_fixed = Some {[ HStr "T1" ]}.
Proof.
  set (d := Report.details_of (analyze_session loads_user elements file_user)).
  exists d. split; [by_cast|]. split; [by_compute|]. split; [by_compute|].
  split; [by_cast|]. split; [by_compute|]. split; [by_compute|by_cast].
Qed.

(** ** The further properties on the sample sessions *)

Ltac by_decide := refine (bool_decide_unpack _ _); vm_compute; exact I.

Lemma parse_jsonl_entries_witness :
  parse_jsonl loads_scenario file_latin1 = None ∧
  parse_jsonl loads_scenario file_scenario_crlf = Some entries_scenario ∧
  ((4, Some rec_K, PyJson.dumps rec_K) ∈ entries_scenario ↔
   1 ≤ 4 ∧ file_lines file_scenario_crlf !! (4 - 1) = Some (PyJson.dumps rec_K) ∧
   PyJson.dumps rec_K ≠ "" ∧
   decode loads_scenario (PyJson.dumps rec_K) = Some (Some rec_K)) ∧
  StronglySorted lt (line_numbers entries_scenario).
Proof.
  destruct (parse_jsonl_entries loads_scenario file_latin1) as [Hnone _].
  destruct (parse_jsonl_entries loads_scenario file_scenario_crlf) as [_ Hsome].
  destruct (Hsome _ scenario_crlf_entries) as (Hmem & _ & Hsorted).
  split; [apply Hnone; left; by_compute|].
  split; [exact scenario_crlf_entries|].
  split; [exact (Hmem 4 (Some rec_K) (PyJson.dumps rec_K))|exact Hsorted].
Defined.

Lemma written_lines_read_back_witness :
  parse_jsonl loads_scenario file_scenario_fixed
  = Some [(1, Some rec_B_fixed, PyJson.dumps rec_B_fixed);
          (2, Some rec_K, PyJson.dumps rec_K)].
Proof.
  pose proof (written_lines_read_back loads_scenario
                [PyJson.dumps rec_B_fixed; PyJson.dumps rec_K]) as Hread.
  etransitivity; [apply Hread|by_compute].
  - repeat (constructor; [by_compute|]). constructor.
  - repeat (constructor; [not_member|]). constructor.
  - repeat (constructor; [by_compute|]). constructor.
Defined.

Lemma report_counts_nonblank_lines_witness :
  length (file_lines file_gaps) = 4 ∧
  analyze_session loads_scenario elements file_gaps = Some (Report.Clean 2) ∧
  Report.line_count (Report.Clean 2)
  = length (List.filter (λ l, negb (String.eqb l "")) (file_lines file_gaps)).
Proof.
  assert (Ha : analyze_session loads_scenario elements file_gaps
               = Some (Report.Clean 2)) by by_compute.
  split; [by_compute|]. split; [exact Ha|].
  exact (report_counts_nonblank_lines _ _ _ _ Ha).
Defined.

Lemma list_entries :
  parse_jsonl loads_odd file_list
  = Some [(1, Some rec_K, PyJson.dumps rec_K);
          (2, Some rec_list, PyJson.dumps rec_list)].
Proof. by_compute. Qed.

Lemma unscannable_record_stops_scan_witness :
  analyze_session loads_odd elements file_list = None ∧
  run_file loads_odd PyJson.dumps elements true false file_list = file_list.
Proof.
  apply (unscannable_record_stops_scan loads_odd PyJson.dumps elements file_list
           _ 2 rec_list (PyJson.dumps rec_list) true false list_entries);
    [|by_compute].
  apply list_elem_of_further, list_elem_of_here.
Defined.

Lemma null_error_entries :
  parse_jsonl loads_odd file_null_error
  = Some [(1, Some rec_K, PyJson.dumps rec_K);
          (2, Some rec_null_error, PyJson.dumps rec_null_error)].
Proof. by_compute. Qed.

Lemma null_error_message_stops_scan_witness :
  analyze_session loads_odd elements file_null_error = None ∧
  run_file loads_odd PyJson.dumps elements true false file_null_error
  = file_null_error.
Proof.
  apply (null_error_message_stops_scan loads_odd PyJson.dumps elements
           file_null_error _ 2 rec_null_error (PyJson.dumps rec_null_error)
           [("role", JStr "assistant"); ("content", JArr []);
            ("errorMessage", JNull)] true false null_error_entries).
  - apply list_elem_of_further, list_elem_of_here.
  - by_compute.
  - by_compute.
  - by_compute.
  - right. by_compute.
Defined.

Lemma corruption_classes_exclusive_witness :
  is_broken_assistant rec_A = Some true ∧
  is_orphan_result {[ HStr "T1" ]} rec_A = Some false ∧
  cascade_mention elements {[ HStr "T1" ]} rec_A = Some None ∧
  is_orphan_result {[ HStr "T1" ]} rec_R1 = Some true ∧
  is_broken_assistant rec_R1 = Some false ∧
  cascade_mention elements {[ HStr "T1" ]} rec_R1 = Some None.
Proof.
  destruct (corruption_classes_exclusive elements rec_A
              {[ HStr "T1" ]} {[ HStr "T1" ]}) as [HA _].
  destruct (corruption_classes_exclusive elements rec_R1
              {[ HStr "T1" ]} {[ HStr "T1" ]}) as [_ HR].
  assert (Hb : is_broken_assistant rec_A = Some true) by by_compute.
  assert (Ho : is_orphan_result {[ HStr "T1" ]} rec_R1 = Some true) by by_compute.
  destruct (HA Hb) as [HA1 HA2]. destruct (HR Ho) as [HR1 HR2].
  split; [exact Hb|]. split; [exact HA1|]. split; [exact HA2|].
  split; [exact Ho|]. split; [exact HR1|exact HR2].
Defined.

Lemma extract_tool_call_ids_spec_witness :
  ∃ ids,
    extract_tool_call_ids rec_A = Some ids ∧
    (HStr "T1" ∈ ids ↔
     ∃ block, block ∈ content_blocks rec_A ∧ tool_call_block block (HStr "T1")) ∧
    (HStr "" ∉ ids).
Proof.
  exists {[ HStr "T1" ]}.
  assert (Hids : extract_tool_call_ids rec_A = Some {[ HStr "T1" ]}) by by_cast.
  destruct (extract_tool_call_ids_spec _ _ Hids) as (Hspec & _ & Hempty & _).
  split; [exact Hids|]. split; [exact (Hspec (HStr "T1"))|exact Hempty].
Defined.

Lemma has_partial_json_spec_witness :
  has_partial_json rec_A = Some true ∧ content_blocks rec_A ≠ [] ∧
  ∃ b ty, JObj b ∈ content_blocks rec_A ∧
          to_key (dict_get b "type" JNull) = Some ty ∧
          ty ∈ TOOL_CALL_TYPES ∧ has_key "partialJson" b = true.
Proof.
  assert (Hp : has_partial_json rec_A = Some true) by by_compute.
  destruct (has_partial_json_spec _ _ Hp) as [Hspec Hne].
  split; [exact Hp|]. split; [exact (Hne eq_refl)|].
  exact (proj1 Hspec eq_refl).
Defined.

Lemma get_tool_result_ids_from_user_spec_witness :
  ∃ ids,
    get_tool_result_ids_from_user rec_U = Some ids ∧
    (HStr "T1" ∈ ids ↔
     ∃ block, block ∈ content_blocks rec_U ∧ tool_result_block block (HStr "T1")) ∧
    get_tool_result_ids_from_user rec_A = Some ∅.
Proof.
  exists {[ HStr "T1" ]}.
  assert (Hids : get_tool_result_ids_from_user rec_U = Some {[ HStr "T1" ]})
    by by_cast.
  destruct (get_tool_result_ids_from_user_spec _ _ Hids) as (m & Hm & _ & Huser).
  assert (m = [("role", JStr "user");
               ("content", JArr [JObj [("type", JStr "tool_result");
                                       ("tool_use_id", JStr "T1");
                                       ("content", JStr "done")]])]) as ->.
  { vm_compute in Hm. by injection Hm as <-. }
  split; [exact Hids|]. split; [exact (Huser eq_refl (HStr "T1"))|by_compute].
Defined.

Lemma extract_all_tool_call_ids_spec_witness :
  ∃ ids,
    extract_all_tool_call_ids entries_two_calls = Some ids ∧
    HStr "T2" ∈ ids ∧ (HStr "T1" ∉ ids) ∧
    ∃ o tcs, decoded_in entries_two_calls o ∧
             get_role o = Some (JStr "assistant") ∧
             is_error_assistant o = Some false ∧
             extract_tool_call_ids o = Some tcs ∧ HStr "T2" ∈ tcs.
Proof.
  exists {[ HStr "T2" ]}.
  assert (Hids : extract_all_tool_call_ids entries_two_calls
                 = Some {[ HStr "T2" ]}) by by_cast.
  pose proof (extract_all_tool_call_ids_spec _ _ Hids (HStr "T2")) as Hspec.
  assert (Hin : HStr "T2" ∈ ({[ HStr "T2" ]} : gset hkey)) by by_compute.
  split; [exact Hids|]. split; [exact Hin|]. split; [not_member|].
  exact (proj1 Hspec Hin).
Defined.

Lemma report_maps_keyed_by_removed_ids_witness :
  ∃ d,
    analyze_session loads_scenario elements file_scenario
      = Some (Report.Corrupted d) ∧
    elements (Report.remove_ids d) = [HStr "A"; HStr "R1"] ∧
    dom (Report.line_map d) = Report.remove_ids d ∧
    dom (Report.parent_fixes d) = Report.remove_ids d ∧
    Report.remove_count d = 2.
Proof.
  set (d := Report.details_of (analyze_session loads_scenario elements file_scenario)).
  destruct (report_maps_keyed_by_removed_ids loads_scenario elements
              elements_order file_scenario entries_scenario d
              scenario_entries scenario_report)
    as (Hlm & _ & Hpf & Hrc & _).
  exists d. split; [exact scenario_report|]. split; [by_compute|].
  split; [exact Hlm|]. split; [exact Hpf|by_compute].
Defined.

Lemma report_lists_cover_removed_ids_witness :
  ∃ d,
    analyze_session loads_scenario elements file_scenario
      = Some (Report.Corrupted d) ∧
    Report.broken_assistants d = [HStr "A"] ∧
    Report.orphan_results d = [HStr "R1"] ∧
    Report.cascade_errors d = [] ∧
    list_to_set (Report.broken_assistants d ++ Report.orphan_results d
                 ++ Report.cascade_errors d) = Report.remove_ids d.
Proof.
  set (d := Report.details_of (analyze_session loads_scenario elements file_scenario)).
  destruct (report_lists_cover_removed_ids loads_scenario elements
              elements_order file_scenario d scenario_report) as (Hcover & _).
  exists d. split; [exact scenario_report|]. split; [by_compute|].
  split; [by_compute|]. split; [by_compute|exact Hcover].
Defined.

Lemma dry_run_summary_consistent_witness :
  ∃ d,
    analyze_session loads_scenario elements file_scenario
      = Some (Report.Corrupted d) ∧
    fix_session loads_scenario PyJson.dumps elements file_scenario
      (Report.Corrupted d) true true
    = (file_scenario,
       Some (WouldFix 4 1 1 0 [] 2 [1; 2] ["T1"] 2
               [(1, ErrorPartialJson (JStr "terminated"));
                (2, OrphanToolResult (JStr "T1"))])) ∧
    2 = size (Report.remove_ids d) ∧ Sorted le [1; 2].
Proof.
  set (d := Report.details_of (analyze_session loads_scenario elements file_scenario)).
  assert (Hdry : fix_session loads_scenario PyJson.dumps elements file_scenario
                   (Report.Corrupted d) true true
                 = (file_scenario,
                    Some (WouldFix 4 1 1 0 [] 2 [1; 2] ["T1"] 2
                            [(1, ErrorPartialJson (JStr "terminated"));
                             (2, OrphanToolResult (JStr "T1"))]))) by by_cast.
  destruct (dry_run_summary_consistent loads_scenario PyJson.dumps elements
              elements_order file_scenario entries_scenario d true
              _ _ _ _ _ _ _ _ _ _ _
              scenario_entries scenario_report Hdry)
    as (_ & _ & Hrc & _ & _ & _ & Hsorted & _).
  exists d. split; [exact scenario_report|]. split; [exact Hdry|].
  split; [exact Hrc|exact Hsorted].
Defined.

Lemma orphans_entries :
  parse_jsonl loads_scenario file_orphans
  = Some [(1, Some rec_R1, PyJson.dumps rec_R1);
          (2, Some rec_K, PyJson.dumps rec_K)].
Proof. by_compute. Qed.

Lemma no_broken_assistant_nothing_removed_witness :
  get_tool_result_id rec_R1 = Some (JStr "T1") ∧
  analyze_session loads_scenario elements file_orphans = Some (Report.Clean 2).
Proof.
  assert (Ha : analyze_session loads_scenario elements file_orphans
               = Some (Report.Clean 2)) by by_compute.
  destruct (no_broken_assistant_nothing_removed loads_scenario elements
              elements_order file_orphans _ _ orphans_entries Ha)
    as [Hclean|(d & Hd & _)].
  - intros o (n & raw & Hin).
    repeat (apply elem_of_cons in Hin as [Heq|Hin]);
      try (by apply elem_of_nil in Hin);
      injection Heq as -> -> ->; by_compute.
  - split; [by_compute|exact Ha].
  - discriminate Hd.
Defined.

Lemma fix_accounts_for_every_entry_witness :
  ∃ d,
    analyze_session loads_scenario elements file_scenario
      = Some (Report.Corrupted d) ∧
    fix_loop PyJson.dumps (Report.remove_ids d) (Report.parent_fixes d)
      entries_scenario
    = Some ([PyJson.dumps rec_B_fixed; PyJson.dumps rec_K], 2, 1) ∧
    2 + 2 = length entries_scenario ∧
    2 = length (List.filter (is_removed (Report.remove_ids d))
                  entries_scenario) ∧
    1 = length (List.filter (is_rewired (Report.remove_ids d)
                               (Report.parent_fixes d))
                  entries_scenario).
Proof.
  set (d := Report.details_of (analyze_session loads_scenario elements file_scenario)).
  assert (Hloop : fix_loop PyJson.dumps (Report.remove_ids d)
                    (Report.parent_fixes d) entries_scenario
                  = Some ([PyJson.dumps rec_B_fixed; PyJson.dumps rec_K], 2, 1))
    by by_cast.
  destruct (fix_accounts_for_every_entry _ _ _ _ _ _ _ Hloop)
    as (Hlen & _ & Hrm & Hfx).
  exists d. split; [exact scenario_report|]. split; [exact Hloop|].
  split; [exact Hlen|]. split; [exact Hrm|exact Hfx].
Defined.

Lemma garbled_report :
  analyze_session loads_twin elements file_garbled
  = Some (Report.Corrupted
            (Report.details_of (analyze_session loads_twin elements file_garbled))).
Proof. by_cast. Qed.

Lemma garbled_entries :
  parse_jsonl loads_twin file_garbled
  = Some [(1, Some rec_A, PyJson.dumps rec_A); (2, None, "not json");
          (3, Some rec_K, PyJson.dumps rec_K)].
Proof. by_compute. Qed.

Lemma unparseable_line_stays_witness :
  ∃ d file' es',
    analyze_session loads_twin elements file_garbled = Some (Report.Corrupted d) ∧
    Report.unparseable_lines d = [2] ∧
    fix_session loads_twin PyJson.dumps elements file_garbled
      (Report.Corrupted d) false false
    = (file', Some (Fixed [1] 1 0 3 2 false)) ∧
    parse_jsonl loads_twin file' = Some es' ∧
    ∃ n', (n', None, "not json") ∈ es'.
Proof.
  set (d := Report.details_of (analyze_session loads_twin elements file_garbled)).
  set (file' := join_lines ["not json"; PyJson.dumps rec_K] +:+ String LF "").
  assert (Hfix : fix_session loads_twin PyJson.dumps elements file_garbled
                   (Report.Corrupted d) false false
                 = (file', Some (Fixed [1] 1 0 3 2 false))) by by_cast.
  destruct (unparseable_line_stays loads_twin PyJson.dumps elements file_garbled
              _ d false file' [1] 1 0 3 2 false garbled_entries garbled_report)
    as (_ & es' & Hes' & Hstay).
  - intros e o' He Hfe. exfalso.
    repeat (apply elem_of_cons in He as [->|He]);
      try (by apply elem_of_nil in He);
      vm_compute in Hfe; discriminate Hfe.
  - intros Hnil. vm_compute in Hnil. discriminate Hnil.
  - exact Hfix.
  - exists d, file', es'. split; [exact garbled_report|]. split; [by_compute|].
    split; [exact Hfix|]. split; [exact Hes'|]. apply (Hstay 2).
    apply list_elem_of_further, list_elem_of_here.
Defined.

Lemma rewrite_changes_parent_only_witness :
  ∃ d,
    analyze_session loads_scenario elements file_scenario
      = Some (Report.Corrupted d) ∧
    fix_entry (Report.remove_ids d) (Report.parent_fixes d)
      (3, Some rec_B, PyJson.dumps rec_B) = Some (Rewritten rec_B_fixed) ∧
    get_parent_id rec_B = Some (JStr "R1") ∧
    get_parent_id rec_B_fixed = Some (JStr "") ∧
    keys_of rec_B_fixed = keys_of rec_B.
Proof.
  set (d := Report.details_of (analyze_session loads_scenario elements file_scenario)).
  assert (Hfix : fix_entry (Report.remove_ids d) (Report.parent_fixes d)
                   (3, Some rec_B, PyJson.dumps rec_B)
                 = Some (Rewritten rec_B_fixed)) by by_cast.
  destruct (rewrite_changes_parent_only _ _ _ _ _ _ Hfix)
    as (kp & a & Hkp & Ha & Hp & _ & Hkeys).
  assert (kp = HStr "R1") as ->.
  { vm_compute in Hkp. by injection Hkp as <-. }
  assert (Ha' : Report.parent_fixes d !! HStr "R1" = Some (JStr "")) by by_cast.
  rewrite Ha' in Ha. injection Ha as <-.
  exists d. split; [exact scenario_report|]. split; [exact Hfix|].
  split; [by_compute|]. split; [exact Hp|]. rewrite Hkeys. by_compute.
Defined.

Lemma repair_loop_succeeds_witness :
  ∃ d,
    analyze_session loads_scenario elements file_scenario
      = Some (Report.Corrupted d) ∧
    is_Some (fix_loop PyJson.dumps (Report.remove_ids d) (Report.parent_fixes d)
               entries_scenario).
Proof.
  set (d := Report.details_of (analyze_session loads_scenario elements file_scenario)).
  exists d. split; [exact scenario_report|].
  apply (repair_loop_succeeds loads_scenario PyJson.dumps elements file_scenario
           entries_scenario d scenario_entries scenario_report).
  intros o (n & raw & Hin). unfold entries_scenario in Hin.
  repeat (apply elem_of_cons in Hin as [Heq|Hin]);
    try (by apply elem_of_nil in Hin);
    injection Heq as -> -> ->; vm_compute; eauto.
Defined.

(** [main] on a directory of two session files, [a.jsonl] with the
    scenario and [b.jsonl] with a line that cannot be scanned. *)

Lemma main_dry_run_changes_nothing_witness :
  (main loads_odd PyJson.dumps elements in_sessions any_file two_sessions
     no_default_sessions noon ["sessions"; "-v"] disk_broken).1.1
  = disk_broken.
Proof.
  apply main_dry_run_changes_nothing. by_compute.
Defined.

Lemma main_touches_listed_files_only_witness :
  (main loads_odd PyJson.dumps elements in_sessions any_file two_sessions
     no_default_sessions noon ["--fix"; "sessions"] disk_broken).1.1
  !! "notes.txt" = Some "keep".
Proof.
  rewrite (main_touches_listed_files_only loads_odd PyJson.dumps elements
             in_sessions any_file two_sessions no_default_sessions noon
             ["--fix"; "sessions"] disk_broken ["a.jsonl"; "b.jsonl"] "notes.txt").
  - by_compute.
  - by_compute.
  - by_decide.
  - intros f Hf.
    repeat (apply elem_of_cons in Hf as [->|Hf]);
      try (by apply elem_of_nil in Hf); intros H; vm_compute in H; discriminate H.
Defined.

Lemma main_fix_keeps_backup_witness :
  ∃ fs' log,
    main loads_odd PyJson.dumps elements not_a_dir any_file two_sessions
      no_default_sessions noon ["--fix"; "a.jsonl"] disk_broken
    = (fs', log, Counted true 1) ∧
    fs' !! "a.jsonl.backup-20240101_120000" = Some file_scenario ∧
    fs' !! "a.jsonl" = Some file_scenario_fixed.
Proof.
  set (d := Report.details_of (analyze_session loads_odd elements file_scenario)).
  destruct (main_fix_keeps_backup loads_odd PyJson.dumps elements not_a_dir
              any_file two_sessions no_default_sessions noon
              ["--fix"; "a.jsonl"] disk_broken "a.jsonl" file_scenario d)
    as (fs' & log & Hmain & Hbackup & Hfile & _ & _).
  - by_compute.
  - by_compute.
  - by_compute.
  - by_cast.
  - exists fs', log. split; [exact Hmain|]. split; [exact Hbackup|].
    rewrite Hfile. by_cast.
Defined.

Lemma main_all_clean_verdict_witness :
  main loads_odd PyJson.dumps elements in_sessions any_file two_sessions
    no_default_sessions noon ["--fix"; "sessions"] disk_repaired
  = (disk_repaired, [ScanError "b.jsonl"], AllClean).
Proof.
  destruct (main_all_clean_verdict loads_odd PyJson.dumps elements in_sessions
              any_file two_sessions no_default_sessions noon
              ["--fix"; "sessions"] disk_repaired ["a.jsonl"; "b.jsonl"])
    as (log & Hmain & _).
  - by_compute.
  - discriminate.
  - intros f r Hf Hr.
    repeat (apply elem_of_cons in Hf as [->|Hf]);
      try (by apply elem_of_nil in Hf); vm_compute in Hr;
      [injection Hr as <-; reflexivity|discriminate Hr].
  - rewrite Hmain. f_equal. f_equal.
    assert (Hlog : (main loads_odd PyJson.dumps elements in_sessions any_file
                      two_sessions no_default_sessions noon
                      ["--fix"; "sessions"] disk_repaired).1.2
                   = [ScanError "b.jsonl"]) by by_compute.
    rewrite Hmain in Hlog. exact Hlog.
Defined.

Lemma main_counts_corrupted_reports_witness :
  ∃ fs',
    main loads_odd PyJson.dumps elements in_sessions any_file two_sessions
      no_default_sessions noon ["--fix"; "sessions"] disk_broken
    = (fs', [Printed (Fixed [1; 2] 2 1 4 2 true); ScanError "b.jsonl"],
       Counted true 1).
Proof.
  set (run := main loads_odd PyJson.dumps elements in_sessions any_file
                two_sessions no_default_sessions noon ["--fix"; "sessions"]
                disk_broken).
  assert (Hlog : run.1.2 = [Printed (Fixed [1; 2] 2 1 4 2 true);
                            ScanError "b.jsonl"]) by by_cast.
  destruct run as [[fs' log] v] eqn:Hrun. simpl in Hlog. subst log.
  destruct (main_counts_corrupted_reports loads_odd PyJson.dumps elements
              in_sessions any_file two_sessions no_default_sessions noon
              ["--fix"; "sessions"] disk_broken ["a.jsonl"; "b.jsonl"]
              fs' [Printed (Fixed [1; 2] 2 1 4 2 true); ScanError "b.jsonl"] v)
    as [Hv _].
  - by_compute.
  - discriminate.
  - exact Hrun.
  - exists fs'. rewrite Hv. reflexivity.
Defined.
